(** * doc-fetcher: the API documentation fetcher (scripts/api_docs_fetcher.py)

    A shallow embedding of class [APIDocsFetcher] and of the properties its
    specification states about it.

    - Python [str] values are [string]s whose characters are code points
      below 256; the [str] methods the fetcher calls are in [PyStr].  Case
      is converted, and compared without regard to it, on the letters a
      to z.
    - The libraries the fetcher calls (urllib.parse, re, BeautifulSoup,
      requests/Playwright, time) are interfaces: type classes whose
      operations are exactly the calls the source makes.  The fetcher is
      translated once, over any implementation of them; [Model] gives
      small executable implementations on which it runs.
    - [self] is a record passed explicitly.  Next to the three attributes
      of the class it carries the outside world and the trace of what the
      fetcher did to it: fetches attempted, sleeps, files written.
      Printing and the creation of the output directory are left out.
    - Of the calls the source makes, the two fetches are taken to
      raise, being the calls its [try] blocks are written for, and
      [time.sleep], which raises on a delay it refuses, a negative one in
      particular.  Parsing a response, compiling a pattern and writing a
      file succeed.
    - After the class come [main] of the same file, from the parsed
      arguments on, and what the scripts around the fetcher do with links
      and names: [save_links] of extract_all_links.py,
      [read_extracted_links] and the directory name of [run_doc_fetcher]
      of fetch_all_extracted_links.py, and the command doc-fetcher.py
      runs. *)

From stdpp Require Import gmap strings list fin_maps sorting.
From Stdlib Require Import Ascii DecimalString QArith.
From Stdlib Require Import ZifyNat.

Close Scope Q_scope.
Set Warnings "-register-all,-clear-no-such-hyp".
Open Scope string_scope.
Open Scope nat_scope.
Open Scope list_scope.
Open Scope stdpp_scope.

(** ** Python string methods *)

Module PyStr.

Definition code (c : ascii) : nat := nat_of_ascii c.

(** [str.isspace] on one character: what [str.strip()] removes and what
    [\s] matches. *)
Definition is_space (c : ascii) : bool :=
  let n := code c in
  ((9 <=? n) && (n <=? 13)) || ((28 <=? n) && (n <=? 32))
  || (n =? 133) || (n =? 160).

Definition is_ascii_upper (c : ascii) : bool :=
  let n := code c in (65 <=? n) && (n <=? 90).

Definition is_ascii_lower (c : ascii) : bool :=
  let n := code c in (97 <=? n) && (n <=? 122).

Definition is_ascii_digit (c : ascii) : bool :=
  let n := code c in (48 <=? n) && (n <=? 57).

(** Letters and numeric characters of the Latin-1 supplement. *)
Definition is_latin1_alnum (c : ascii) : bool :=
  let n := code c in
  (n =? 170) || (n =? 178) || (n =? 179) || (n =? 181) || (n =? 185)
  || (n =? 186) || (n =? 188) || (n =? 189) || (n =? 190)
  || ((192 <=? n) && (n <=? 214)) || ((216 <=? n) && (n <=? 246))
  || (248 <=? n).

(** [\w]: alphanumeric or underscore. *)
Definition is_word (c : ascii) : bool :=
  is_ascii_upper c || is_ascii_lower c || is_ascii_digit c
  || (code c =? 95) || is_latin1_alnum c.

Definition upper_char (c : ascii) : ascii :=
  if is_ascii_lower c then ascii_of_nat (code c - 32) else c.

Definition lower_char (c : ascii) : ascii :=
  if is_ascii_upper c then ascii_of_nat (code c + 32) else c.

Fixpoint map_chars (f : ascii -> ascii) (s : string) : string :=
  match s with
  | EmptyString => EmptyString
  | String c r => String (f c) (map_chars f r)
  end.

(** [s.upper()] and [s.lower()]; case is mapped on the ASCII letters. *)
Definition upper : string -> string := map_chars upper_char.
Definition lower : string -> string := map_chars lower_char.

Definition len (s : string) : nat := String.length s.

Definition is_empty (s : string) : bool :=
  match s with EmptyString => true | _ => false end.

(** Truth value of a [str]: non-empty. *)
Definition truthy (s : string) : bool := negb (is_empty s).

Fixpoint lstrip (s : string) : string :=
  match s with
  | EmptyString => EmptyString
  | String c r => if is_space c then lstrip r else s
  end.

Fixpoint rstrip (s : string) : string :=
  match s with
  | EmptyString => EmptyString
  | String c r =>
      let r' := rstrip r in
      if is_space c && is_empty r' then EmptyString else String c r'
  end.

(** [s.strip()] *)
Definition strip (s : string) : string := lstrip (rstrip s).

(** [s.startswith(p)] *)
Fixpoint startswith (p s : string) : bool :=
  match p, s with
  | EmptyString, _ => true
  | String a p', String b s' => if Ascii.eqb a b then startswith p' s' else false
  | String _ _, EmptyString => false
  end.

(** [sub in s] *)
Fixpoint contains (sub s : string) : bool :=
  startswith sub s
  || match s with
     | EmptyString => false
     | String _ r => contains sub r
     end.

Fixpoint replace_from (old new : string) (skip : nat) (s : string) : string :=
  match s with
  | EmptyString => EmptyString
  | String c r =>
      match skip with
      | S k => replace_from old new k r
      | O =>
          if startswith old s
          then new +:+ replace_from old new (len old - 1) r
          else String c (replace_from old new 0 r)
      end
  end.

(** [s.replace(old, new)] for a non-empty [old]: every occurrence, left
    to right, without overlap. *)
Definition replace (old new s : string) : string := replace_from old new 0 s.

(** [sep.join(l)] *)
Fixpoint join (sep : string) (l : list string) : string :=
  match l with
  | [] => EmptyString
  | [x] => x
  | x :: r => x +:+ sep +:+ join sep r
  end.

Fixpoint title_from (prev_cased : bool) (s : string) : string :=
  match s with
  | EmptyString => EmptyString
  | String c r =>
      if is_ascii_lower c then
        String (if prev_cased then c else upper_char c) (title_from true r)
      else if is_ascii_upper c then
        String (if prev_cased then lower_char c else c) (title_from true r)
      else String c (title_from false r)
  end.

(** [s.title()] *)
Definition title (s : string) : string := title_from false s.

Fixpoint repeat_char (c : ascii) (n : nat) : string :=
  match n with
  | O => EmptyString
  | S k => String c (repeat_char c k)
  end.

(** [s[:n]] *)
Fixpoint take (n : nat) (s : string) : string :=
  match n, s with
  | O, _ => EmptyString
  | _, EmptyString => EmptyString
  | S k, String c r => String c (take k r)
  end.

(** [s.split(sep)[0]] for a one-character separator. *)
Fixpoint before (sep : ascii) (s : string) : string :=
  match s with
  | EmptyString => EmptyString
  | String c r => if Ascii.eqb c sep then EmptyString else String c (before sep r)
  end.

(** [str(n)] for a natural number. *)
Definition of_nat (n : nat) : string :=
  NilEmpty.string_of_uint (Nat.to_uint n).

(** [f"{n:02d}"] for a natural number: at least two digits. *)
Definition of_nat_02d (n : nat) : string :=
  let d := of_nat n in
  repeat_char "0" (2 - len d) +:+ d.

(** [s.strip(chars)], for the characters that satisfy [p]. *)
Fixpoint lstrip_by (p : ascii -> bool) (s : string) : string :=
  match s with
  | EmptyString => EmptyString
  | String c r => if p c then lstrip_by p r else s
  end.

Fixpoint rstrip_by (p : ascii -> bool) (s : string) : string :=
  match s with
  | EmptyString => EmptyString
  | String c r =>
      let r' := rstrip_by p r in
      if p c && is_empty r' then EmptyString else String c r'
  end.

Definition strip_by (p : ascii -> bool) (s : string) : string :=
  lstrip_by p (rstrip_by p s).

(** The text a file opened for reading gives: a carriage return, with
    the newline after it if there is one, is read as a newline. *)
Fixpoint universal_newlines (s : string) : string :=
  match s with
  | EmptyString => EmptyString
  | String c r =>
      if code c =? 13 then
        String (ascii_of_nat 10)
               match r with
               | String c' r' =>
                   if code c' =? 10 then universal_newlines r' else universal_newlines r
               | EmptyString => EmptyString
               end
      else String c (universal_newlines r)
  end.

(** [for line in f]: the lines of a text, each with the newline that
    ends it; the last line may have none. *)
Fixpoint file_lines (text : string) : list string :=
  match text with
  | EmptyString => []
  | String c r =>
      if code c =? 10 then String c EmptyString :: file_lines r
      else
        match file_lines r with
        | [] => [String c EmptyString]
        | line :: more => String c line :: more
        end
  end.

End PyStr.

(** ** Python sequences *)

(** [range(start, stop, step)] for a positive step.  [fuel] bounds the
    number of elements. *)
Fixpoint range_from (fuel start stop step : nat) : list nat :=
  match fuel with
  | O => []
  | S fuel' =>
      if start <? stop then start :: range_from fuel' (start + step) stop step else []
  end.

Definition range (start stop step : nat) : list nat :=
  range_from stop start stop step.

(** [l[i:j]] for [0 <= i <= j]. *)
Definition slice {A} (i j : nat) (l : list A) : list A := take (j - i) (drop i l).

(** The characters the source writes with an escape. *)
Definition dquote : string := String (ascii_of_nat 34) EmptyString.
Definition newline : string := String (ascii_of_nat 10) EmptyString.

(** ** Library interfaces *)

(** urllib.parse *)
Class Urllib := {
  (** [urlparse(url).netloc] *)
  netloc : string -> string;
  (** [urljoin(base, href)] *)
  urljoin : string -> string -> string;
}.

(** re *)
Inductive re_flag := IGNORECASE | MULTILINE.

#[global] Instance re_flag_eq_dec : EqDecision re_flag.
Proof. solve_decision. Defined.

(** One element of the list [re.findall] returns: a [str] when the pattern
    has at most one group, a tuple of its two or more groups otherwise. *)
Inductive re_match :=
| MatchStr (s : string)
| MatchTuple (group1 group2 : string) (more : list string).

Class Re := {
  (** truth value of [re.search(pattern, string, flags)] *)
  re_search : string -> string -> list re_flag -> bool;
  (** [re.findall(pattern, string, flags)] *)
  re_findall : string -> string -> list re_flag -> list re_match;
}.

(** BeautifulSoup: [Html] is what a response carries, [Tag] a parsed
    document or one of its elements. *)
Class BS4 (Html Tag : Type) := {
  (** [BeautifulSoup(html, 'html.parser')] *)
  BeautifulSoup : Html -> Tag;
  (** [tag.select_one(selector)] *)
  select_one : Tag -> string -> option Tag;
  (** [tag.select(selector)] *)
  select : Tag -> string -> list Tag;
  (** [tag.find_all(names)], in document order *)
  find_all : Tag -> list string -> list Tag;
  (** [tag.get_text()] *)
  get_text : Tag -> string;
  (** [tag.name] *)
  tag_name : Tag -> string;
  (** [tag.get('class', [])] *)
  get_class : Tag -> list string;
  (** [tag.get('href')] *)
  get_href : Tag -> option string;
  (** [find_all] returns elements of the requested names only. *)
  find_all_names : forall t names e, e ∈ find_all t names -> tag_name e ∈ names;
}.

(** The process environment: network, clock, interpreter. *)
Class Env (World Html : Type) := {
  (** [self.session.get(url, timeout=30)] then [raise_for_status()];
      [None] when either raises. *)
  session_get : World -> string -> World * option Html;
  (** The [with sync_playwright()] block up to [browser.close()]: the
      rendered page source, [None] when anything in it raises. *)
  playwright_content : World -> string -> World * option Html;
  (** The module constant set by the optional import. *)
  PLAYWRIGHT_AVAILABLE : bool;
  (** Whether [time.sleep(d)] raises instead of sleeping: it does for
      every delay it does not accept, a negative one in particular
      ([ValueError]), and then no time passes. *)
  sleep_raises : Q -> bool;
  sleep_raises_negative : forall d, (d < 0)%Q -> sleep_raises d = true;
  (** [time.strftime('%Y-%m-%d %H:%M:%S')] *)
  strftime : World -> string;
  (** [list(set(l))]: the elements of [l], once each, in hash order. *)
  list_set : list string -> list string;
  list_set_elem : forall l x, x ∈ list_set l <-> x ∈ l;
  list_set_NoDup : forall l, NoDup (list_set l);
  (** [str(Path(output_dir) / filename)] *)
  path_str : string -> string -> string;
}.

(** ** Data *)

(** [FetcherConfig].  The two toggles that share their name with a
    method carry the prefix [config_]. *)
Record FetcherConfig := {
  base_urls : list string;
  output_dir : string;
  max_depth : Z;
  delay_seconds : Q;
  include_patterns : option (list string);
  exclude_patterns : option (list string);
  custom_headers : option (list (string * string));
  follow_external_links : bool;
  config_extract_code_examples : bool;
  config_extract_api_endpoints : bool;
  create_index : bool;
  use_playwright : bool;
}.

(** Truth value of a list: non-empty. *)
Definition list_truthy {A} (l : list A) : bool :=
  match l with [] => false | _ => true end.

(** An optional list attribute: its truth value ([None] and the empty
    list are false) and the list it is iterated as. *)
Definition opt_truthy {A} (o : option (list A)) : bool :=
  match o with
  | Some l => list_truthy l
  | None => false
  end.

Definition opt_items {A} (o : option (list A)) : list A :=
  match o with
  | Some l => l
  | None => []
  end.

(** A section dict: keys [level], [title], [content]. *)
Record DocSection := {
  sec_level : nat;
  sec_title : string;
  sec_content : list string;
}.

(** An endpoint dict.  A pattern match gives the keys [method], [path]
    and [type = 'endpoint']; a table row gives [type = 'table_endpoint']
    and [data], and has no [method] and no [path] key. *)
Inductive Endpoint :=
| PatternEndpoint (method path : string)
| TableEndpoint (data : list string).

(** [endpoint.get('method', default)] and [endpoint.get('path', default)] *)
Definition endpoint_get_method (e : Endpoint) (default : string) : string :=
  match e with
  | PatternEndpoint m _ => m
  | TableEndpoint _ => default
  end.

Definition endpoint_get_path (e : Endpoint) (default : string) : string :=
  match e with
  | PatternEndpoint _ p => p
  | TableEndpoint _ => default
  end.

(** A code example dict: keys [language], [code], [length]. *)
Record CodeExample := {
  ex_language : string;
  ex_code : string;
  ex_length : nat;
}.

(** The dict [extract_page_content] returns for a page. *)
Record PageContent := {
  url : string;
  title : string;
  sections : list DocSection;
  api_endpoints : list Endpoint;
  code_examples : list CodeExample;
  navigation_links : list string;
}.

(** ** The fetcher *)

Section APIDocsFetcher.

Context {Html Tag World : Type}.
Context {lib_url : Urllib} {lib_re : Re} {lib_bs4 : BS4 Html Tag} {lib_env : Env World Html}.

(** What the fetcher does to the outside, in the order it does it. *)
Inductive Event :=
| Rendered (u : string)          (* the rendered fetch of [u] was attempted *)
| Requested (u : string)         (* [session.get(u)] was attempted *)
| Slept (d : Q)                  (* [time.sleep(d)] *)
| Wrote (path text : string).    (* [text] was written to the file [path] *)

(** [self]: the configuration and the three attributes [__init__]
    sets, then the environment the methods act on. *)
Record Fetcher := {
  config : FetcherConfig;
  visited_urls : gset string;
  failed_urls : list string;
  successful_pages : list PageContent;
  (** the outside world, advanced by every network call *)
  world : World;
  (** the events so far, oldest first *)
  trace : list Event;
}.

(** [APIDocsFetcher(config)] in a given world. *)
Definition init (cfg : FetcherConfig) (w : World) : Fetcher :=
  {| config := cfg; visited_urls := ∅; failed_urls := [];
     successful_pages := []; world := w; trace := [] |}.

Definition set_world (w : World) (self : Fetcher) : Fetcher :=
  {| config := config self; visited_urls := visited_urls self;
     failed_urls := failed_urls self; successful_pages := successful_pages self;
     world := w; trace := trace self |}.

(** [self.visited_urls.add(url)] *)
Definition visited_add (u : string) (self : Fetcher) : Fetcher :=
  {| config := config self; visited_urls := {[u]} ∪ visited_urls self;
     failed_urls := failed_urls self; successful_pages := successful_pages self;
     world := world self; trace := trace self |}.

(** [self.failed_urls.append(url)] *)
Definition failed_append (u : string) (self : Fetcher) : Fetcher :=
  {| config := config self; visited_urls := visited_urls self;
     failed_urls := failed_urls self ++ [u]; successful_pages := successful_pages self;
     world := world self; trace := trace self |}.

(** [self.successful_pages.append(page)] *)
Definition successful_append (pg : PageContent) (self : Fetcher) : Fetcher :=
  {| config := config self; visited_urls := visited_urls self;
     failed_urls := failed_urls self; successful_pages := successful_pages self ++ [pg];
     world := world self; trace := trace self |}.

(** The event [e] happens. *)
Definition log (e : Event) (self : Fetcher) : Fetcher :=
  {| config := config self; visited_urls := visited_urls self;
     failed_urls := failed_urls self; successful_pages := successful_pages self;
     world := world self; trace := trace self ++ [e] |}.

(** [time.sleep(d)] for a delay it accepts; whether it raises instead
    is [sleep_raises d], which the callers ask first. *)
Definition sleep (d : Q) (self : Fetcher) : Fetcher := log (Slept d) self.

(** [with open(path, 'w') as f: f.write(text)] *)
Definition write_file (path text : string) (self : Fetcher) : Fetcher :=
  log (Wrote path text) self.

(** The arguments of the [time.sleep] calls so far, oldest first. *)
Definition sleep_log (self : Fetcher) : list Q :=
  omap (fun e => match e with Slept d => Some d | _ => None end) (trace self).

(** The files written so far, oldest first: path and text. *)
Definition write_log (self : Fetcher) : list (string * string) :=
  omap (fun e => match e with Wrote path text => Some (path, text) | _ => None end)
       (trace self).

(** *** should_fetch_url *)

Definition should_fetch_url (self : Fetcher) (url : string) : bool :=
  let cfg := config self in
  if bool_decide (url ∈ visited_urls self) then false
  else if negb (follow_external_links cfg)
          && negb (bool_decide (netloc url ∈ map netloc (base_urls cfg)))
  then false
  else if opt_truthy (include_patterns cfg)
          && negb (existsb (fun pattern => re_search pattern url [IGNORECASE])
                           (opt_items (include_patterns cfg)))
  then false
  else if opt_truthy (exclude_patterns cfg)
          && existsb (fun pattern => re_search pattern url [IGNORECASE])
                     (opt_items (exclude_patterns cfg))
  then false
  else true.

(** *** fetch_page *)

(** The static path: [session.get], [raise_for_status], then record
    the visit, sleep and parse.  An exception reaches the outer
    [except], which records the failure and returns [None]: one of the
    request, which leaves the visited set as it is, or one of
    [time.sleep], which comes after [visited_urls.add]. *)
Definition fetch_with_requests (self : Fetcher) (url : string)
  : Fetcher * option Tag :=
  match session_get (world self) url with
  | (w, Some html) =>
      let self := visited_add url (log (Requested url) (set_world w self)) in
      if sleep_raises (delay_seconds (config self)) then (failed_append url self, None)
      else (sleep (delay_seconds (config self)) self, Some (BeautifulSoup html))
  | (w, None) => (failed_append url (log (Requested url) (set_world w self)), None)
  end.

(** The filter first, outside the [try]; then the rendered fetch when
    it is enabled and available, which on success records the visit and
    sleeps.  An exception in that block, of the rendering or of
    [time.sleep] after [visited_urls.add], is caught by the inner
    [except], and the static path follows. *)
Definition fetch_page (self : Fetcher) (url : string) : Fetcher * option Tag :=
  if negb (should_fetch_url self url) then (self, None)
  else if use_playwright (config self) && PLAYWRIGHT_AVAILABLE then
    match playwright_content (world self) url with
    | (w, Some html) =>
        let self := visited_add url (log (Rendered url) (set_world w self)) in
        if sleep_raises (delay_seconds (config self)) then fetch_with_requests self url
        else (sleep (delay_seconds (config self)) self, Some (BeautifulSoup html))
    | (w, None) => fetch_with_requests (log (Rendered url) (set_world w self)) url
    end
  else fetch_with_requests self url.

(** *** extract_title *)

Definition title_selectors : list string :=
  [ "h1"; "title"; ".page-title"; ".doc-title"; ".api-title";
    "[role=" +:+ dquote +:+ "heading" +:+ dquote +:+ "][aria-level="
      +:+ dquote +:+ "1" +:+ dquote +:+ "]" ].

Fixpoint first_title (soup : Tag) (selectors : list string) : string :=
  match selectors with
  | [] => "Untitled"
  | selector :: rest =>
      match select_one soup selector with
      | Some element =>
          let t := PyStr.strip (get_text element) in
          if PyStr.truthy t && (PyStr.len t <? 200) then t
          else first_title soup rest
      | None => first_title soup rest
      end
  end.

Definition extract_title (soup : Tag) : string :=
  first_title soup title_selectors.

(** *** extract_main_content *)

Definition content_selectors : list string :=
  [ "main"; "[role=" +:+ dquote +:+ "main" +:+ dquote +:+ "]";
    ".main-content"; ".content"; ".documentation"; ".api-docs";
    ".doc-content"; "article"; ".markdown-body"; ".rst-content"; "body" ].

Fixpoint first_content (soup : Tag) (selectors : list string) : Tag :=
  match selectors with
  | [] => soup
  | selector :: rest =>
      match select_one soup selector with
      | Some content => content
      | None => first_content soup rest
      end
  end.

Definition extract_main_content (soup : Tag) : Tag :=
  first_content soup content_selectors.

(** *** extract_sections *)

Definition section_tags : list string :=
  [ "h1"; "h2"; "h3"; "h4"; "h5"; "h6"; "p"; "div"; "pre"; "table"; "ul"; "ol" ].

(** [element.name and element.name.startswith('h')] *)
Definition is_heading (element : Tag) : bool :=
  PyStr.truthy (tag_name element) && PyStr.startswith "h" (tag_name element).

(** [int(element.name[1])].  The elements come from [find_all] over
    [section_tags], whose names starting with [h] are [h1] to [h6]
    ([find_all_names]): the second character is a digit. *)
Definition heading_level (name : string) : nat :=
  match name with
  | String _ (String d _) => PyStr.code d - 48
  | _ => 0
  end.

(** [text and len(text) > 10] *)
Definition long_enough (text : string) : bool :=
  PyStr.truthy text && (10 <? PyStr.len text).

(** [current_section and current_section.get('content')] *)
Definition has_content (current_section : option DocSection) : bool :=
  match current_section with
  | Some s => list_truthy (sec_content s)
  | None => false
  end.

(** [if ...: sections.append(current_section)] *)
Definition append_if_content (sections : list DocSection)
    (current_section : option DocSection) : list DocSection :=
  match current_section with
  | Some s => if has_content current_section then sections ++ [s] else sections
  | None => sections
  end.

Definition content_append (text : string) (s : DocSection) : DocSection :=
  {| sec_level := sec_level s; sec_title := sec_title s;
     sec_content := sec_content s ++ [text] |}.

(** One turn of the [for element in ...] loop on the pair
    [(sections, current_section)]. *)
Definition sections_step (acc : list DocSection * option DocSection)
    (element : Tag) : list DocSection * option DocSection :=
  let '(sections, current_section) := acc in
  if is_heading element then
    (append_if_content sections current_section,
     Some {| sec_level := heading_level (tag_name element);
             sec_title := PyStr.strip (get_text element);
             sec_content := [] |})
  else
    match current_section with
    | Some s =>
        let text := PyStr.strip (get_text element) in
        if long_enough text
        then (sections, Some (content_append text s))
        else (sections, current_section)
    | None => (sections, current_section)
    end.

Definition sections_loop (elements : list Tag) : list DocSection :=
  let '(sections, current_section) := foldl sections_step ([], None) elements in
  append_if_content sections current_section.

Definition extract_sections (content : Tag) : list DocSection :=
  sections_loop (find_all content section_tags).

(** *** extract_api_endpoints *)

(** [self.endpoint_patterns] *)
Definition endpoint_patterns : list string :=
  [ "(GET|POST|PUT|DELETE|PATCH)\s+(/[^\s\n\)]+)";
    "(/api/[^\s\n\)\>]+)";
    "(https?://[^/\s]+/api/[^\s\n\)\>]+)";
    "(\{[^}]*\}[^\s]*)" ].

Definition http_methods : list string :=
  [ "GET"; "POST"; "PUT"; "DELETE"; "PATCH" ].

(** The endpoint appended for one match.  A tuple has two groups or
    more, so the source's branch for a shorter tuple is never taken. *)
Definition endpoint_of_match (m : re_match) : Endpoint :=
  match m with
  | MatchTuple g1 g2 _ =>
      PatternEndpoint
        (if bool_decide (PyStr.upper g1 ∈ http_methods) then PyStr.upper g1 else "GET")
        g2
  | MatchStr g => PatternEndpoint "GET" g
  end.

Definition pattern_endpoints (text_content : string) : list Endpoint :=
  flat_map (fun pattern =>
              map endpoint_of_match
                  (re_findall pattern text_content [IGNORECASE; MULTILINE]))
           endpoint_patterns.

Definition table_keywords : list string := [ "endpoint"; "method"; "path"; "url" ].

(** [table.find_all('tr')[1:]] *)
Definition skip_header {A} (rows : list A) : list A := drop 1 rows.

Definition row_endpoints (row : Tag) : list Endpoint :=
  let cells := map (fun td => PyStr.strip (get_text td)) (find_all row ["td"; "th"]) in
  if 2 <=? length cells then [TableEndpoint cells] else [].

Definition table_endpoints_of (table : Tag) : list Endpoint :=
  let headers := map (fun th => PyStr.lower (PyStr.strip (get_text th)))
                     (find_all table ["th"]) in
  if existsb (fun keyword => PyStr.contains keyword (PyStr.join " " headers))
             table_keywords
  then flat_map row_endpoints (skip_header (find_all table ["tr"]))
  else [].

Definition table_endpoints (content : Tag) : list Endpoint :=
  flat_map table_endpoints_of (find_all content ["table"]).

(** [f"{endpoint.get('method', 'GET')}:{endpoint.get('path', '')}"] *)
Definition endpoint_key (e : Endpoint) : string :=
  endpoint_get_method e "GET" +:+ ":" +:+ endpoint_get_path e "".

(** One turn of the "Remove duplicates" loop on [(unique_endpoints, seen)]. *)
Definition unique_step (acc : list Endpoint * gset string) (e : Endpoint)
  : list Endpoint * gset string :=
  let '(unique_endpoints, seen) := acc in
  if bool_decide (endpoint_key e ∈ seen) then acc
  else (unique_endpoints ++ [e], {[endpoint_key e]} ∪ seen).

Definition remove_duplicates (endpoints : list Endpoint) : list Endpoint :=
  fst (foldl unique_step ([], ∅) endpoints).

Definition extract_api_endpoints (self : Fetcher) (content : Tag) : list Endpoint :=
  if negb (config_extract_api_endpoints (config self)) then []
  else remove_duplicates (pattern_endpoints (get_text content) ++ table_endpoints content).

(** *** extract_code_examples *)

Definition language_hints : list string :=
  [ "python"; "javascript"; "bash"; "curl"; "json"; "xml" ].

(** The [for cls in class_attr] loop: the first class with a hint,
    lowercased; ['text'] when there is none. *)
Fixpoint language_of_classes (class_attr : list string) : string :=
  match class_attr with
  | [] => "text"
  | cls :: rest =>
      if existsb (fun lang => PyStr.contains lang (PyStr.lower cls)) language_hints
      then PyStr.lower cls
      else language_of_classes rest
  end.

Definition language_of_code (code_text : string) : string :=
  if re_search "^(curl|wget)" (PyStr.strip code_text) [MULTILINE] then "bash"
  else if re_search "^(import|def|class)" (PyStr.strip code_text) [MULTILINE] then "python"
  else if re_search "^(\{|\[)" (PyStr.strip code_text) [] then "json"
  else if re_search "<[^>]+>" code_text [] then "xml"
  else "text".

Definition code_example_of (code_block : Tag) : list CodeExample :=
  let code_text := PyStr.strip (get_text code_block) in
  if PyStr.len code_text <? 20 then []
  else
    let language := language_of_classes (get_class code_block) in
    let language :=
      if String.eqb language "text" then language_of_code code_text else language in
    [ {| ex_language := language; ex_code := code_text;
         ex_length := PyStr.len code_text |} ].

Definition extract_code_examples (self : Fetcher) (content : Tag) : list CodeExample :=
  if negb (config_extract_code_examples (config self)) then []
  else flat_map code_example_of (find_all content ["pre"; "code"]).

(** *** find_navigation_links *)

Definition nav_selectors : list string :=
  [ "nav a"; ".navigation a"; ".nav a"; ".sidebar a"; ".toc a"; ".menu a";
    "ul.nav a";
    "[role=" +:+ dquote +:+ "navigation" +:+ dquote +:+ "] a" ].

Definition link_target (self : Fetcher) (base_url : string) (link : Tag) : list string :=
  match get_href link with
  | Some href =>
      if PyStr.truthy href then
        let full_url := urljoin base_url href in
        if should_fetch_url self full_url then [full_url] else []
      else []
  | None => []
  end.

Definition find_navigation_links (self : Fetcher) (soup : Tag) (base_url : string)
  : list string :=
  list_set (flat_map (fun selector => flat_map (link_target self base_url)
                                               (select soup selector))
                     nav_selectors).

(** *** extract_page_content *)

(** The empty dict is [None].  A parsed document is true whatever it
    holds, so [not soup] is the test for [None]. *)
Definition extract_page_content (self : Fetcher) (soup : option Tag) (u : string)
  : option PageContent :=
  match soup with
  | None => None
  | Some soup =>
      let main_content := extract_main_content soup in
      Some {| url := u;
              title := extract_title soup;
              sections := extract_sections main_content;
              api_endpoints := extract_api_endpoints self main_content;
              code_examples := extract_code_examples self main_content;
              navigation_links := find_navigation_links self soup u |}
  end.

(** *** convert_to_markdown *)

Definition section_lines (section : DocSection) : list string :=
  let heading_level := Nat.min (sec_level section + 1) 6 in
  let heading_marker := PyStr.repeat_char "#" heading_level in
  [ heading_marker +:+ " " +:+ sec_title section; "" ]
  ++ flat_map (fun content_item => [content_item; ""]) (take 3 (sec_content section)).

Definition endpoint_line (endpoint : Endpoint) : string :=
  match endpoint with
  | TableEndpoint data => "- **Table Data:** " +:+ PyStr.join " | " data
  | PatternEndpoint method path => "- **" +:+ method +:+ "** `" +:+ path +:+ "`"
  end.

(** The body of the [enumerate] loop; [i] counts from 0. *)
Definition example_lines (i : nat) (example : CodeExample) : list string :=
  let lang := ex_language example in
  let code := ex_code example in
  let code :=
    if 1000 <? PyStr.len code
    then PyStr.take 1000 code +:+ newline +:+ "... (truncated)"
    else code in
  [ "### Example " +:+ PyStr.of_nat (i + 1) +:+ " (" +:+ lang +:+ ")"; "";
    "```" +:+ lang; code; "```"; "" ].

Definition convert_to_markdown (content : PageContent) (api_name : option string)
  : string :=
  let title :=
    match api_name with
    | Some name => if PyStr.truthy name then name +:+ " - " +:+ title content
                   else title content
    | None => title content
    end in
  let md_lines :=
    [ "# " +:+ title; ""; "**Source:** " +:+ url content; "" ]
    ++ flat_map section_lines (sections content)
    ++ (if list_truthy (api_endpoints content)
        then [ "## API Endpoints"; "" ]
             ++ map endpoint_line (take 10 (api_endpoints content)) ++ [ "" ]
        else [])
    ++ (if list_truthy (code_examples content)
        then [ "## Code Examples"; "" ]
             ++ concat (imap example_lines (take 5 (code_examples content)))
        else []) in
  PyStr.join newline md_lines.

(** *** crawl_documentation *)

(** The character class [[^\w\s-]] of the first [re.sub] keeps word
    characters, whitespace and the hyphen. *)
Definition is_hyphen (c : ascii) : bool := PyStr.code c =? 45.

Definition keeps (c : ascii) : bool :=
  PyStr.is_word c || PyStr.is_space c || is_hyphen c.

(** [re.sub(r'[^\w\s-]', '', title)] *)
Fixpoint drop_unsafe (s : string) : string :=
  match s with
  | EmptyString => EmptyString
  | String c r => if keeps c then String c (drop_unsafe r) else drop_unsafe r
  end.

Definition is_separator (c : ascii) : bool := is_hyphen c || PyStr.is_space c.

(** [re.sub(r'[-\s]+', '-', s)]: every maximal run of hyphens and
    whitespace becomes one hyphen.  [in_run] says that the previous
    character belonged to a run. *)
Fixpoint collapse_from (in_run : bool) (s : string) : string :=
  match s with
  | EmptyString => EmptyString
  | String c r =>
      if is_separator c then
        if in_run then collapse_from true r else String "-" (collapse_from true r)
      else String c (collapse_from false r)
  end.

Definition collapse_separators (s : string) : string := collapse_from false s.

(** The two assignments to [safe_title]. *)
Definition safe_title (title : string) : string :=
  collapse_separators (PyStr.strip (drop_unsafe title)).

(** [parsed_url.netloc.replace('www.', '').replace('.', '_')] *)
Definition api_name_of (base_url : string) : string :=
  PyStr.replace "." "_" (PyStr.replace "www." "" (netloc base_url)).

(** [f"{api_name}_{processed_count:02d}_{safe_title}.md"] *)
Definition filename_of (api_name : string) (processed_count : nat) (title : string)
  : string :=
  api_name +:+ "_" +:+ PyStr.of_nat_02d processed_count +:+ "_"
  +:+ safe_title title +:+ ".md".

(** The local variables of the [while] loop, with [self]. *)
Record Crawl := {
  pages_to_process : list string;
  processed_count : nat;
  created_files : gmap string string;
  fetcher : Fetcher;
}.

(** The limit written in the loop condition. *)
Definition max_pages_per_site : nat := 20.

(** One turn of [for link in ...[:5]] on [pages_to_process]. *)
Definition enqueue (self : Fetcher) (queue : list string) (link : string) : list string :=
  if negb (bool_decide (link ∈ queue)) && negb (bool_decide (link ∈ visited_urls self))
  then queue ++ [link]
  else queue.

(** The body of the [while] loop after [url = pages_to_process.pop(0)],
    which left [rest] in the queue. *)
Definition crawl_page (api_name : string) (u : string) (rest : list string)
    (c : Crawl) : Crawl :=
  let skip self :=
    {| pages_to_process := rest; processed_count := processed_count c;
       created_files := created_files c; fetcher := self |} in
  if bool_decide (u ∈ visited_urls (fetcher c)) then skip (fetcher c)
  else
    match fetch_page (fetcher c) u with
    | (self, None) => skip self
    | (self, Some soup) =>
        match extract_page_content self (Some soup) u with
        | None => skip self
        | Some page_content =>
            let self := successful_append page_content self in
            let filename :=
              filename_of api_name (processed_count c) (title page_content) in
            let markdown_content := convert_to_markdown page_content (Some api_name) in
            let file_path := path_str (output_dir (config self)) filename in
            let self := write_file file_path markdown_content self in
            let queue :=
              if (Z.of_nat (processed_count c) <? max_depth (config self))%Z
              then foldl (enqueue self) rest (take 5 (navigation_links page_content))
              else rest in
            {| pages_to_process := queue;
               processed_count := processed_count c + 1;
               created_files := <[filename := file_path]> (created_files c);
               fetcher := self |}
        end
    end.

(** [while pages_to_process and processed_count < 20].  [None] when
    the fuel runs out before the loop ends. *)
Fixpoint crawl_loop (fuel : nat) (api_name : string) (c : Crawl) : option Crawl :=
  match pages_to_process c with
  | [] => Some c
  | u :: rest =>
      if processed_count c <? max_pages_per_site then
        match fuel with
        | O => None
        | S fuel' => crawl_loop fuel' api_name (crawl_page api_name u rest c)
        end
      else Some c
  end.

(** Turns the loop can still take: a page that is processed adds at
    most five links and brings the counter one closer to the limit. *)
Definition crawl_fuel (c : Crawl) : nat :=
  length (pages_to_process c) + 6 * (max_pages_per_site - processed_count c).

(** The body of [for base_url in self.config.base_urls]. *)
Definition crawl_site (acc : gmap string string * Fetcher) (base_url : string)
  : option (gmap string string * Fetcher) :=
  let start :=
    {| pages_to_process := [base_url]; processed_count := 0;
       created_files := acc.1; fetcher := acc.2 |} in
  match crawl_loop (crawl_fuel start) (api_name_of base_url) start with
  | Some c => Some (created_files c, fetcher c)
  | None => None
  end.

Fixpoint crawl_sites (acc : gmap string string * Fetcher) (urls : list string)
  : option (gmap string string * Fetcher) :=
  match urls with
  | [] => Some acc
  | base_url :: more =>
      match crawl_site acc base_url with
      | Some acc' => crawl_sites acc' more
      | None => None
      end
  end.

(** *** create_index_file *)

(** [sorted(created_files.keys())]: ascending in the order of [str]. *)
Definition str_le (a b : string) : Prop := String.leb a b = true.

#[global] Instance str_le_dec (a b : string) : Decision (str_le a b).
Proof. unfold str_le. apply _. Defined.

Definition sorted_keys (created_files : gmap string string) : list string :=
  merge_sort str_le (map fst (map_to_list created_files)).

Definition index_entry (filename : string) : string :=
  let title := PyStr.title (PyStr.replace "_" " " (PyStr.replace ".md" "" filename)) in
  "- [" +:+ title +:+ "](./" +:+ filename +:+ ")".

(** The list [index_content], in three parts: the lines above the
    file entries, the entries, the lines below.  [now] is the text
    [time.strftime] gave. *)
Definition index_header (now : string) (self : Fetcher) : list string :=
  [ "# API Documentation Index"; ""; "Generated on " +:+ now; ""; "**Source URLs:**" ]
  ++ map (fun u => "- " +:+ u) (base_urls (config self))
  ++ [ ""; "## Documentation Files"; "" ].

Definition index_footer (self : Fetcher) (created_files : gmap string string)
  : list string :=
  [ ""; "## Summary"; "";
    "- Total files: " +:+ PyStr.of_nat (size created_files);
    "- Successfully processed: " +:+ PyStr.of_nat (length (successful_pages self));
    "- Failed URLs: " +:+ PyStr.of_nat (length (failed_urls self));
    "" ]
  ++ (if list_truthy (failed_urls self)
      then [ "### Failed URLs:"; "" ] ++ map (fun u => "- " +:+ u) (failed_urls self)
      else []).

Definition index_content (now : string) (self : Fetcher)
    (created_files : gmap string string) : list string :=
  index_header now self
  ++ map index_entry (sorted_keys created_files)
  ++ index_footer self created_files.

Definition create_index_file (self : Fetcher) (created_files : gmap string string)
  : Fetcher :=
  write_file (path_str (output_dir (config self)) "README.md")
             (PyStr.join newline (index_content (strftime (world self)) self created_files))
             self.

Definition crawl_documentation (self : Fetcher)
  : option (gmap string string * Fetcher) :=
  match crawl_sites (∅, self) (base_urls (config self)) with
  | Some (created_files, self) =>
      Some (created_files,
            if create_index (config self) then create_index_file self created_files
            else self)
  | None => None
  end.

End APIDocsFetcher.

Arguments Fetcher : clear implicits.
Arguments Crawl : clear implicits.

(** ** Readings of the specification

    The definitions the statements below are written with: what the
    specification says the scan for sections and a turn of the crawl loop
    do, and the vocabulary of the properties. *)

Section Readings.

Context {Html Tag World : Type}.
Context {lib_url : Urllib} {lib_re : Re} {lib_bs4 : BS4 Html Tag} {lib_env : Env World Html}.

(** The specification's reading of the scan.  The elements up to the
    first heading, then every heading with the elements that follow it
    up to the next heading. *)
Fixpoint group_blocks (elements : list Tag) : list Tag * list (Tag * list Tag) :=
  match elements with
  | [] => ([], [])
  | e :: rest =>
      let '(body, groups) := group_blocks rest in
      if is_heading e then ([], (e, body) :: groups) else (e :: body, groups)
  end.

(** The content blocks among [body]: the texts longer than 10 characters. *)
Definition block_texts (body : list Tag) : list string :=
  List.filter long_enough (map (fun e => PyStr.strip (get_text e)) body).

Definition section_of (group : Tag * list Tag) : DocSection :=
  {| sec_level := heading_level (tag_name group.1);
     sec_title := PyStr.strip (get_text group.1);
     sec_content := block_texts group.2 |}.

(** One section per heading, in order; a heading without a content block
    gives none; the elements before the first heading give none. *)
Definition sections_by_heading (elements : list Tag) : list DocSection :=
  List.filter (fun s => list_truthy (sec_content s))
              (map section_of (group_blocks elements).2).

(** The open section after the elements [body] have been scanned. *)
Definition with_body (current_section : option DocSection) (body : list Tag)
  : option DocSection :=
  match current_section with
  | Some s =>
      Some {| sec_level := sec_level s; sec_title := sec_title s;
              sec_content := sec_content s ++ block_texts body |}
  | None => None
  end.

(** An attempt to fetch [u], rendered or static. *)
Definition is_attempt (u : string) (e : Event) : Prop :=
  e = Rendered u \/ e = Requested u.

(** [n] calls of [fetch_page] in a row, one per url: the final [self]
    and the results. *)
Fixpoint fetch_pages (self : Fetcher World) (urls : list string)
  : Fetcher World * list (option Tag) :=
  match urls with
  | [] => (self, [])
  | u :: more =>
      let '(self', r) := fetch_page self u in
      let '(self'', rs) := fetch_pages self' more in
      (self'', r :: rs)
  end.

(** The calls that returned a document. *)
Definition successes (results : list (option Tag)) : nat :=
  length (List.filter (fun r => match r with Some _ => true | None => false end) results).

(** The time slept so far: the sum of the log. *)
Definition slept (self : Fetcher World) : Q :=
  fold_right Qplus 0%Q (sleep_log self).

(** The specification's reading of one turn of the loop.  A turn is
    taken only from a state with a task left and a counter below the
    limit; it removes the first task.  Either it counts no page and adds
    no task, or it counts one page, records it as successful, and adds
    some of the first five navigation links of that page, none at all
    unless the counter was below [max_depth]. *)
Inductive crawl_turn : Crawl World -> Crawl World -> Prop :=
| turn_skip (c c' : Crawl World) (u : string) (rest : list string) :
    pages_to_process c = u :: rest ->
    processed_count c < max_pages_per_site ->
    pages_to_process c' = rest ->
    processed_count c' = processed_count c ->
    successful_pages (fetcher c') = successful_pages (fetcher c) ->
    crawl_turn c c'
| turn_page (c c' : Crawl World) (u : string) (rest new : list string)
    (page : PageContent) :
    pages_to_process c = u :: rest ->
    processed_count c < max_pages_per_site ->
    url page = u ->
    successful_pages (fetcher c') = successful_pages (fetcher c) ++ [page] ->
    new `sublist_of` take 5 (navigation_links page) ->
    (new <> [] -> (Z.of_nat (processed_count c) < max_depth (config (fetcher c)))%Z) ->
    pages_to_process c' = rest ++ new ->
    processed_count c' = processed_count c + 1 ->
    crawl_turn c c'.

(** The loop is over: no task is left, or the counter is at the limit. *)
Definition crawl_done (c : Crawl World) : Prop :=
  pages_to_process c = [] \/ max_pages_per_site <= processed_count c.

(** The state [crawl_page] returns when it skips the url. *)
Definition skipped (rest : list string) (c : Crawl World) (self : Fetcher World)
  : Crawl World :=
  {| pages_to_process := rest; processed_count := processed_count c;
     created_files := created_files c; fetcher := self |}.

(** The state [crawl_page] returns when it processes the page. *)
Definition processed (api_name : string) (rest : list string) (c : Crawl World)
    (self : Fetcher World) (page : PageContent) : Crawl World :=
  let filename := filename_of api_name (processed_count c) (title page) in
  let file_path := path_str (output_dir (config self)) filename in
  let self' :=
    write_file file_path (convert_to_markdown page (Some api_name))
               (successful_append page self) in
  {| pages_to_process :=
       if (Z.of_nat (processed_count c) <? max_depth (config self))%Z
       then foldl (enqueue self') rest (take 5 (navigation_links page))
       else rest;
     processed_count := processed_count c + 1;
     created_files := <[filename := file_path]> (created_files c);
     fetcher := self' |}.

(** The page [extract_page_content] builds from a document. *)
Definition page_of (self : Fetcher World) (soup : Tag) (u : string) : PageContent :=
  let main_content := extract_main_content soup in
  {| url := u;
     title := extract_title soup;
     sections := extract_sections main_content;
     api_endpoints := extract_api_endpoints self main_content;
     code_examples := extract_code_examples self main_content;
     navigation_links := find_navigation_links self soup u |}.

(** The fetch of [u] fails: the url passes the filter, so a fetch is
    attempted, and [fetch_page] returns no document, because the static
    fetch raised (after the rendered one, where that is enabled) or
    [time.sleep] did. *)
Definition fetch_fails (self : Fetcher World) (u : string) : Prop :=
  should_fetch_url self u = true /\ (fetch_page self u).2 = None.

(** A fetch of [u] succeeds in the call [fetch_page self u]: the url
    passes the filter, and the rendered fetch, where it is enabled and
    available, or else the static one returns a page source. *)
Definition fetch_succeeds (self : Fetcher World) (u : string) : bool :=
  should_fetch_url self u
  && if use_playwright (config self) && PLAYWRIGHT_AVAILABLE then
       match playwright_content (world self) u with
       | (_, Some _) => true
       | (w, None) => bool_decide (is_Some (session_get w u).2)
       end
     else bool_decide (is_Some (session_get (world self) u).2).

Fixpoint all_chars (p : ascii -> bool) (s : string) : bool :=
  match s with
  | EmptyString => true
  | String c r => p c && all_chars p r
  end.

(** A slug: word characters and hyphens, no two hyphens in a row.
    [after_hyphen] says that the character before [s] was a hyphen. *)
Fixpoint is_slug_from (after_hyphen : bool) (s : string) : bool :=
  match s with
  | EmptyString => true
  | String c r =>
      if is_hyphen c then negb after_hyphen && is_slug_from true r
      else PyStr.is_word c && is_slug_from false r
  end.

Definition is_slug (s : string) : bool := is_slug_from false s.

(** No upper-case letter of the alphabet. *)
Definition is_lowercase (s : string) : bool :=
  all_chars (fun c => negb (PyStr.is_ascii_upper c)) s.

(** The files written for the pages processed for one base url, in the
    order of processing: the page at position [n], counting from zero,
    goes to the file named after the site, [n] and its title. *)
Definition site_writes (cfg : FetcherConfig) (base_url : string)
    (pages : list PageContent) : list (string * string) :=
  imap (fun n page =>
          (path_str (output_dir cfg) (filename_of (api_name_of base_url) n (title page)),
           convert_to_markdown page (Some (api_name_of base_url))))
       pages.

(** The pages of a run by base url: [groups] holds, for each base url
    in turn, the pages that the loop for that base url, [crawl_site],
    appends to the successful pages; [acc] is the state before the first
    base url, [acc'] the state after the last. *)
Inductive pages_by_site :
    gmap string string * Fetcher World -> list string -> list (list PageContent)
    -> gmap string string * Fetcher World -> Prop :=
| by_site_nil (acc : gmap string string * Fetcher World) :
    pages_by_site acc [] [] acc
| by_site_cons (acc acc1 acc' : gmap string string * Fetcher World)
    (base_url : string) (urls : list string)
    (pages : list PageContent) (groups : list (list PageContent)) :
    crawl_site acc base_url = Some acc1 ->
    successful_pages acc1.2 = successful_pages acc.2 ++ pages ->
    pages_by_site acc1 urls groups acc' ->
    pages_by_site acc (base_url :: urls) (pages :: groups) acc'.

(** What the loop for the base url [base_url] keeps true, given the
    created files [files0] and the fetcher [self0] it starts from: the
    counter is the number of the pages processed for the base url so
    far, and the page counted as number [n] is the one written to the
    file named after [n]. *)
Definition site_pages (cfg : FetcherConfig) (base_url : string)
    (files0 : gmap string string) (self0 : Fetcher World) (c : Crawl World) : Prop :=
  exists pages,
    config (fetcher c) = cfg
    /\ processed_count c = length pages
    /\ length pages <= max_pages_per_site
    /\ successful_pages (fetcher c) = successful_pages self0 ++ pages
    /\ write_log (fetcher c) = write_log self0 ++ site_writes cfg base_url pages
    /\ (forall f, f ∈ dom (created_files c)
                  <-> f ∈ dom files0
                      \/ exists n page,
                          pages !! n = Some page
                          /\ f = filename_of (api_name_of base_url) n (title page))
    /\ (forall f path, created_files c !! f = Some path ->
                       path = path_str (output_dir cfg) f).

(** The text [create_index_file] writes. *)
Definition index_text (self : Fetcher World) (created_files : gmap string string)
  : string :=
  PyStr.join newline (index_content (strftime (world self)) self created_files).

(** The pair the specification names as the key of an endpoint. *)
Definition method_path (e : Endpoint) : string * string :=
  (endpoint_get_method e "GET", endpoint_get_path e "").

(** An endpoint made from a pattern match, with one of the five methods. *)
Definition is_pattern (e : Endpoint) : Prop :=
  match e with
  | PatternEndpoint m _ => m ∈ http_methods
  | TableEndpoint _ => False
  end.

(** The normal form the specification compares urls by: the url
    without its fragment and its query string. *)
Definition normalize_url (u : string) : string :=
  PyStr.before "?" (PyStr.before "#" u).

End Readings.

(** ** The vocabulary of a run

    What a run asked of the network, what the configuration allows, and
    what of a page reaches its file. *)

Section Runs.

Context {Html Tag World : Type}.
Context {lib_url : Urllib} {lib_re : Re} {lib_bs4 : BS4 Html Tag} {lib_env : Env World Html}.

(** Among some events, in order: the urls of the static fetches, the
    urls of the rendered fetches, the sleeps and the files written. *)
Definition requests_of (events : list Event) : list string :=
  omap (fun e => match e with Requested u => Some u | _ => None end) events.

Definition renders_of (events : list Event) : list string :=
  omap (fun e => match e with Rendered u => Some u | _ => None end) events.

Definition sleeps_of (events : list Event) : list Q :=
  omap (fun e => match e with Slept d => Some d | _ => None end) events.

Definition writes_of (events : list Event) : list (string * string) :=
  omap (fun e => match e with Wrote path text => Some (path, text) | _ => None end) events.


(** The urls of the static fetches attempted so far, oldest first. *)
Definition requested_urls (self : Fetcher World) : list string :=
  requests_of (trace self).

(** The urls of the rendered fetches attempted so far, oldest first. *)
Definition rendered_urls (self : Fetcher World) : list string :=
  renders_of (trace self).

(** What the three tests of [should_fetch_url] on the configuration ask
    of a url: its host is that of a base url unless external links are
    followed, it matches an include pattern when there are any, and it
    matches no exclude pattern. *)
Definition allowed (cfg : FetcherConfig) (u : string) : Prop :=
  (follow_external_links cfg = false -> netloc u ∈ map netloc (base_urls cfg))
  /\ (opt_truthy (include_patterns cfg) = true ->
      exists pattern, pattern ∈ opt_items (include_patterns cfg)
                      /\ re_search pattern u [IGNORECASE] = true)
  /\ (forall pattern, pattern ∈ opt_items (exclude_patterns cfg) ->
        re_search pattern u [IGNORECASE] = false).

(** An event that is a fetch is the fetch of an allowed url. *)
Definition fetch_allowed (cfg : FetcherConfig) (e : Event) : Prop :=
  match e with
  | Rendered u | Requested u => allowed cfg u
  | _ => True
  end.

(** The pages of one base url whose links can reach the queue: those
    processed while the counter is below [max_depth], and below the page
    limit. *)
Definition depth_budget (cfg : FetcherConfig) : nat :=
  Z.to_nat (Z.min (Z.of_nat max_pages_per_site) (Z.max 0 (max_depth cfg))).

(** The fetches one base url can cause: its own, and five links for
    each page within the depth budget. *)
Definition site_budget (cfg : FetcherConfig) : nat := 1 + 5 * depth_budget cfg.

(** What [convert_to_markdown] reads of a section and of a page: three
    content blocks of each section, ten endpoints, five code examples,
    of which neither the recorded length nor the navigation links. *)
Definition shown_section (s : DocSection) : DocSection :=
  {| sec_level := sec_level s; sec_title := sec_title s;
     sec_content := take 3 (sec_content s) |}.

Definition shown_example (example : CodeExample) : CodeExample :=
  {| ex_language := ex_language example; ex_code := ex_code example; ex_length := 0 |}.

Definition shown (page : PageContent) : PageContent :=
  {| url := url page; title := title page;
     sections := map shown_section (sections page);
     api_endpoints := take 10 (api_endpoints page);
     code_examples := map shown_example (take 5 (code_examples page));
     navigation_links := [] |}.

(** A url that the crawl can come to: a base url, or one of the first
    five navigation links of a successful page. *)
Definition linked (bases : list string) (pages : list PageContent) (u : string) : Prop :=
  u ∈ bases \/ exists page, page ∈ pages /\ u ∈ take 5 (navigation_links page).

(** An event that is a fetch is the fetch of such a url. *)
Definition fetch_linked (bases : list string) (pages : list PageContent) (e : Event)
  : Prop :=
  match e with
  | Rendered u | Requested u => linked bases pages u
  | _ => True
  end.

(** The state after a turn that counts no page, and after one that
    does, in terms of the state before it.  A turn that counts no page
    leaves the visited set as it is, unless [time.sleep] raised after a
    fetch that succeeded. *)
Inductive turn_effect (api_name u : string) (rest : list string)
    (c c' : Crawl World) : Prop :=
| effect_skip (attempts : list Event) :
    attempts = []
    \/ (should_fetch_url (fetcher c) u = true
        /\ (attempts = [Requested u]
            \/ (use_playwright (config (fetcher c)) = true
                /\ attempts = [Rendered u; Requested u]))) ->
    pages_to_process c' = rest ->
    processed_count c' = processed_count c ->
    created_files c' = created_files c ->
    config (fetcher c') = config (fetcher c) ->
    visited_urls (fetcher c') = visited_urls (fetcher c)
    \/ (attempts <> []
        /\ sleep_raises (delay_seconds (config (fetcher c))) = true
        /\ visited_urls (fetcher c') = {[u]} ∪ visited_urls (fetcher c)) ->
    successful_pages (fetcher c') = successful_pages (fetcher c) ->
    failed_urls (fetcher c')
    = failed_urls (fetcher c) ++ match attempts with [] => [] | _ => [u] end ->
    trace (fetcher c') = trace (fetcher c) ++ attempts ->
    turn_effect api_name u rest c c'
| effect_page (attempts : list Event) (page : PageContent) (new : list string) :
    should_fetch_url (fetcher c) u = true ->
    attempts = [Requested u]
    \/ (use_playwright (config (fetcher c)) = true
        /\ (attempts = [Rendered u] \/ attempts = [Rendered u; Requested u])) ->
    url page = u ->
    new `sublist_of` take 5 (navigation_links page) ->
    (new <> [] -> (Z.of_nat (processed_count c) < max_depth (config (fetcher c)))%Z) ->
    pages_to_process c' = rest ++ new ->
    processed_count c' = processed_count c + 1 ->
    created_files c'
    = <[filename_of api_name (processed_count c) (title page)
        := path_str (output_dir (config (fetcher c)))
                    (filename_of api_name (processed_count c) (title page))]>
        (created_files c) ->
    config (fetcher c') = config (fetcher c) ->
    visited_urls (fetcher c') = {[u]} ∪ visited_urls (fetcher c) ->
    successful_pages (fetcher c') = successful_pages (fetcher c) ++ [page] ->
    failed_urls (fetcher c') = failed_urls (fetcher c) ->
    trace (fetcher c')
    = trace (fetcher c) ++ attempts
      ++ [ Slept (delay_seconds (config (fetcher c)));
           Wrote (path_str (output_dir (config (fetcher c)))
                           (filename_of api_name (processed_count c) (title page)))
                 (convert_to_markdown page (Some api_name)) ] ->
    turn_effect api_name u rest c c'.

(** The languages [extract_code_examples] names from the text of a
    block. *)
Definition detected_languages : list string :=
  [ "bash"; "python"; "json"; "xml"; "text" ].

(** The shape of an endpoint [extract_api_endpoints] returns: a method
    among the five, or the cells of a table row, two at least. *)
Definition endpoint_shape (e : Endpoint) : Prop :=
  match e with
  | PatternEndpoint method _ => method ∈ http_methods
  | TableEndpoint data => 2 <= length data
  end.

(** The title one selector gives: the stripped text of the element it
    selects, when that is not empty and shorter than 200 characters. *)
Definition title_candidate (soup : Tag) (selector : string) : option string :=
  match select_one soup selector with
  | Some element =>
      let t := PyStr.strip (get_text element) in
      if PyStr.truthy t && (PyStr.len t <? 200) then Some t else None
  | None => None
  end.

End Runs.

(** ** The command line of the fetcher: main *)

(** The namespace [parser.parse_args()] returns.  [nargs='+'] makes
    [urls] a list; an option that is not given is [None] for [--config],
    [--include] and [--exclude], and false for the three flags. *)
Record Namespace := {
  arg_urls : list string;
  arg_output : string;
  arg_depth : Z;
  arg_delay : Q;
  arg_config : option string;
  arg_include : option (list string);
  arg_exclude : option (list string);
  arg_no_examples : bool;
  arg_no_endpoints : bool;
  arg_use_playwright : bool;
}.

(** The configuration [main] makes from the arguments when no
    configuration file is given; the fields it does not pass keep the
    defaults of [FetcherConfig]. *)
Definition cli_config (args : Namespace) : FetcherConfig :=
  {| base_urls := arg_urls args;
     output_dir := arg_output args;
     max_depth := arg_depth args;
     delay_seconds := arg_delay args;
     include_patterns := arg_include args;
     exclude_patterns := arg_exclude args;
     custom_headers := None;
     follow_external_links := false;
     config_extract_code_examples := negb (arg_no_examples args);
     config_extract_api_endpoints := negb (arg_no_endpoints args);
     create_index := true;
     use_playwright := arg_use_playwright args |}.

Section Main.

Context {Html Tag World : Type}.
Context {lib_url : Urllib} {lib_re : Re} {lib_bs4 : BS4 Html Tag} {lib_env : Env World Html}.

(** [load_config_from_file], which reads a YAML or JSON file, is taken
    as given. *)
Variable load_config_from_file : World -> string -> FetcherConfig.

(** [main] from the parsed arguments on: the configuration, a new
    fetcher, the crawl.  What is printed is left out. *)
Definition main (args : Namespace) (w : World)
  : option (gmap string string * Fetcher World) :=
  let config :=
    match arg_config args with
    | Some config_file =>
        if PyStr.truthy config_file then load_config_from_file w config_file
        else cli_config args
    | None => cli_config args
    end in
  crawl_documentation (init config w).

End Main.

(** ** The link extractor: save_links
    (doc-fetcher/scripts/extract_all_links.py) *)

Module ExtractAllLinks.

Section SaveLinks.

Context {lib_url : Urllib}.

(** The text of a file after a sequence of [f.write] calls. *)
Definition file_text (parts : list string) : string :=
  fold_right String.append EmptyString parts.

(** The text written to [extracted_links.txt]. *)
Definition links_file (links : list string) (base_url : string) : string :=
  file_text
    ([ "# All documentation links from " +:+ base_url +:+ newline;
       "# Total links found: " +:+ PyStr.of_nat (length links) +:+ newline +:+ newline ]
     ++ map (fun link => link +:+ newline) links).

Definition chunk_size : nat := 10.

(** [[links[i:i + chunk_size] for i in range(0, len(links), chunk_size)]] *)
Definition chunks (links : list string) : list (list string) :=
  map (fun i => slice i (i + chunk_size) links) (range 0 (length links) chunk_size).

(** The command of batch [i]. *)
Definition fetch_command (domain : string) (i : nat) (chunk : list string) : string :=
  "python api_docs_fetcher.py " +:+ PyStr.join " " chunk
  +:+ " --output " +:+ domain +:+ "_docs/batch_" +:+ PyStr.of_nat_02d i
  +:+ " --depth 3 --delay 1.0".

(** The text written to [fetch_commands.txt]; [enumerate(chunks, 1)]
    counts the batches from 1. *)
Definition commands_file (links : list string) (base_url : string) : string :=
  let domain := PyStr.replace "." "_" (netloc base_url) in
  file_text
    ([ "# Fetch commands for " +:+ base_url +:+ newline;
       "# Total commands: " +:+ PyStr.of_nat (length (chunks links))
         +:+ newline +:+ newline ]
     ++ concat (imap (fun k chunk =>
                        [ "# Batch " +:+ PyStr.of_nat (k + 1) +:+ newline;
                          fetch_command domain (k + 1) chunk +:+ newline +:+ newline ])
                     (chunks links))).

End SaveLinks.

End ExtractAllLinks.

(** ** The batch fetcher
    (doc-fetcher/scripts/fetch_all_extracted_links.py) *)

(** urllib.parse, the two components [run_doc_fetcher] reads. *)
Class UrlParts := {
  (** [urlparse(url).path] *)
  url_path : string -> string;
  (** [urlparse(url).query] *)
  url_query : string -> string;
}.

Module FetchAllExtractedLinks.

(** [read_extracted_links]: [file] is the text of the file, [None] when
    there is no such file.  Every line is stripped; empty lines and lines
    that start with [#] are skipped. *)
Definition read_extracted_links (file : option string) : list string :=
  match file with
  | None => []
  | Some text =>
      flat_map (fun line =>
                  let line := PyStr.strip line in
                  if PyStr.truthy line && negb (PyStr.startswith "#" line)
                  then [line] else [])
               (PyStr.file_lines (PyStr.universal_newlines text))
  end.

(** A text without a line break, and a line that [read_extracted_links]
    keeps as it is: not empty, stripped, not a comment. *)
Definition one_line (s : string) : bool :=
  all_chars (fun c => negb (PyStr.code c =? 10) && negb (PyStr.code c =? 13)) s.

Definition link_line (s : string) : bool :=
  PyStr.truthy s && String.eqb (PyStr.strip s) s
  && negb (PyStr.startswith "#" s) && one_line s.

(** The characters [run_doc_fetcher] replaces in the name of an output
    directory. *)
Definition unsafe (c : ascii) : bool :=
  existsb (Ascii.eqb c) [ "/"; "?"; "&"; "="; "-"; "." ]%char.

Section RunDocFetcher.

Context {lib_parts : UrlParts}.

(** [hash(url)]: an integer that depends on the interpreter run. *)
Variable hash : string -> Z.

Definition is_slash (c : ascii) : bool := PyStr.code c =? 47.

(** The name [run_doc_fetcher] makes from a url for its output
    directory. *)
Definition url_part (url : string) : string :=
  let url_part :=
    url_path url
    +:+ (if PyStr.truthy (url_query url) then "_" +:+ url_query url else "") in
  let url_part := PyStr.strip_by is_slash url_part in
  let url_part :=
    PyStr.replace ".htm" "" (PyStr.replace ".html" "" (PyStr.replace "/" "_" url_part)) in
  let url_part :=
    PyStr.replace "=" "_" (PyStr.replace "&" "_" (PyStr.replace "?" "_" url_part)) in
  let url_part := PyStr.replace "." "_" (PyStr.replace "-" "_" url_part) in
  let url_part :=
    if 50 <? PyStr.len url_part then PyStr.take 50 url_part else url_part in
  if negb (PyStr.truthy url_part) || String.eqb url_part "_"
  then "page_" +:+ PyStr.of_nat (Z.to_nat (hash url mod 100000))
  else url_part.

(** [f"{output_base}/{url_part}"] *)
Definition output_dir_of (output_base url : string) : string :=
  output_base +:+ "/" +:+ url_part url.

End RunDocFetcher.

End FetchAllExtractedLinks.

(** ** The front end (doc-fetcher/doc-fetcher.py) *)

Module DocFetcher.

Section Main.

(** [str(scripts_dir / name)]: the path of a script. *)
Variable script_path : string -> string.

(** [arg if arg != "--playwright" else "--use-playwright"] *)
Definition translate (arg : string) : string :=
  if negb (String.eqb arg "--playwright") then arg else "--use-playwright".

(** [args[1:1] = ['-u']] *)
Definition unbuffered (args : list string) : list string :=
  take 1 args ++ ["-u"] ++ drop 1 args.

(** The command [main] runs for the arguments [argv], [sys.argv];
    [None] when it prints the usage or an error and exits with status
    1. *)
Definition command (argv : list string) : option (list string) :=
  if length argv <? 2 then None
  else
    match argv !! 1 with
    | Some cmd =>
        if String.eqb cmd "extract" then
          if length argv <? 3 then None
          else Some (unbuffered ([ "python"; script_path "extract_all_links.py" ]
                                 ++ map translate (drop 2 argv)))
        else if String.eqb cmd "fetch" then
          Some (unbuffered ([ "python"; script_path "fetch_all_extracted_links.py" ]
                            ++ map translate (drop 2 argv)))
        else None
    | None => None
    end.

End Main.

End DocFetcher.

(** ** Executable implementations of the interfaces

    Small models of the libraries, enough to run the fetcher on concrete
    sites.  Every result proved about the fetcher above the examples
    holds for any implementation; these serve the examples only. *)

Module Model.

(** *** urllib.parse *)

Definition is_alpha (c : ascii) : bool :=
  PyStr.is_ascii_upper c || PyStr.is_ascii_lower c.

Definition is_scheme_char (c : ascii) : bool :=
  is_alpha c || PyStr.is_ascii_digit c
  || (PyStr.code c =? 43) || (PyStr.code c =? 45) || (PyStr.code c =? 46).

(** What follows the first colon, when only scheme characters precede it. *)
Fixpoint after_scheme (s : string) : option string :=
  match s with
  | EmptyString => None
  | String c r =>
      if PyStr.code c =? 58 then Some r
      else if is_scheme_char c then after_scheme r
      else None
  end.

(** The url split into its scheme, if it has one, and the rest. *)
Definition split_scheme (u : string) : option string * string :=
  match u with
  | String c _ =>
      if is_alpha c then
        match after_scheme u with
        | Some r => (Some (PyStr.take (PyStr.len u - PyStr.len r - 1) u), r)
        | None => (None, u)
        end
      else (None, u)
  | EmptyString => (None, u)
  end.

Definition ends_netloc (c : ascii) : bool :=
  (PyStr.code c =? 47) || (PyStr.code c =? 63) || (PyStr.code c =? 35).

Fixpoint take_until (stop : ascii -> bool) (s : string) : string :=
  match s with
  | EmptyString => EmptyString
  | String c r => if stop c then EmptyString else String c (take_until stop r)
  end.

Fixpoint drop_str (n : nat) (s : string) : string :=
  match n, s with
  | O, _ => s
  | S k, String _ r => drop_str k r
  | S _, EmptyString => EmptyString
  end.

(** [urlsplit]: after the scheme, the network location is what stands
    between a leading [//] and the next [/], [?] or [#]. *)
Definition netloc_of (u : string) : string :=
  let rest := snd (split_scheme u) in
  if PyStr.startswith "//" rest then take_until ends_netloc (drop_str 2 rest)
  else EmptyString.

(** The base url up to and including the last [/] of its path. *)
Fixpoint upto_last_slash (s : string) : string :=
  match s with
  | EmptyString => EmptyString
  | String c r =>
      if PyStr.contains "/" r then String c (upto_last_slash r)
      else if PyStr.code c =? 47 then String c EmptyString
      else EmptyString
  end.

(** [urljoin] for a base with scheme and host.  An href with a scheme is
    returned as it is, one starting with [/] replaces the path, one
    starting with [#] or [?] replaces the fragment or the query, any
    other is appended to the directory of the base; dot segments are not
    resolved. *)
Definition urljoin_of (base href : string) : string :=
  match split_scheme href with
  | (Some _, _) => href
  | (None, _) =>
      let scheme := default EmptyString (fst (split_scheme base)) in
      let origin := scheme +:+ "://" +:+ netloc_of base in
      if PyStr.startswith "//" href then scheme +:+ ":" +:+ href
      else if PyStr.startswith "/" href then origin +:+ href
      else if PyStr.startswith "#" href then
        take_until (fun c => PyStr.code c =? 35) base +:+ href
      else if PyStr.startswith "?" href then
        take_until (fun c => (PyStr.code c =? 63) || (PyStr.code c =? 35)) base +:+ href
      else
        let path := drop_str (PyStr.len origin)
                             (take_until (fun c => (PyStr.code c =? 63) || (PyStr.code c =? 35)) base) in
        origin +:+ (if PyStr.is_empty path then "/" else upto_last_slash path) +:+ href
  end.

#[global] Instance urllib : Urllib :=
  {| netloc := netloc_of; urljoin := urljoin_of |}.

(** *** re *)

(** The longest prefix of characters satisfying [p], and what follows. *)
Fixpoint span (p : ascii -> bool) (s : string) : string * string :=
  match s with
  | EmptyString => (EmptyString, EmptyString)
  | String c r =>
      if p c then let '(a, b) := span p r in (String c a, b)
      else (EmptyString, s)
  end.

(** The rest of [s] after the literal [lit], compared without case. *)
Fixpoint after_literal (lit s : string) : option string :=
  match lit, s with
  | EmptyString, _ => Some s
  | String a lit', String b s' =>
      if Ascii.eqb (PyStr.lower_char a) (PyStr.lower_char b)
      then after_literal lit' s' else None
  | String _ _, EmptyString => None
  end.

(** The class [[^\s\n\)]] and the class [[^\s\n\)\>]]. *)
Definition path_char (c : ascii) : bool :=
  negb (PyStr.is_space c) && negb (PyStr.code c =? 41).

Definition api_char (c : ascii) : bool :=
  path_char c && negb (PyStr.code c =? 62).

(** A match of [/] and one path character or more at the head of [s]:
    the text matched and its length. *)
Definition match_path (cls : ascii -> bool) (s : string) : option string :=
  match s with
  | String c r =>
      if PyStr.code c =? 47 then
        let '(p, _) := span cls r in
        if PyStr.is_empty p then None else Some (String c p)
      else None
  | EmptyString => None
  end.

(** [(GET|POST|PUT|DELETE|PATCH)\s+(/[^\s\n\)]+)] at the head of [s]:
    the match and the number of characters it covers. *)
Fixpoint match_method (methods : list string) (s : string) : option (re_match * nat) :=
  match methods with
  | [] => None
  | m :: more =>
      match after_literal m s with
      | Some r =>
          let '(ws, r') := span PyStr.is_space r in
          match match_path path_char r' with
          | Some path =>
              if PyStr.is_empty ws then match_method more s
              else Some (MatchTuple (PyStr.take (PyStr.len m) s) path [],
                         PyStr.len m + PyStr.len ws + PyStr.len path)
          | None => match_method more s
          end
      | None => match_method more s
      end
  end.

(** [(/api/[^\s\n\)\>]+)] at the head of [s]. *)
Definition match_api (s : string) : option (re_match * nat) :=
  match after_literal "/api/" s with
  | Some r =>
      let '(p, _) := span api_char r in
      if PyStr.is_empty p then None
      else Some (MatchStr (PyStr.take (5 + PyStr.len p) s), 5 + PyStr.len p)
  | None => None
  end.

(** [(https?://[^/\s]+/api/[^\s\n\)\>]+)] at the head of [s]. *)
Definition match_api_url (s : string) : option (re_match * nat) :=
  match after_literal "http" s with
  | Some r =>
      let r := default r (after_literal "s" r) in
      match after_literal "://" r with
      | Some r =>
          let '(host, r') :=
            span (fun c => negb (PyStr.code c =? 47) && negb (PyStr.is_space c)) r in
          if PyStr.is_empty host then None
          else
            match match_api r' with
            | Some (_, n) =>
                let total := PyStr.len s - PyStr.len r' + n in
                Some (MatchStr (PyStr.take total s), total)
            | None => None
            end
      | None => None
      end
  | None => None
  end.

(** The fourth endpoint pattern, a brace-delimited template variable
    and the non-blank characters after it, at the head of [s]. *)
Definition match_template (s : string) : option (re_match * nat) :=
  match s with
  | String c r =>
      if PyStr.code c =? 123 then
        let '(inner, r') := span (fun c => negb (PyStr.code c =? 125)) r in
        match r' with
        | String _ r'' =>
            let '(tail, _) := span (fun c => negb (PyStr.is_space c)) r'' in
            let total := 2 + PyStr.len inner + PyStr.len tail in
            Some (MatchStr (PyStr.take total s), total)
        | EmptyString => None
        end
      else None
  | EmptyString => None
  end.

(** [re.findall] for a pattern given by its matcher at one position:
    leftmost matches, none overlapping.  [skip] counts the characters
    still covered by the last match. *)
Fixpoint findall_from (m : string -> option (re_match * nat)) (skip : nat) (s : string)
  : list re_match :=
  match s with
  | EmptyString => []
  | String _ r =>
      match skip with
      | S k => findall_from m k r
      | O =>
          match m s with
          | Some (x, n) => x :: findall_from m (n - 1) r
          | None => findall_from m 0 r
          end
      end
  end.

(** The heads of the lines of [s] after the first. *)
Fixpoint later_lines (s : string) : list string :=
  match s with
  | EmptyString => []
  | String c r => if PyStr.code c =? 10 then r :: later_lines r else later_lines r
  end.

(** [^(w1|w2|...)] with [re.MULTILINE]. *)
Definition line_starts_with (words : list string) (s : string) : bool :=
  existsb (fun line => existsb (fun w => PyStr.startswith w line) words)
          (s :: later_lines s).

(** [<[^>]+>] somewhere in [s]. *)
Fixpoint has_tag (s : string) : bool :=
  match s with
  | EmptyString => false
  | String c r =>
      ((PyStr.code c =? 60)
       && (let '(inner, r') := span (fun c => negb (PyStr.code c =? 62)) r in
           negb (PyStr.is_empty inner) && negb (PyStr.is_empty r')))
      || has_tag r
  end.

(** A pattern without special characters: the search for a substring. *)
Definition literal_search (pattern s : string) (flags : list re_flag) : bool :=
  if bool_decide (IGNORECASE ∈ flags)
  then PyStr.contains (PyStr.lower pattern) (PyStr.lower s)
  else PyStr.contains pattern s.

(** [re.search] on the four patterns of [extract_code_examples], with
    the flags the source passes; any other pattern is taken to be free of
    special characters. *)
Definition search_of (pattern s : string) (flags : list re_flag) : bool :=
  if String.eqb pattern "^(curl|wget)" then line_starts_with ["curl"; "wget"] s
  else if String.eqb pattern "^(import|def|class)"
  then line_starts_with ["import"; "def"; "class"] s
  else if String.eqb pattern "^(\{|\[)"
  then PyStr.startswith "{" s || PyStr.startswith "[" s
  else if String.eqb pattern "<[^>]+>" then has_tag s
  else literal_search pattern s flags.

(** [re.findall] on the four endpoint patterns, with the flags the
    source passes. *)
Definition findall_of (pattern s : string) (flags : list re_flag) : list re_match :=
  if String.eqb pattern "(GET|POST|PUT|DELETE|PATCH)\s+(/[^\s\n\)]+)"
  then findall_from (match_method ["GET"; "POST"; "PUT"; "DELETE"; "PATCH"]) 0 s
  else if String.eqb pattern "(/api/[^\s\n\)\>]+)" then findall_from match_api 0 s
  else if String.eqb pattern "(https?://[^/\s]+/api/[^\s\n\)\>]+)"
  then findall_from match_api_url 0 s
  else if String.eqb pattern "(\{[^}]*\}[^\s]*)" then findall_from match_template 0 s
  else [].

#[global] Instance re : Re :=
  {| re_search := search_of; re_findall := findall_of |}.

(** *** BeautifulSoup *)

(** A parsed document: text and elements with attributes and children.
    The document itself is an element without attributes. *)
Inductive Node :=
| Text (s : string)
| Element (name : string) (attrs : list (string * string)) (children : list Node).

Definition node_name (n : Node) : string :=
  match n with
  | Text _ => EmptyString
  | Element name _ _ => name
  end.

Fixpoint assoc {A} (k : string) (l : list (string * A)) : option A :=
  match l with
  | [] => None
  | (k', v) :: r => if String.eqb k k' then Some v else assoc k r
  end.

Definition node_attr (k : string) (n : Node) : option string :=
  match n with
  | Text _ => None
  | Element _ attrs _ => assoc k attrs
  end.

(** The text of a node: its strings, in order, joined by nothing. *)
Fixpoint node_text (n : Node) : string :=
  match n with
  | Text s => s
  | Element _ _ kids => fold_right (fun k acc => node_text k +:+ acc) EmptyString kids
  end.

(** The elements below [n] in document order, each with its ancestors,
    nearest first. *)
Fixpoint walk (ancestors : list Node) (n : Node) : list (list Node * Node) :=
  match n with
  | Text _ => []
  | Element _ _ kids =>
      flat_map (fun k =>
                  match k with
                  | Text _ => []
                  | Element _ _ _ => (n :: ancestors, k) :: walk (n :: ancestors) k
                  end)
               kids
  end.

Definition node_find_all (n : Node) (names : list string) : list Node :=
  filter (fun e => node_name e ∈ names) (map snd (walk [] n)).

(** The words of a string separated by whitespace. *)
Fixpoint words_from (word : string) (s : string) : list string :=
  match s with
  | EmptyString => if PyStr.is_empty word then [] else [word]
  | String c r =>
      if PyStr.is_space c
      then (if PyStr.is_empty word then [] else [word]) ++ words_from EmptyString r
      else words_from (word +:+ String c EmptyString) r
  end.

Definition words (s : string) : list string := words_from EmptyString s.

Definition node_class (n : Node) : list string :=
  match node_attr "class" n with
  | Some v => words v
  | None => []
  end.

(** One compound selector: an element name (empty for any), classes and
    attribute values, all of which must hold. *)
Record Compound := {
  c_name : string;
  c_classes : list string;
  c_attrs : list (string * string);
}.

Inductive Mode := InName | InClass | InAttrName | InAttrValue (attr : string).

Definition flush (mode : Mode) (buf : string) (c : Compound) : Compound :=
  match mode with
  | InName => {| c_name := buf; c_classes := c_classes c; c_attrs := c_attrs c |}
  | InClass =>
      if PyStr.is_empty buf then c
      else {| c_name := c_name c; c_classes := c_classes c ++ [buf]; c_attrs := c_attrs c |}
  | InAttrName => c
  | InAttrValue attr =>
      {| c_name := c_name c; c_classes := c_classes c; c_attrs := c_attrs c ++ [(attr, buf)] |}
  end.

(** The selectors of the source: compounds of the form
    [name.class[attr="value"]] separated by blanks. *)
Fixpoint parse_selector (mode : Mode) (buf : string) (c : Compound) (s : string)
  : list Compound :=
  match s with
  | EmptyString => [flush mode buf c]
  | String ch r =>
      let n := PyStr.code ch in
      match mode with
      | InAttrName =>
          if n =? 61 then parse_selector (InAttrValue buf) EmptyString c r
          else parse_selector mode (buf +:+ String ch EmptyString) c r
      | InAttrValue _ =>
          if n =? 34 then parse_selector mode buf c r
          else if n =? 93 then parse_selector InClass EmptyString (flush mode buf c) r
          else parse_selector mode (buf +:+ String ch EmptyString) c r
      | _ =>
          if n =? 32 then
            flush mode buf c
            :: parse_selector InName EmptyString
                 {| c_name := EmptyString; c_classes := []; c_attrs := [] |} r
          else if n =? 46 then parse_selector InClass EmptyString (flush mode buf c) r
          else if n =? 91 then parse_selector InAttrName EmptyString (flush mode buf c) r
          else parse_selector mode (buf +:+ String ch EmptyString) c r
      end
  end.

Definition compounds (selector : string) : list Compound :=
  parse_selector InName EmptyString
    {| c_name := EmptyString; c_classes := []; c_attrs := [] |} selector.

Definition matches (c : Compound) (n : Node) : bool :=
  (PyStr.is_empty (c_name c) || String.eqb (c_name c) (node_name n))
  && forallb (fun cls => bool_decide (cls ∈ node_class n)) (c_classes c)
  && forallb (fun '(k, v) => bool_decide (node_attr k n = Some v)) (c_attrs c).

(** The outer compounds, innermost first, each matched by an ancestor
    further out than the one before. *)
Fixpoint ancestors_match (ancestors : list Node) (cs : list Compound) : bool :=
  match ancestors with
  | [] => match cs with [] => true | _ => false end
  | a :: more =>
      match cs with
      | [] => true
      | c :: cs' =>
          if matches c a then ancestors_match more cs' else ancestors_match more cs
      end
  end.

Definition selected (selector : string) (item : list Node * Node) : bool :=
  match rev (compounds selector) with
  | [] => false
  | subject :: outer => matches subject (snd item) && ancestors_match (fst item) outer
  end.

Definition node_select (n : Node) (selector : string) : list Node :=
  map snd (List.filter (selected selector) (walk [] n)).

Lemma node_find_all_names (t : Node) (names : list string) (e : Node) :
  e ∈ node_find_all t names -> node_name e ∈ names.
Proof.
  unfold node_find_all. rewrite list_elem_of_filter. tauto.
Qed.

#[global] Instance bs4 : BS4 Node Node :=
  {| BeautifulSoup := fun html => html;
     select_one := fun t selector => head (node_select t selector);
     select := node_select;
     find_all := node_find_all;
     get_text := node_text;
     tag_name := node_name;
     get_class := node_class;
     get_href := node_attr "href";
     find_all_names := node_find_all_names |}.

(** *** The environment *)

(** A world that does not change: the documents the static and the
    rendered fetch return for each url (a url without one fails), and
    the text the clock gives. *)
Record Site := {
  pages : list (string * Node);
  rendered : list (string * Node);
  clock : string;
}.

(** [time.sleep] refuses a negative delay ([ValueError]) and one of
    [2^63] nanoseconds or more ([OverflowError]). *)
Definition clock_refuses (d : Q) : bool :=
  negb (Qle_bool 0 d) || Qle_bool (9223372036854775808 # 1000000000) d.

Lemma clock_refuses_negative (d : Q) : (d < 0)%Q -> clock_refuses d = true.
Proof.
  intros Hd. unfold clock_refuses.
  destruct (Qle_bool 0 d) eqn:Hle; [|done].
  apply Qle_bool_iff in Hle. by destruct (Qlt_not_le _ _ Hd).
Qed.

#[global] Instance env : Env Site Node :=
  {| session_get := fun w u => (w, assoc u (pages w));
     playwright_content := fun w u => (w, assoc u (rendered w));
     PLAYWRIGHT_AVAILABLE := true;
     sleep_raises := clock_refuses;
     sleep_raises_negative := clock_refuses_negative;
     strftime := clock;
     list_set := remove_dups;
     list_set_elem := elem_of_remove_dups;
     list_set_NoDup := NoDup_remove_dups;
     path_str := fun dir filename => dir +:+ "/" +:+ filename |}.

(** *** Building documents *)

Definition el (name : string) (kids : list Node) : Node := Element name [] kids.
Definition txt (name : string) (s : string) : Node := Element name [] [Text s].
Definition link (href label : string) : Node :=
  Element "a" [("href", href)] [Text label].
Definition document (kids : list Node) : Node := Element "[document]" [] kids.

(** *** urllib.parse: path and query *)

(** What follows the scheme and the network location. *)
Definition after_netloc (u : string) : string :=
  let rest := snd (split_scheme u) in
  if PyStr.startswith "//" rest
  then drop_str (2 + PyStr.len (netloc_of u)) rest
  else rest.

Definition ends_path (c : ascii) : bool :=
  (PyStr.code c =? 63) || (PyStr.code c =? 35).

Definition path_of (u : string) : string := take_until ends_path (after_netloc u).

Definition query_of (u : string) : string :=
  let rest := drop_str (PyStr.len (path_of u)) (after_netloc u) in
  if PyStr.startswith "?" rest
  then take_until (fun c => PyStr.code c =? 35) (drop_str 1 rest)
  else EmptyString.

#[global] Instance url_parts : UrlParts :=
  {| url_path := path_of; url_query := query_of |}.

End Model.

(** ** Example sites *)

Module Sites.

Import Model.

(** The configuration [main] builds from a list of urls alone: every
    option at its default. *)
Definition config_of (urls : list string) : FetcherConfig :=
  {| base_urls := urls; output_dir := "out"; max_depth := 2;
     delay_seconds := (1 # 2)%Q; include_patterns := None;
     exclude_patterns := None; custom_headers := None;
     follow_external_links := false; config_extract_code_examples := true;
     config_extract_api_endpoints := true; create_index := true;
     use_playwright := false |}.

Definition page (heading : string) (nav : list Node) (body : list Node) : Node :=
  document [el "html" [el "body" (el "nav" nav :: txt "h1" heading :: body)]].

(** One page, a guide. *)
Definition guide_url : string := "https://docs.io/guide".

Definition guide_site : Site :=
  {| pages := [(guide_url, page "API Guide" [] [txt "p" "How to call the service."])];
     rendered := [];
     clock := "2024-05-01 10:00:00" |}.

Definition guide_config : FetcherConfig := config_of [guide_url].

(** The fetcher after the guide has been fetched. *)
Definition after_guide : Fetcher Site :=
  (fetch_page (init guide_config guide_site) guide_url).1.

(** The guide configuration with a delay of minus one second, which
    [time.sleep] refuses; the same with rendering on. *)
Definition hasty_config : FetcherConfig :=
  {| base_urls := [guide_url]; output_dir := "out"; max_depth := 2;
     delay_seconds := (-1 # 1)%Q; include_patterns := None;
     exclude_patterns := None; custom_headers := None;
     follow_external_links := false; config_extract_code_examples := true;
     config_extract_api_endpoints := true; create_index := true;
     use_playwright := false |}.

Definition hasty_rendering_config : FetcherConfig :=
  {| base_urls := [guide_url]; output_dir := "out"; max_depth := 2;
     delay_seconds := (-1 # 1)%Q; include_patterns := None;
     exclude_patterns := None; custom_headers := None;
     follow_external_links := false; config_extract_code_examples := true;
     config_extract_api_endpoints := true; create_index := true;
     use_playwright := true |}.

(** The guide site where the guide can be rendered as well. *)
Definition rendered_guide_site : Site :=
  {| pages := pages guide_site; rendered := pages guide_site;
     clock := "2024-05-01 10:00:00" |}.

(** A page with a table of two endpoints, and no text that any of the
    endpoint patterns matches. *)
Definition endpoints_table : Node :=
  el "main"
     [ txt "h1" "Reference";
       el "table"
          [ el "tr" [txt "th" "Endpoint"; txt "th" "Description"];
            el "tr" [txt "td" "users"; txt "td" "List the users"];
            el "tr" [txt "td" "orders"; txt "td" "List the orders"] ] ].

(** A site whose only page is an empty document. *)
Definition empty_site : Site :=
  {| pages := [("https://docs.io/", document [])];
     rendered := [];
     clock := "2024-05-01 10:00:00" |}.



(** Two base urls on one host, whose pages carry the same title. *)
Definition twin_site : Site :=
  {| pages :=
       [ ("https://docs.io/v1", page "Overview" [] [txt "p" "The first version of the service."]);
         ("https://docs.io/v2", page "Overview" [] [txt "p" "The second version of the service."]) ];
     rendered := [];
     clock := "2024-05-01 10:00:00" |}.

Definition twin_config : FetcherConfig :=
  config_of ["https://docs.io/v1"; "https://docs.io/v2"].

(** The guide site a second later. *)
Definition guide_site_later : Site :=
  {| pages := pages guide_site; rendered := rendered guide_site;
     clock := "2024-05-01 10:00:01" |}.

(** The crawl of the guide site: what it returns. *)
Definition guide_run : option (gmap string string * Fetcher Site) :=
  Eval vm_compute in crawl_documentation (init guide_config guide_site).

Definition guide_files : gmap string string :=
  match guide_run with
  | Some (files, _) => files
  | None => ∅
  end.

Definition guide_final : Fetcher Site :=
  match guide_run with
  | Some (_, self) => self
  | None => init guide_config guide_site
  end.

(** The crawl of the guide configuration at the moment it takes a url
    that cannot be fetched from the queue. *)
Definition missing_url : string := "https://docs.io/missing".

Definition before_missing : Crawl Site :=
  {| pages_to_process := [missing_url; guide_url]; processed_count := 0;
     created_files := ∅; fetcher := init guide_config guide_site |}.

(** What a run leaves behind: the created files, the failed urls and
    the files written, first to last. *)
Definition created (r : option (gmap string string * Fetcher Site))
  : list (string * string) :=
  match r with
  | Some (files, _) => map_to_list files
  | None => []
  end.

Definition failed (r : option (gmap string string * Fetcher Site)) : list string :=
  match r with
  | Some (_, self) => failed_urls self
  | None => []
  end.

Definition written (r : option (gmap string string * Fetcher Site))
  : list (string * string) :=
  match r with
  | Some (_, self) => write_log self
  | None => []
  end.

(** A start page that links to a page on another host and to the
    guide. *)
Definition outbound_site : Site :=
  {| pages :=
       [ ("https://docs.io/",
          page "Start" [ link "https://other.io/docs" "Elsewhere";
                         link "/guide" "Guide" ] []);
         ("https://docs.io/guide", page "API Guide" [] []);
         ("https://other.io/docs", page "Other" [] []) ];
     rendered := [];
     clock := "2024-05-01 10:00:00" |}.

(** The arguments of [python api_docs_fetcher.py https://docs.io/ -o out]. *)
Definition start_args : Namespace :=
  {| arg_urls := ["https://docs.io/"]; arg_output := "out"; arg_depth := 2;
     arg_delay := (1 # 2)%Q; arg_config := None; arg_include := None;
     arg_exclude := None; arg_no_examples := false; arg_no_endpoints := false;
     arg_use_playwright := false |}.

(** The same with [--depth 0]. *)
Definition shallow_args : Namespace :=
  {| arg_urls := ["https://docs.io/"]; arg_output := "out"; arg_depth := 0;
     arg_delay := (1 # 2)%Q; arg_config := None; arg_include := None;
     arg_exclude := None; arg_no_examples := false; arg_no_endpoints := false;
     arg_use_playwright := false |}.

(** Links as [extract_all_links] returns them. *)
Definition some_links : list string :=
  [ "https://docs.io/api"; "https://docs.io/guide"; "https://docs.io/guide/start" ].

End Sites.

(** ** Properties of the fetcher, for any implementation of the libraries *)

Section Properties.

Context {Html Tag World : Type}.
Context {lib_url : Urllib} {lib_re : Re} {lib_bs4 : BS4 Html Tag} {lib_env : Env World Html}.

(** *** Sections *)

Lemma block_texts_cons (e : Tag) (body : list Tag) :
  block_texts (e :: body)
  = (if long_enough (PyStr.strip (get_text e)) then [PyStr.strip (get_text e)] else [])
    ++ block_texts body.
Proof.
  unfold block_texts. simpl. by destruct (long_enough _).
Qed.

Lemma with_body_nil (current_section : option DocSection) :
  with_body current_section [] = current_section.
Proof.
  destruct current_section as [[l t c]|]; simpl; [|done].
  unfold block_texts; simpl. by rewrite app_nil_r.
Qed.

Lemma append_if_content_section (sections : list DocSection) (group : Tag * list Tag) :
  append_if_content sections (Some (section_of group))
  = sections ++ List.filter (fun s => list_truthy (sec_content s)) [section_of group].
Proof.
  unfold append_if_content, has_content. simpl.
  destruct (list_truthy (block_texts group.2)); [done|by rewrite app_nil_r].
Qed.

Lemma sections_fold (elements : list Tag) :
  forall (sections : list DocSection) (current_section : option DocSection),
    (let '(secs, cur) := foldl sections_step (sections, current_section) elements in
     append_if_content secs cur)
    = append_if_content sections (with_body current_section (group_blocks elements).1)
      ++ List.filter (fun s => list_truthy (sec_content s))
                     (map section_of (group_blocks elements).2).
Proof.
  induction elements as [|e rest IH]; intros sections cur.
  - simpl. by rewrite app_nil_r, with_body_nil.
  - change (foldl sections_step (sections, cur) (e :: rest))
      with (foldl sections_step (sections_step (sections, cur) e) rest).
    simpl group_blocks. destruct (group_blocks rest) as [body groups] eqn:Hg.
    destruct (sections_step (sections, cur) e) as [secs' cur'] eqn:Hstep.
    rewrite IH. cbn [fst snd].
    unfold sections_step in Hstep.
    destruct (is_heading e) eqn:Hh; cbn [fst snd].
    + injection Hstep as <- <-.
      rewrite with_body_nil.
      change (with_body _ body) with (Some (section_of (e, body))).
      rewrite append_if_content_section, <- app_assoc. f_equal.
      by rewrite <- List.filter_app.
    + destruct cur as [s|]; cbn [with_body].
      * rewrite block_texts_cons.
        destruct (long_enough (PyStr.strip (get_text e))) eqn:Hl;
          injection Hstep as <- <-; cbn [with_body content_append sec_content
                                         sec_level sec_title]; [|done].
        by rewrite <- app_assoc.
      * by injection Hstep as <- <-.
Qed.

(** The loop returns the sections the specification describes. *)
Lemma sections_loop_by_heading (elements : list Tag) :
  sections_loop elements = sections_by_heading elements.
Proof.
  unfold sections_loop, sections_by_heading.
  by rewrite (sections_fold elements [] None).
Qed.

(** C6.  [extract_sections] scans the block elements in document order
    and returns one section per heading that is followed, before the next
    heading, by at least one element whose stripped text is longer than 10
    characters; such a section holds exactly those texts, in order.  A
    heading with no such element (two adjacent headings, say) gives no
    section, the last heading is treated like the others, and elements
    before the first heading are dropped. *)
Theorem extract_sections_by_heading (content : Tag) :
  extract_sections content = sections_by_heading (find_all content section_tags).
Proof. apply sections_loop_by_heading. Qed.

(** Among the elements the scan visits, those whose name starts with
    [h] are [h1] to [h6], so [int(element.name[1])] is a level from 1
    to 6. *)
Lemma heading_level_range (content e : Tag) :
  e ∈ find_all content section_tags -> is_heading e = true ->
  1 <= heading_level (tag_name e) <= 6.
Proof.
  intros He%find_all_names. unfold is_heading, section_tags in *.
  repeat (apply elem_of_cons in He as [->|He]); [..|by apply elem_of_nil in He];
    simpl; first [lia|discriminate].
Qed.

Lemma group_blocks_headings (elements : list Tag) (h : Tag) (body : list Tag) :
  (h, body) ∈ (group_blocks elements).2 -> h ∈ elements /\ is_heading h = true.
Proof.
  induction elements as [|e rest IH]; simpl.
  - intros Hin. by apply elem_of_nil in Hin.
  - destruct (group_blocks rest) as [b groups]. destruct (is_heading e) eqn:Hh; simpl in *.
    + intros [[= -> ->]|Hin]%elem_of_cons.
      * split; [by left|done].
      * destruct (IH Hin). split; [by right|done].
    + intros Hin. destruct (IH Hin). split; [by right|done].
Qed.

(** Every section returned has a level from 1 to 6 and at least one
    content block, each longer than 10 characters. *)
Lemma extract_sections_well_formed (content : Tag) (s : DocSection) :
  s ∈ extract_sections content ->
  1 <= sec_level s <= 6
  /\ sec_content s <> []
  /\ Forall (fun text => 10 < PyStr.len text) (sec_content s).
Proof.
  unfold extract_sections. rewrite sections_loop_by_heading.
  unfold sections_by_heading.
  intros [Hs Hne]%list_elem_of_In%filter_In.
  apply in_map_iff in Hs as ([h body] & <- & Hg%list_elem_of_In).
  apply group_blocks_headings in Hg as [Hh1 Hh2].
  split; [by eapply heading_level_range|]. split.
  - simpl in *. by destruct (block_texts body).
  - simpl. unfold block_texts. apply Forall_forall. intros text Ht.
    apply list_elem_of_In, filter_In in Ht as [_ Hl].
    unfold long_enough in Hl. apply andb_true_iff in Hl as [_ Hl].
    by apply Nat.ltb_lt.
Qed.

(** *** The filter and the fetch *)

Lemma sleep_log_log (e : Event) (self : Fetcher World) :
  sleep_log (log e self)
  = sleep_log self ++ match e with Slept d => [d] | _ => [] end.
Proof.
  unfold sleep_log, log. simpl. rewrite omap_app. by destruct e.
Qed.

Lemma write_log_log (e : Event) (self : Fetcher World) :
  write_log (log e self)
  = write_log self ++ match e with Wrote path text => [(path, text)] | _ => [] end.
Proof.
  unfold write_log, log. simpl. rewrite omap_app. by destruct e.
Qed.

(** The end of a branch of [fetch_page]: the facts about the fields by
    computation, the logs through the trace, the attempts as given. *)
Ltac fetch_branch attempts :=
  cbn [fst snd]; split_and!;
  try done;
  try (unfold sleep_log, write_log; simpl; rewrite ?omap_app; simpl;
       by rewrite ?app_nil_r);
  try (exists attempts; split_and!;
       [ repeat constructor; first [by left|by right]
       | done
       | simpl; by rewrite <- ?app_assoc, ?app_nil_r ]);
  try (by left);
  try (right; split_and!; first [done | simpl; set_solver]).

(** What one call of [fetch_page] does to [self], by its result.  A
    call that returns [None] leaves the visited set as it is unless a
    fetch succeeded and [time.sleep] raised after it. *)
Lemma fetch_page_effect (self : Fetcher World) (u : string) :
  let self' := (fetch_page self u).1 in
  config self' = config self
  /\ successful_pages self' = successful_pages self
  /\ write_log self' = write_log self
  /\ (exists attempts,
        Forall (is_attempt u) attempts
        /\ (should_fetch_url self u = true -> attempts <> [])
        /\ trace self'
           = trace self ++ attempts
             ++ match (fetch_page self u).2 with
                | Some _ => [Slept (delay_seconds (config self))]
                | None => []
                end)
  /\ match (fetch_page self u).2 with
     | Some _ =>
         should_fetch_url self u = true
         /\ visited_urls self' = {[u]} ∪ visited_urls self
         /\ failed_urls self' = failed_urls self
         /\ sleep_log self' = sleep_log self ++ [delay_seconds (config self)]
         /\ sleep_raises (delay_seconds (config self)) = false
     | None =>
         (visited_urls self' = visited_urls self
          \/ (should_fetch_url self u = true
              /\ sleep_raises (delay_seconds (config self)) = true
              /\ visited_urls self' = {[u]} ∪ visited_urls self))
         /\ sleep_log self' = sleep_log self
         /\ (if should_fetch_url self u
             then failed_urls self' = failed_urls self ++ [u]
             else self' = self)
     end.
Proof.
  unfold fetch_page, fetch_with_requests, sleep.
  destruct (should_fetch_url self u) eqn:Hs; simpl negb; cbv iota.
  - destruct (use_playwright (config self) && PLAYWRIGHT_AVAILABLE).
    + destruct (playwright_content (world self) u) as [w [html|]].
      * cbv zeta. cbn [config visited_add world set_world log].
        destruct (sleep_raises (delay_seconds (config self))) eqn:Hraise.
        -- destruct (session_get w u) as [w' [html'|]]; cbv zeta;
             cbn [config visited_add world set_world log]; rewrite ?Hraise;
             fetch_branch [Rendered u; Requested u].
        -- fetch_branch [Rendered u].
      * cbn [world set_world log].
        destruct (session_get w u) as [w' [html|]]; cbv zeta;
          cbn [config visited_add world set_world log];
          destruct (sleep_raises (delay_seconds (config self))) eqn:Hraise;
          fetch_branch [Rendered u; Requested u].
    + destruct (session_get (world self) u) as [w' [html|]]; cbv zeta;
        cbn [config visited_add world set_world log];
        destruct (sleep_raises (delay_seconds (config self))) eqn:Hraise;
        fetch_branch [Requested u].
  - fetch_branch (@nil Event).
Qed.

(** A call of [fetch_page] adds its url to the visited set exactly when
    one of its fetches succeeds.  It then returns the document, unless
    [time.sleep] raises, and then the url is recorded as failed as
    well; when no fetch succeeds it returns [None], with the url, if the
    filter accepted it, recorded as failed. *)
Lemma fetch_page_visited (self : Fetcher World) (u : string) :
  let self' := (fetch_page self u).1 in
  let raises := sleep_raises (delay_seconds (config self)) in
  visited_urls self'
  = (if fetch_succeeds self u then {[u]} ∪ visited_urls self else visited_urls self)
  /\ (if fetch_succeeds self u
      then if raises
           then (fetch_page self u).2 = None /\ failed_urls self' = failed_urls self ++ [u]
           else is_Some (fetch_page self u).2
      else (fetch_page self u).2 = None
           /\ (should_fetch_url self u = true -> failed_urls self' = failed_urls self ++ [u])).
Proof.
  unfold fetch_succeeds, fetch_page, fetch_with_requests, sleep.
  destruct (should_fetch_url self u) eqn:Hs; simpl negb; cbv iota; [|done].
  rewrite andb_true_l.
  destruct (use_playwright (config self) && PLAYWRIGHT_AVAILABLE).
  - destruct (playwright_content (world self) u) as [w [html|]].
    + cbv zeta. cbn [config visited_add world set_world log].
      destruct (sleep_raises (delay_seconds (config self))) eqn:Hraise; [|by split].
      destruct (session_get w u) as [w' [html'|]]; cbv zeta;
        cbn [config visited_add world set_world log]; rewrite ?Hraise;
        split; [set_solver|done|done|done].
    + cbn [world set_world log].
      destruct (session_get w u) as [w' [html|]]; cbv zeta;
        cbn [config visited_add world set_world log fst snd];
        destruct (sleep_raises (delay_seconds (config self))) eqn:Hraise;
        (rewrite bool_decide_eq_true_2 by (by eexists))
          || (rewrite bool_decide_eq_false_2 by apply is_Some_None);
        split; first [done|set_solver].
  - destruct (session_get (world self) u) as [w' [html|]]; cbv zeta;
      cbn [config visited_add world set_world log fst snd];
      destruct (sleep_raises (delay_seconds (config self))) eqn:Hraise;
      (rewrite bool_decide_eq_true_2 by (by eexists))
        || (rewrite bool_decide_eq_false_2 by apply is_Some_None);
      split; first [done|set_solver].
Qed.

(** A url the filter accepts is not in the visited set. *)
Lemma accepted_not_visited (self : Fetcher World) (u : string) :
  should_fetch_url self u = true -> u ∉ visited_urls self.
Proof.
  unfold should_fetch_url. by case_bool_decide.
Qed.

(** C1, as amended.  [should_fetch_url] rejects a url that is itself in
    the visited set, whatever the configuration: the membership test is
    on the url as given, by string equality. *)
Theorem should_fetch_url_visited (self : Fetcher World) (u : string) :
  u ∈ visited_urls self -> should_fetch_url self u = false.
Proof.
  intros Hin. unfold should_fetch_url.
  by rewrite bool_decide_eq_true_2.
Qed.

(** A url that is not in the visited set is judged as if nothing had
    been visited: the set enters the decision through that one test. *)
Lemma should_fetch_url_fresh (self : Fetcher World) (u : string) :
  u ∉ visited_urls self ->
  should_fetch_url self u
  = should_fetch_url (init (config self) (world self)) u.
Proof.
  intros Hout. unfold should_fetch_url. cbn [init visited_urls config].
  rewrite (bool_decide_eq_false_2 _ Hout).
  rewrite (bool_decide_eq_false_2 (u ∈ (∅ : gset string))); [done|].
  apply not_elem_of_empty.
Qed.

Lemma fold_Qplus_app (l : list Q) (d : Q) :
  (fold_right Qplus 0 (l ++ [d]) == fold_right Qplus 0 l + d)%Q.
Proof.
  induction l as [|x l IH]; simpl.
  - ring.
  - rewrite IH. ring.
Qed.

(** The sleeps of [n] calls in a row: one for each call that returns a
    document. *)
Lemma fetch_pages_sleep_log (self : Fetcher World) (urls : list string) :
  let self' := (fetch_pages self urls).1 in
  let k := successes (fetch_pages self urls).2 in
  config self' = config self
  /\ sleep_log self' = sleep_log self ++ replicate k (delay_seconds (config self))
  /\ (slept self' == slept self + inject_Z (Z.of_nat k) * delay_seconds (config self))%Q.
Proof.
  revert self. induction urls as [|u more IH]; intros self.
  - simpl. split; [done|]. split; [by rewrite app_nil_r|]. unfold successes; simpl. ring.
  - simpl fetch_pages.
    pose proof (fetch_page_effect self u) as (Hc & _ & _ & _ & Hr).
    destruct (fetch_page self u) as [self1 r] eqn:Hf.
    specialize (IH self1). destruct (fetch_pages self1 more) as [self2 rs] eqn:Hfs.
    cbn [fst snd] in *. destruct IH as (IHc & IHl & IHs).
    split; [congruence|].
    destruct r as [soup|].
    + destruct Hr as (_ & _ & _ & Hl & _).
      unfold successes in *; cbn [List.filter length].
      split.
      * rewrite IHl, Hl, Hc, <- app_assoc. done.
      * rewrite IHs, Hc. unfold slept. rewrite Hl, fold_Qplus_app.
        rewrite Nat2Z.inj_succ, <- Z.add_1_r, inject_Z_plus. ring.
    + destruct Hr as (_ & Hl & _).
      unfold successes in *; cbn [List.filter length].
      split.
      * rewrite IHl, Hl, Hc. done.
      * rewrite IHs, Hc. unfold slept. rewrite Hl. ring.
Qed.

(** C3, as amended.  A call of [fetch_page] that returns a document
    ends with one sleep of [delay_seconds], after the attempts to fetch
    the url; a call that returns [None] (the url was filtered out, or the
    fetch or [time.sleep] raised) makes its attempts, if any, and does
    not sleep.  So [n]
    calls in a row of which [k] return a document sleep [k] times,
    [k * delay_seconds] in all. *)
Theorem fetch_page_sleeps (self : Fetcher World) (u : string) (urls : list string) :
  (exists attempts,
      Forall (is_attempt u) attempts
      /\ (should_fetch_url self u = true -> attempts <> [])
      /\ trace (fetch_page self u).1
         = trace self ++ attempts
           ++ match (fetch_page self u).2 with
              | Some _ => [Slept (delay_seconds (config self))]
              | None => []
              end)
  /\ (let self' := (fetch_pages self urls).1 in
      let k := successes (fetch_pages self urls).2 in
      sleep_log self' = sleep_log self ++ replicate k (delay_seconds (config self))
      /\ (slept self' == slept self
                         + inject_Z (Z.of_nat k) * delay_seconds (config self))%Q).
Proof.
  split.
  - by destruct (fetch_page_effect self u) as (_ & _ & _ & Ha & _).
  - by destruct (fetch_pages_sleep_log self urls) as (_ & Hl & Hs).
Qed.

(** *** Endpoints *)

(** The "Remove duplicates" loop keeps [seen] equal to the keys of
    [unique_endpoints], which stay distinct. *)
Lemma unique_fold (endpoints : list Endpoint) :
  forall (unique_endpoints : list Endpoint) (seen : gset string),
    seen = list_to_set (map endpoint_key unique_endpoints) ->
    NoDup (map endpoint_key unique_endpoints) ->
    let acc := foldl unique_step (unique_endpoints, seen) endpoints in
    acc.2 = list_to_set (map endpoint_key acc.1)
    /\ NoDup (map endpoint_key acc.1)
    /\ acc.2 = seen ∪ list_to_set (map endpoint_key endpoints)
    /\ exists added, acc.1 = unique_endpoints ++ added /\ added `sublist_of` endpoints.
Proof.
  induction endpoints as [|e rest IH]; intros uniq seen Hseen Hnd.
  - simpl. repeat split; [done|done|set_solver|].
    exists []. by rewrite app_nil_r.
  - change (foldl unique_step (uniq, seen) (e :: rest))
      with (foldl unique_step (unique_step (uniq, seen) e) rest).
    unfold unique_step at 2. case_bool_decide as Hin.
    + destruct (IH uniq seen Hseen Hnd) as (H1 & H2 & H3 & added & H4 & H5).
      repeat split; [done|done| |].
      * rewrite H3. simpl. set_solver.
      * exists added. split; [done|]. by apply sublist_cons.
    + destruct (IH (uniq ++ [e]) ({[endpoint_key e]} ∪ seen)) as (H1 & H2 & H3 & added & H4 & H5).
      * rewrite map_app, list_to_set_app_L. simpl. set_solver.
      * rewrite map_app. apply NoDup_app. split; [done|]. split.
        -- intros k Hk Hk'. simpl in Hk'. apply list_elem_of_singleton in Hk'. subst k.
           apply Hin. rewrite Hseen. by apply elem_of_list_to_set.
        -- simpl. apply NoDup_singleton.
      * repeat split; [done|done| |].
        -- rewrite H3. simpl. set_solver.
        -- exists (e :: added). split.
           ++ by rewrite H4, <- app_assoc.
           ++ by apply sublist_skip.
Qed.

(** After the loop the keys are distinct, every key of the input is
    kept once, and the endpoints kept stand in their original order. *)
Lemma remove_duplicates_spec (endpoints : list Endpoint) :
  NoDup (map endpoint_key (remove_duplicates endpoints))
  /\ remove_duplicates endpoints `sublist_of` endpoints
  /\ (list_to_set (map endpoint_key (remove_duplicates endpoints)) : gset string)
     = list_to_set (map endpoint_key endpoints).
Proof.
  unfold remove_duplicates.
  destruct (unique_fold endpoints [] ∅) as (H1 & H2 & H3 & added & H4 & H5);
    [done|apply NoDup_nil_2|].
  simpl in H4. rewrite H4 in *. repeat split; [done|done|].
  rewrite <- H1, H3. set_solver.
Qed.

(** The number of endpoints returned is the number of distinct keys. *)
Lemma remove_duplicates_length (endpoints : list Endpoint) :
  length (remove_duplicates endpoints)
  = size (list_to_set (map endpoint_key endpoints) : gset string).
Proof.
  destruct (remove_duplicates_spec endpoints) as (Hnd & _ & Hset).
  rewrite <- Hset, size_list_to_set by done.
  by rewrite length_map.
Qed.

(** Every table row has the key of a [GET] of the empty path. *)
Lemma table_endpoint_key (data : list string) :
  endpoint_key (TableEndpoint data) = "GET:".
Proof. reflexivity. Qed.

(** Two endpoints of the result with the same key are the same endpoint. *)
Lemma remove_duplicates_same_key (endpoints : list Endpoint) (e1 e2 : Endpoint) :
  e1 ∈ remove_duplicates endpoints -> e2 ∈ remove_duplicates endpoints ->
  endpoint_key e1 = endpoint_key e2 -> e1 = e2.
Proof.
  destruct (remove_duplicates_spec endpoints) as (Hnd & _ & _).
  revert Hnd. generalize (remove_duplicates endpoints) as l.
  induction l as [|x l IH]; intros Hnd H1 H2 Hk.
  - by apply elem_of_nil in H1.
  - simpl in Hnd. apply NoDup_cons in Hnd as [Hx Hnd].
    apply elem_of_cons in H1 as [->|H1]; apply elem_of_cons in H2 as [->|H2].
    + done.
    + exfalso. apply Hx. rewrite Hk. by apply list_elem_of_fmap_2.
    + exfalso. apply Hx. rewrite <- Hk. by apply list_elem_of_fmap_2.
    + by apply IH.
Qed.

(** So at most one table row survives in what [extract_api_endpoints]
    returns, however many rows the tables of the page have. *)
Lemma one_table_endpoint (self : Fetcher World) (content : Tag) (d1 d2 : list string) :
  TableEndpoint d1 ∈ extract_api_endpoints self content ->
  TableEndpoint d2 ∈ extract_api_endpoints self content ->
  d1 = d2.
Proof.
  unfold extract_api_endpoints.
  destruct (negb _); [intros H1; by apply elem_of_nil in H1|].
  intros H1 H2.
  assert (TableEndpoint d1 = TableEndpoint d2) as Heq
    by (eapply remove_duplicates_same_key; eauto).
  by injection Heq.
Qed.

(** The key of a pattern endpoint tells its method and its path apart:
    no method contains a colon. *)
Lemma pattern_key_inj (m1 p1 m2 p2 : string) :
  m1 ∈ http_methods -> m2 ∈ http_methods ->
  endpoint_key (PatternEndpoint m1 p1) = endpoint_key (PatternEndpoint m2 p2) ->
  m1 = m2 /\ p1 = p2.
Proof.
  unfold http_methods. intros H1 H2.
  repeat (apply elem_of_cons in H1 as [->|H1]); [..|by apply elem_of_nil in H1];
    repeat (apply elem_of_cons in H2 as [->|H2]); try (by apply elem_of_nil in H2);
    unfold endpoint_key; simpl; intros Hk; cbv in Hk; try discriminate Hk.
  all: by (split; [done|congruence]).
Qed.

(** The method of an endpoint made from a match is one of the five. *)
Lemma endpoint_of_match_method (m : re_match) :
  exists method path,
    endpoint_of_match m = PatternEndpoint method path /\ method ∈ http_methods.
Proof.
  destruct m as [g|g1 g2 more]; simpl.
  - eexists _, _. split; [done|]. unfold http_methods. set_solver.
  - eexists _, _. split; [done|]. case_bool_decide; [done|].
    unfold http_methods. set_solver.
Qed.

(** Among endpoints made from pattern matches, the loop keeps one
    endpoint for each pair of a method and a path. *)
Lemma remove_duplicates_patterns (endpoints : list Endpoint) :
  Forall is_pattern endpoints ->
  length (remove_duplicates endpoints)
  = size (list_to_set (map method_path endpoints) : gset (string * string)).
Proof.
  intros Hpat.
  destruct (remove_duplicates_spec endpoints) as (Hnd & Hsub & Hset).
  assert (forall e, e ∈ remove_duplicates endpoints -> e ∈ endpoints) as Hin
    by (intros e He; by eapply elem_of_sublist).
  assert (NoDup (map method_path (remove_duplicates endpoints))) as Hnd'.
  { apply (NoDup_fmap_1 (fun mp : string * string => mp.1 +:+ ":" +:+ mp.2)).
    rewrite <- list_fmap_compose. exact Hnd. }
  assert ((list_to_set (map method_path endpoints) : gset (string * string))
          = list_to_set (map method_path (remove_duplicates endpoints))) as ->.
  { apply set_eq. intros mp. rewrite !elem_of_list_to_set, !list_elem_of_fmap. split.
    - intros (e & -> & He).
      assert (endpoint_key e ∈
                (list_to_set (map endpoint_key (remove_duplicates endpoints))
                 : gset string)) as Hk.
      { rewrite Hset. apply elem_of_list_to_set. by apply list_elem_of_fmap_2. }
      apply elem_of_list_to_set, list_elem_of_fmap in Hk as (e' & Hkey & He').
      exists e'. split; [|done].
      rewrite Forall_forall in Hpat.
      pose proof (Hpat e He) as P. pose proof (Hpat e' (Hin e' He')) as P'.
      destruct e as [m p|]; [|done]. destruct e' as [m' p'|]; [|done].
      destruct (pattern_key_inj m p m' p' P P' Hkey) as [-> ->]. done.
    - intros (e & -> & He). exists e. split; [done|]. by apply Hin. }
  rewrite size_list_to_set by done. by rewrite length_map.
Qed.

(** The endpoints made from the pattern matches of a text are such. *)
Lemma pattern_endpoints_are_patterns (text_content : string) :
  Forall is_pattern (pattern_endpoints text_content).
Proof.
  unfold pattern_endpoints. apply Forall_forall. intros e He.
  apply list_elem_of_In, in_flat_map in He as (pattern & _ & He).
  apply in_map_iff in He as (m & <- & _).
  destruct (endpoint_of_match_method m) as (method & path & -> & Hm). exact Hm.
Qed.

(** *** The crawl loop *)

(** A document, whatever it holds, gives a page: the second
    [continue] of the loop is never taken. *)
Lemma extract_page_content_Some (self : Fetcher World) (soup : Tag) (u : string) :
  extract_page_content self (Some soup) u = Some (page_of self soup u).
Proof. reflexivity. Qed.

(** The two ways through the body of the loop. *)
Lemma crawl_page_cases (api_name u : string) (rest : list string) (c : Crawl World) :
  (u ∈ visited_urls (fetcher c)
   /\ crawl_page api_name u rest c = skipped rest c (fetcher c))
  \/ ((u ∉ visited_urls (fetcher c))
      /\ (fetch_page (fetcher c) u).2 = None
      /\ crawl_page api_name u rest c = skipped rest c (fetch_page (fetcher c) u).1)
  \/ ((u ∉ visited_urls (fetcher c))
      /\ exists soup,
          (fetch_page (fetcher c) u).2 = Some soup
          /\ crawl_page api_name u rest c
             = processed api_name rest c (fetch_page (fetcher c) u).1
                         (page_of (fetch_page (fetcher c) u).1 soup u)).
Proof.
  unfold crawl_page. case_bool_decide as Hv.
  - left. done.
  - right. destruct (fetch_page (fetcher c) u) as [self [soup|]] eqn:Hf; simpl.
    + right. split; [done|]. exists soup. split; [done|]. reflexivity.
    + left. done.
Qed.

(** The links the [for] loop appends: some of those offered, in order. *)
Lemma enqueue_fold (self : Fetcher World) (links : list string) :
  forall queue,
    exists new, foldl (enqueue self) queue links = queue ++ new
                /\ new `sublist_of` links.
Proof.
  induction links as [|l links IH]; intros queue.
  - exists []. by rewrite app_nil_r.
  - simpl. unfold enqueue at 2.
    destruct (negb _ && negb _).
    + destruct (IH (queue ++ [l])) as (new & -> & Hs).
      exists (l :: new). split; [by rewrite <- app_assoc|by apply sublist_skip].
    + destruct (IH queue) as (new & -> & Hs).
      exists new. split; [done|by apply sublist_cons].
Qed.

(** The body of the loop is a turn. *)
Lemma crawl_page_turn (api_name u : string) (rest : list string) (c : Crawl World) :
  pages_to_process c = u :: rest ->
  processed_count c < max_pages_per_site ->
  crawl_turn c (crawl_page api_name u rest c).
Proof.
  intros Hq Hn.
  pose proof (fetch_page_effect (fetcher c) u) as (Hc & Hs & _ & _).
  destruct (crawl_page_cases api_name u rest c)
    as [(_ & ->)|[(_ & _ & ->)|(_ & soup & Hf & ->)]].
  - by eapply turn_skip.
  - by eapply turn_skip.
  - set (self := (fetch_page (fetcher c) u).1) in *.
    set (page := page_of self soup u).
    unfold processed. cbn zeta.
    destruct (Z.of_nat (processed_count c) <? max_depth (config self))%Z eqn:Hd.
    + destruct (enqueue_fold
                  (write_file
                     (path_str (output_dir (config self))
                               (filename_of api_name (processed_count c) (title page)))
                     (convert_to_markdown page (Some api_name))
                     (successful_append page self))
                  (take 5 (navigation_links page)) rest) as (new & Hnew & Hsub).
      eapply (turn_page _ _ u rest new page); simpl; try done.
      * by rewrite Hs.
      * intros _. rewrite <- Hc. by apply Z.ltb_lt.
    + eapply (turn_page _ _ u rest [] page); simpl; try done.
      * by rewrite Hs.
      * apply sublist_nil_l.
      * by rewrite app_nil_r.
Qed.

(** The body of the loop brings the end of the loop nearer. *)
Lemma crawl_page_fuel (api_name u : string) (rest : list string) (c : Crawl World) :
  pages_to_process c = u :: rest ->
  processed_count c < max_pages_per_site ->
  crawl_fuel (crawl_page api_name u rest c) < crawl_fuel c.
Proof.
  intros Hq Hn. unfold crawl_fuel. rewrite Hq. simpl length.
  destruct (crawl_page_cases api_name u rest c)
    as [(_ & ->)|[(_ & _ & ->)|(_ & soup & Hf & ->)]]; simpl; try lia.
  set (self := (fetch_page (fetcher c) u).1) in *.
  destruct (_ <? _)%Z.
  - match goal with
    | |- context [foldl (enqueue ?s) rest ?ls] =>
        destruct (enqueue_fold s ls rest) as (new & -> & Hsub)
    end.
    apply sublist_length in Hsub. rewrite length_take in Hsub.
    rewrite length_app. lia.
  - lia.
Qed.

(** With fuel for the turns it can still take, the loop ends, and it
    ends after a sequence of turns in a state where it is over. *)
Lemma crawl_loop_run (api_name : string) (fuel : nat) :
  forall c : Crawl World,
    crawl_fuel c <= fuel ->
    exists c', crawl_loop fuel api_name c = Some c'
               /\ rtc crawl_turn c c' /\ crawl_done c'.
Proof.
  induction fuel as [|fuel IH]; intros c Hfuel.
  - unfold crawl_fuel in Hfuel.
    destruct (pages_to_process c) as [|u rest] eqn:Hq.
    + exists c. simpl. rewrite Hq. repeat split; [apply rtc_refl|by left].
    + simpl in Hfuel. lia.
  - simpl. destruct (pages_to_process c) as [|u rest] eqn:Hq.
    + exists c. repeat split; [apply rtc_refl|by left].
    + destruct (processed_count c <? max_pages_per_site) eqn:Hn.
      * apply Nat.ltb_lt in Hn.
        pose proof (crawl_page_fuel api_name u rest c Hq Hn) as Hless.
        destruct (IH (crawl_page api_name u rest c)) as (c' & Hrun & Hturns & Hdone);
          [lia|].
        exists c'. repeat split; [done| |done].
        eapply rtc_l; [|done]. by apply crawl_page_turn.
      * apply Nat.ltb_ge in Hn.
        exists c. repeat split; [apply rtc_refl|by right].
Qed.

(** C2.  The crawl loop of a base url ends, and what it does is a
    sequence of turns: each is taken from a state with a task in the
    queue and fewer than [max_pages_per_site] (20) pages processed, and a
    turn that processes a page adds tasks only when the count before it
    is below [max_depth], and then only links among the first five
    navigation links of that page.  The loop stops in a state with an
    empty queue or a spent page budget. *)
Theorem crawl_loop_turns (api_name : string) (c : Crawl World) :
  exists c', crawl_loop (crawl_fuel c) api_name c = Some c'
             /\ rtc crawl_turn c c' /\ crawl_done c'.
Proof. by apply crawl_loop_run. Qed.

(** More fuel does not change the result. *)
Lemma crawl_loop_fuel (api_name : string) (fuel : nat) :
  forall (c c' : Crawl World),
    crawl_loop fuel api_name c = Some c' ->
    forall fuel', fuel <= fuel' -> crawl_loop fuel' api_name c = Some c'.
Proof.
  induction fuel as [|fuel IH]; intros c c' Hrun fuel' Hle.
  - destruct fuel'; simpl in *; destruct (pages_to_process c); try done;
      by destruct (_ <? _).
  - destruct fuel' as [|fuel']; [lia|].
    simpl in *. destruct (pages_to_process c); [done|].
    destruct (_ <? _); [|done]. apply (IH _ _ Hrun). lia.
Qed.

(** A property the body of the loop preserves holds when the loop ends. *)
Lemma crawl_loop_invariant (P : Crawl World -> Prop) (api_name : string) :
  (forall c u rest,
      pages_to_process c = u :: rest -> processed_count c < max_pages_per_site ->
      P c -> P (crawl_page api_name u rest c)) ->
  forall fuel c c', P c -> crawl_loop fuel api_name c = Some c' -> P c'.
Proof.
  intros Hstep. induction fuel as [|fuel IH]; intros c c' HP Hrun; simpl in Hrun.
  - destruct (pages_to_process c); [congruence|].
    destruct (_ <? _); [done|congruence].
  - destruct (pages_to_process c) as [|u rest] eqn:Hq; [congruence|].
    destruct (processed_count c <? max_pages_per_site) eqn:Hn; [|congruence].
    apply Nat.ltb_lt in Hn. eapply IH; [|done]. by apply Hstep.
Qed.

(** The crawl of one base url, of all of them, and the whole of
    [crawl_documentation] return. *)
Lemma crawl_site_total (acc : gmap string string * Fetcher World) (base_url : string) :
  is_Some (crawl_site acc base_url).
Proof.
  unfold crawl_site.
  match goal with
  | |- context [crawl_loop (crawl_fuel ?c) ?a ?c] =>
      destruct (crawl_loop_run a (crawl_fuel c) c) as (c' & -> & _); [done|]
  end.
  done.
Qed.

Lemma crawl_sites_total (urls : list string) :
  forall acc : gmap string string * Fetcher World, is_Some (crawl_sites acc urls).
Proof.
  induction urls as [|u urls IH]; intros acc; simpl; [done|].
  destruct (crawl_site_total acc u) as [acc' ->]. apply IH.
Qed.

Lemma crawl_documentation_total (self : Fetcher World) :
  is_Some (crawl_documentation self).
Proof.
  unfold crawl_documentation.
  destruct (crawl_sites_total (base_urls (config self)) (∅, self)) as [[files self'] ->].
  done.
Qed.

(** *** A fetch that fails *)

(** C5, as amended.  When the fetch of the url of a task fails, the url
    is appended to [failed_urls], no file is written and none is added
    to the created files, no page is recorded or counted, and the loop
    goes on with the tasks that were behind it in the queue.  The fetch
    fails when none of the fetches attempted returns a page source, or
    when [time.sleep] raises. *)
Theorem failed_fetch_recorded (api_name u : string) (rest : list string)
    (c : Crawl World) :
  fetch_fails (fetcher c) u ->
  let c' := crawl_page api_name u rest c in
  failed_urls (fetcher c') = failed_urls (fetcher c) ++ [u]
  /\ write_log (fetcher c') = write_log (fetcher c)
  /\ created_files c' = created_files c
  /\ successful_pages (fetcher c') = successful_pages (fetcher c)
  /\ processed_count c' = processed_count c
  /\ pages_to_process c' = rest
  /\ (pages_to_process c = u :: rest ->
      processed_count c < max_pages_per_site ->
      forall fuel, crawl_loop (S fuel) api_name c = crawl_loop fuel api_name c')
  /\ (fetch_succeeds (fetcher c) u = false
      \/ sleep_raises (delay_seconds (config (fetcher c))) = true).
Proof.
  intros [Hs Hf]. cbn zeta.
  assert (u ∉ visited_urls (fetcher c)) as Hv by by apply accepted_not_visited.
  pose proof (fetch_page_effect (fetcher c) u) as (_ & Hsucc & Hw & _ & Hr).
  pose proof (fetch_page_visited (fetcher c) u) as [_ Hcause]. cbv zeta in Hcause.
  rewrite Hf, Hs in Hr. destruct Hr as (_ & _ & Hfail).
  destruct (crawl_page_cases api_name u rest c)
    as [(Hin & _)|[(_ & _ & Heq)|(_ & soup & Hf' & _)]];
    [done| |congruence].
  rewrite Heq. simpl. split_and!; try done.
  - intros Hq Hn fuel. simpl. rewrite Hq.
    apply Nat.ltb_lt in Hn. by rewrite Hn, Heq.
  - destruct (fetch_succeeds (fetcher c) u); [|by left].
    destruct (sleep_raises (delay_seconds (config (fetcher c)))); [by right|].
    rewrite Hf in Hcause. by destruct Hcause.
Qed.

(** *** File names *)

Lemma drop_unsafe_keeps (s : string) : all_chars keeps (drop_unsafe s) = true.
Proof.
  induction s as [|c r IH]; simpl; [done|].
  destruct (keeps c) eqn:Hk; simpl; [by rewrite Hk|done].
Qed.

Lemma lstrip_all (p : ascii -> bool) (s : string) :
  all_chars p s = true -> all_chars p (PyStr.lstrip s) = true.
Proof.
  induction s as [|c r IH]; simpl; [done|].
  intros [Hc Hr]%andb_true_iff.
  destruct (PyStr.is_space c); [by apply IH|]. simpl. by rewrite Hc, Hr.
Qed.

Lemma rstrip_all (p : ascii -> bool) (s : string) :
  all_chars p s = true -> all_chars p (PyStr.rstrip s) = true.
Proof.
  induction s as [|c r IH]; simpl; [done|].
  intros [Hc Hr]%andb_true_iff.
  destruct (PyStr.is_space c && PyStr.is_empty (PyStr.rstrip r)); [done|].
  simpl. by rewrite Hc, IH.
Qed.

Lemma collapse_is_slug (s : string) :
  forall in_run,
    all_chars keeps s = true -> is_slug_from in_run (collapse_from in_run s) = true.
Proof.
  induction s as [|c r IH]; intros in_run; simpl; [done|].
  intros [Hc Hr]%andb_true_iff.
  destruct (is_separator c) eqn:Hsep.
  - destruct in_run; simpl; [by apply IH|].
    change (is_hyphen "-") with true. cbv iota. simpl. by apply IH.
  - simpl. unfold is_separator in Hsep. apply orb_false_iff in Hsep as [Hh Hsp].
    rewrite Hh. unfold keeps in Hc. rewrite Hh, Hsp, !orb_false_r in Hc.
    rewrite Hc. simpl. by apply IH.
Qed.

(** The slug of any title is a slug. *)
Lemma safe_title_is_slug (t : string) : is_slug (safe_title t) = true.
Proof.
  unfold is_slug, safe_title, collapse_separators, PyStr.strip.
  apply collapse_is_slug, lstrip_all, rstrip_all, drop_unsafe_keeps.
Qed.

(** Below the page limit the sequence number is written with two digits. *)
Lemma of_nat_02d_two_digits (n : nat) :
  n < max_pages_per_site -> PyStr.len (PyStr.of_nat_02d n) = 2.
Proof.
  unfold max_pages_per_site. intros Hn.
  do 20 (destruct n as [|n]; [reflexivity|]). lia.
Qed.

(** One turn of the loop keeps the count of the pages of the base url
    in step with the pages written. *)
Lemma crawl_page_site_pages (cfg : FetcherConfig) (base_url : string)
    (files0 : gmap string string) (self0 : Fetcher World) (u : string)
    (rest : list string) (c : Crawl World) :
  processed_count c < max_pages_per_site ->
  site_pages cfg base_url files0 self0 c ->
  site_pages cfg base_url files0 self0 (crawl_page (api_name_of base_url) u rest c).
Proof.
  intros Hn (pages & Hcfg & Hcount & Hlen & Hpages & Hw & Hdom & Hpaths).
  pose proof (fetch_page_effect (fetcher c) u) as (Hc & Hs & Hwl & _).
  destruct (crawl_page_cases (api_name_of base_url) u rest c)
    as [(_ & ->)|[(_ & _ & ->)|(_ & soup & Hf & ->)]].
  - by exists pages.
  - exists pages. unfold skipped. cbn [fetcher processed_count created_files].
    by rewrite Hc, Hs, Hwl.
  - set (self := (fetch_page (fetcher c) u).1) in *.
    set (page := page_of self soup u).
    exists (pages ++ [page]). unfold processed. cbv zeta.
    cbn [fetcher processed_count created_files].
    unfold write_file. rewrite write_log_log. cbn [config log successful_append].
    change (write_log (successful_append page self)) with (write_log self).
    change (successful_pages (log _ (successful_append page self)))
      with (successful_pages self ++ [page]).
    rewrite Hc, Hs, Hwl, Hcfg, length_app. simpl.
    split_and!; [done|lia|lia|by rewrite Hpages, app_assoc| | |].
    + unfold site_writes. rewrite imap_app, Hw, <- app_assoc. simpl.
      by rewrite Nat.add_0_r, <- Hcount.
    + intros f. rewrite dom_insert, elem_of_union, elem_of_singleton, Hdom. split.
      * intros [->|[Hold|(n & pg & Hl & ->)]]; [right|by left|right].
        -- exists (length pages), page. rewrite Hcount. split; [|done].
           apply lookup_snoc_Some. by right.
        -- exists n, pg. split; [|done]. apply lookup_snoc_Some. left.
           split; [by eapply lookup_lt_Some|done].
      * intros [Hold|(n & pg & Hl & ->)]; [right; by left|].
        apply lookup_snoc_Some in Hl as [[_ Hl]|[-> <-]].
        -- right. right. by exists n, pg.
        -- left. by rewrite Hcount.
    + intros f path [[<- <-]|[_ Hold]]%lookup_insert_Some; [done|by apply Hpaths].
Qed.

Lemma crawl_site_groups (cfg : FetcherConfig) (base_url : string)
    (acc acc' : gmap string string * Fetcher World) :
  config acc.2 = cfg ->
  (forall f path, acc.1 !! f = Some path -> path = path_str (output_dir cfg) f) ->
  crawl_site acc base_url = Some acc' ->
  exists pages,
    config acc'.2 = cfg
    /\ length pages <= max_pages_per_site
    /\ successful_pages acc'.2 = successful_pages acc.2 ++ pages
    /\ write_log acc'.2 = write_log acc.2 ++ site_writes cfg base_url pages
    /\ (forall f, f ∈ dom acc'.1
                  <-> f ∈ dom acc.1
                      \/ exists n page,
                          pages !! n = Some page
                          /\ f = filename_of (api_name_of base_url) n (title page))
    /\ (forall f path, acc'.1 !! f = Some path -> path = path_str (output_dir cfg) f).
Proof.
  intros Hcfg Hpaths. unfold crawl_site.
  match goal with
  | |- context [crawl_loop ?n ?a ?c] => destruct (crawl_loop n a c) as [c'|] eqn:Hrun
  end; [|done].
  intros [= <-]. simpl.
  assert (site_pages cfg base_url acc.1 acc.2 c')
    as (pages & Hc & _ & Hlen & Hp & Hw & Hdom & Hpaths').
  { match type of Hrun with
    | crawl_loop ?n ?a ?c0 = _ =>
        apply (crawl_loop_invariant (site_pages cfg base_url acc.1 acc.2) a)
          with (fuel := n) (c := c0)
    end; [| |exact Hrun].
    - intros c u rest _ Hn Hc. by apply crawl_page_site_pages.
    - exists []. simpl. rewrite !app_nil_r.
      split_and!; [done|done|lia|done|done| |done].
      intros f. split; [by left|]. intros [?|(n & page & Hl & _)]; [done|].
      by rewrite lookup_nil in Hl. }
  by exists pages.
Qed.

(** The same over the base urls: one list of pages for each, in order. *)
Lemma crawl_sites_groups (cfg : FetcherConfig) (urls : list string) :
  forall acc acc' : gmap string string * Fetcher World,
    config acc.2 = cfg ->
    (forall f path, acc.1 !! f = Some path -> path = path_str (output_dir cfg) f) ->
    crawl_sites acc urls = Some acc' ->
    exists groups : list (list PageContent),
      pages_by_site acc urls groups acc'
      /\ length groups = length urls
      /\ Forall (fun pages => length pages <= max_pages_per_site) groups
      /\ config acc'.2 = cfg
      /\ successful_pages acc'.2 = successful_pages acc.2 ++ concat groups
      /\ write_log acc'.2
         = write_log acc.2 ++ concat (zip_with (site_writes cfg) urls groups)
      /\ (forall f, f ∈ dom acc'.1
                    <-> f ∈ dom acc.1
                        \/ exists i base pages n page,
                            urls !! i = Some base /\ groups !! i = Some pages
                            /\ pages !! n = Some page
                            /\ f = filename_of (api_name_of base) n (title page))
      /\ (forall f path, acc'.1 !! f = Some path -> path = path_str (output_dir cfg) f).
Proof.
  induction urls as [|b urls IH]; intros acc acc' Hcfg Hpaths; simpl.
  - intros [= <-]. exists []. simpl. rewrite !app_nil_r.
    split_and!; [constructor|done|done|done|done|done| |done].
    intros f. split; [by left|]. intros [?|(i & base & _ & _ & _ & Hl & _)]; [done|].
    by rewrite lookup_nil in Hl.
  - destruct (crawl_site acc b) as [acc1|] eqn:Hsite; [|done].
    intros Hrun.
    destruct (crawl_site_groups cfg b acc acc1 Hcfg Hpaths Hsite)
      as (pages & Hc1 & Hlen1 & Hp1 & Hw1 & Hdom1 & Hpaths1).
    destruct (IH acc1 acc' Hc1 Hpaths1 Hrun)
      as (groups & Hby & Hlen & Hall & Hc & Hp & Hw & Hdom & Hpaths').
    exists (pages :: groups). simpl.
    split_and!; [by econstructor|by rewrite Hlen|by constructor|done
                 |by rewrite Hp, Hp1, app_assoc|by rewrite Hw, Hw1, app_assoc| |done].
    intros f. rewrite Hdom, Hdom1. split.
    + intros [[Hold|(n & page & Hl & ->)]|(i & base & g & n & page & Hb & Hg & Hl & ->)].
      * by left.
      * right. by exists 0, b, pages, n, page.
      * right. by exists (S i), base, g, n, page.
    + intros [Hold|(i & base & g & n & page & Hb & Hg & Hl & ->)]; [left; by left|].
      destruct i as [|i]; simpl in Hb, Hg.
      * injection Hb as <-. injection Hg as <-. left. right. by exists n, page.
      * right. by exists i, base, g, n, page.
Qed.

(** C8, as amended.  The pages a run of [crawl_documentation]
    processes fall into one list for each base url, the pages its loop
    appends to the successful pages, in the order of processing and 20
    at most.  The page at position [n] of the list of a base url,
    counting from zero, is written to the file
    [<label>_<NN>_<slug>.md] of the output directory: the label is that
    of the base url, [NN] is [n] in two digits, and the slug comes from
    the title of that page by removing every character that is not a
    word character, whitespace or a hyphen, trimming, and turning each
    run of whitespace and hyphens into one hyphen, so that it holds word
    characters and single hyphens only.  The case of the title is kept.
    These writes, in order, and then the index when one is asked for,
    are all the run writes, and the files it reports as created are the
    files of these names. *)
Theorem created_files_named (self self' : Fetcher World) (files : gmap string string) :
  crawl_documentation self = Some (files, self') ->
  exists (groups : list (list PageContent)) (self1 : Fetcher World),
    pages_by_site (∅, self) (base_urls (config self)) groups (files, self1)
    /\ self' = (if create_index (config self)
                then create_index_file self1 files else self1)
    /\ length groups = length (base_urls (config self))
    /\ successful_pages self' = successful_pages self ++ concat groups
    /\ (exists index,
          write_log self'
          = write_log self
            ++ concat (zip_with (site_writes (config self)) (base_urls (config self)) groups)
            ++ index
          /\ if create_index (config self)
             then exists text,
                 index = [(path_str (output_dir (config self)) "README.md", text)]
             else index = [])
    /\ (forall filename,
          filename ∈ dom files
          <-> exists i base pages n page,
              base_urls (config self) !! i = Some base /\ groups !! i = Some pages
              /\ pages !! n = Some page
              /\ filename = api_name_of base +:+ "_" +:+ PyStr.of_nat_02d n +:+ "_"
                            +:+ safe_title (title page) +:+ ".md")
    /\ (forall i base pages n page,
          base_urls (config self) !! i = Some base -> groups !! i = Some pages ->
          pages !! n = Some page ->
          let filename := api_name_of base +:+ "_" +:+ PyStr.of_nat_02d n +:+ "_"
                          +:+ safe_title (title page) +:+ ".md" in
          n < max_pages_per_site
          /\ PyStr.len (PyStr.of_nat_02d n) = 2
          /\ is_slug (safe_title (title page)) = true
          /\ page ∈ successful_pages self'
          /\ files !! filename = Some (path_str (output_dir (config self)) filename)
          /\ (path_str (output_dir (config self)) filename,
              convert_to_markdown page (Some (api_name_of base))) ∈ write_log self')
    /\ (forall w, w ∈ write_log self' ->
          w ∈ write_log self
          \/ w.1 = path_str (output_dir (config self)) "README.md"
          \/ exists filename,
              filename ∈ dom files /\ w.1 = path_str (output_dir (config self)) filename).
Proof.
  unfold crawl_documentation.
  destruct (crawl_sites (∅, self) (base_urls (config self))) as [[files1 self1]|] eqn:Hs;
    [|done].
  intros [= -> <-].
  destruct (crawl_sites_groups (config self) (base_urls (config self))
                               (∅, self) (files, self1) eq_refl)
    as (groups & Hby & Hlen & Hall & Hcfg & Hpages & Hw & Hdom & Hpaths); [done|done|].
  cbn [fst snd] in Hcfg, Hpages, Hw, Hdom, Hpaths.
  assert (exists index,
             write_log (if create_index (config self1)
                        then create_index_file self1 files else self1)
             = write_log self
               ++ concat (zip_with (site_writes (config self)) (base_urls (config self))
                                   groups)
               ++ index
             /\ if create_index (config self)
                then exists text,
                    index = [(path_str (output_dir (config self)) "README.md", text)]
                else index = []) as (index & Hwrites & Hindex).
  { rewrite Hcfg. destruct (create_index (config self)).
    - eexists. unfold create_index_file, write_file. rewrite write_log_log, Hw, Hcfg.
      rewrite <- app_assoc. split; [reflexivity|]. by eexists.
    - exists []. by rewrite app_nil_r. }
  assert (successful_pages (if create_index (config self1)
                            then create_index_file self1 files else self1)
          = successful_pages self ++ concat groups) as Hsuccessful
    by (by destruct (create_index (config self1))).
  assert (forall f, f ∈ dom files
                    <-> exists i base pages n page,
                        base_urls (config self) !! i = Some base
                        /\ groups !! i = Some pages /\ pages !! n = Some page
                        /\ f = filename_of (api_name_of base) n (title page)) as Hfiles.
  { intros f. rewrite Hdom. split; [|by right].
    intros [Hold|?]; [|done]. by rewrite dom_empty in Hold. }
  exists groups, self1.
  split_and!; [done|by rewrite Hcfg|done|done|by exists index|exact Hfiles| |].
  - intros i base pages n page Hb Hg Hl. cbv zeta.
    change (api_name_of base +:+ "_" +:+ PyStr.of_nat_02d n +:+ "_"
            +:+ safe_title (title page) +:+ ".md")
      with (filename_of (api_name_of base) n (title page)).
    assert (n < max_pages_per_site) as Hn.
    { apply lookup_lt_Some in Hl. rewrite Forall_forall in Hall.
      assert (pages ∈ groups) as Hin by (by eapply list_elem_of_lookup_2).
      specialize (Hall pages Hin). simpl in Hall. lia. }
    split_and!; [done|by apply of_nat_02d_two_digits|apply safe_title_is_slug| | |].
    + rewrite Hsuccessful. apply elem_of_app. right.
      apply list_elem_of_In, in_concat. exists pages.
      split; apply list_elem_of_In; by eapply list_elem_of_lookup_2.
    + assert (filename_of (api_name_of base) n (title page) ∈ dom files) as Hin
        by (apply Hfiles; by exists i, base, pages, n, page).
      apply elem_of_dom in Hin as [path Hpath]. by rewrite Hpath, (Hpaths _ _ Hpath).
    + rewrite Hwrites. apply elem_of_app. right. apply elem_of_app. left.
      apply list_elem_of_In, in_concat. exists (site_writes (config self) base pages).
      split; apply list_elem_of_In.
      * by eapply elem_of_lookup_zip_with_2.
      * unfold site_writes.
        by apply (elem_of_lookup_imap_2
                    (fun n page =>
                       (path_str (output_dir (config self))
                                 (filename_of (api_name_of base) n (title page)),
                        convert_to_markdown page (Some (api_name_of base))))).
  - intros w. rewrite Hwrites. intros [Hold|[Hpage|Hlast]%elem_of_app]%elem_of_app.
    + by left.
    + right. right.
      apply list_elem_of_In, in_concat in Hpage as (ws & Hws & Hin).
      apply list_elem_of_In, elem_of_lookup_zip_with in Hws
        as (i & base & pages & -> & Hb & Hg).
      apply list_elem_of_In, elem_of_lookup_imap in Hin as (n & page & -> & Hl).
      exists (filename_of (api_name_of base) n (title page)). split; [|done].
      apply Hfiles. by exists i, base, pages, n, page.
    + right. left. destruct (create_index (config self)).
      * destruct Hindex as [text ->]. by apply list_elem_of_singleton in Hlast as ->.
      * rewrite Hindex in Hlast. by apply elem_of_nil in Hlast.
Qed.

(** *** The visited set *)



(** *** The name of a file *)

(** The name depends on the base url through its network location
    only, and on the title through its slug only. *)
Lemma filename_of_host (base1 base2 : string) (n : nat) (t1 t2 : string) :
  netloc base1 = netloc base2 ->
  safe_title t1 = safe_title t2 ->
  filename_of (api_name_of base1) n t1 = filename_of (api_name_of base2) n t2.
Proof.
  intros Hn Ht. unfold filename_of, api_name_of. by rewrite Hn, Ht.
Qed.

(** *** The index *)

#[local] Instance str_le_total : Total str_le.
Proof. intros a b. apply String.leb_total. Qed.

Lemma create_index_file_writes (self : Fetcher World) (files : gmap string string) :
  write_log (create_index_file self files)
  = write_log self
    ++ [(path_str (output_dir (config self)) "README.md", index_text self files)].
Proof. unfold create_index_file, write_file. by rewrite write_log_log. Qed.

(** C7, as amended.  The index is a function of the base urls of the
    configuration, the created files, the number of successful pages, the
    failed urls, and the time the clock gives when it is built: two calls
    that agree on these write the same text.  The created files are
    listed in ascending order of their names, each once. *)
Theorem index_text_deterministic (self1 self2 : Fetcher World)
    (files : gmap string string) :
  strftime (world self1) = strftime (world self2) ->
  base_urls (config self1) = base_urls (config self2) ->
  length (successful_pages self1) = length (successful_pages self2) ->
  failed_urls self1 = failed_urls self2 ->
  index_text self1 files = index_text self2 files
  /\ Sorted str_le (sorted_keys files)
  /\ sorted_keys files ≡ₚ map fst (map_to_list files)
  /\ NoDup (sorted_keys files)
  /\ exists before after,
      index_content (strftime (world self1)) self1 files
      = before ++ map index_entry (sorted_keys files) ++ after.
Proof.
  intros Ht Hb Hs Hf. repeat split.
  - unfold index_text, index_content, index_header, index_footer.
    by rewrite Ht, Hb, Hs, Hf.
  - apply Sorted_merge_sort. apply _.
  - apply merge_sort_Permutation.
  - unfold sorted_keys.
    apply (NoDup_Permutation_proper _ _ (merge_sort_Permutation str_le _)).
    apply NoDup_fst_map_to_list.
  - by exists (index_header (strftime (world self1)) self1), (index_footer self1 files).
Qed.

End Properties.

(** ** What the extractors return *)

Section Extraction.

Context {Html Tag World : Type}.
Context {lib_url : Urllib} {lib_re : Re} {lib_bs4 : BS4 Html Tag} {lib_env : Env World Html}.

(** *** Stripped text *)

Lemma rstrip_idempotent (s : string) :
  PyStr.rstrip (PyStr.rstrip s) = PyStr.rstrip s.
Proof.
  induction s as [|c r IH]; simpl; [done|].
  destruct (PyStr.is_space c && PyStr.is_empty (PyStr.rstrip r)) eqn:Hend; [done|].
  simpl. by rewrite IH, Hend.
Qed.

Lemma rstrip_tail (c : ascii) (r : string) :
  PyStr.rstrip (String c r) = String c r -> PyStr.rstrip r = r.
Proof.
  simpl. destruct (PyStr.is_space c && PyStr.is_empty (PyStr.rstrip r)); [done|].
  by intros [= Hr].
Qed.

Lemma lstrip_keeps_rstrip (s : string) :
  PyStr.rstrip s = s -> PyStr.rstrip (PyStr.lstrip s) = PyStr.lstrip s.
Proof.
  induction s as [|c r IH]; [done|]. intros Hs.
  change (PyStr.lstrip (String c r))
    with (if PyStr.is_space c then PyStr.lstrip r else String c r).
  destruct (PyStr.is_space c); [|done].
  apply IH. by eapply rstrip_tail.
Qed.

Lemma lstrip_idempotent (s : string) :
  PyStr.lstrip (PyStr.lstrip s) = PyStr.lstrip s.
Proof.
  induction s as [|c r IH]; simpl; [done|].
  destruct (PyStr.is_space c) eqn:Hc; [done|]. simpl. by rewrite Hc.
Qed.

(** Text that has been stripped is not changed by stripping it again. *)
Lemma strip_idempotent (s : string) :
  PyStr.strip (PyStr.strip s) = PyStr.strip s.
Proof.
  unfold PyStr.strip.
  rewrite (lstrip_keeps_rstrip (PyStr.rstrip s)) by apply rstrip_idempotent.
  apply lstrip_idempotent.
Qed.

(** *** The title *)

Lemma title_candidate_usable (soup : Tag) (selector t : string) :
  title_candidate soup selector = Some t ->
  t <> "" /\ PyStr.len t < 200 /\ PyStr.strip t = t.
Proof.
  unfold title_candidate. destruct (select_one soup selector) as [element|]; [|done].
  cbv zeta. destruct (PyStr.truthy _ && _) eqn:Hok; [|done].
  intros [= <-]. apply andb_true_iff in Hok as [Ht Hl]. apply Nat.ltb_lt in Hl.
  split_and!; [|done|apply strip_idempotent].
  intros Hempty. by rewrite Hempty in Ht.
Qed.

Lemma first_title_candidates (soup : Tag) (selectors : list string) :
  (first_title soup selectors = "Untitled"
   /\ Forall (fun selector => title_candidate soup selector = None) selectors)
  \/ exists before selector after,
      selectors = before ++ selector :: after
      /\ Forall (fun s => title_candidate soup s = None) before
      /\ title_candidate soup selector = Some (first_title soup selectors).
Proof.
  induction selectors as [|sel rest IH]; simpl.
  - left. by split.
  - assert (title_candidate soup sel = None ->
            first_title soup (sel :: rest) = first_title soup rest) as Hnext.
    { unfold title_candidate. simpl. destruct (select_one soup sel); [|done].
      cbv zeta. by destruct (PyStr.truthy _ && _). }
    destruct (title_candidate soup sel) as [t|] eqn:Hc.
    + right. exists [], sel, rest. split_and!; [done|done|].
      rewrite Hc. f_equal. clear Hnext. unfold title_candidate in Hc. simpl.
      destruct (select_one soup sel); [|done]. cbv zeta in Hc.
      destruct (PyStr.truthy _ && _); [|done]. by injection Hc.
    + simpl in Hnext. rewrite (Hnext eq_refl).
      destruct IH as [[Hu Hall]|(before & selector & after & -> & Hb & Hs)].
      * left. split; [done|]. by constructor.
      * right. exists (sel :: before), selector, after.
        split_and!; [done|by constructor|done].
Qed.

(** X1.  [extract_title] always returns a title that can be used: it is
    not empty, shorter than 200 characters and free of surrounding
    whitespace.  It is the stripped text of the element the first
    selector in the order of preference gives for which that text is not
    empty and shorter than 200 characters, and ["Untitled"] when no
    selector gives one. *)
Theorem extract_title_usable (soup : Tag) :
  let t := extract_title soup in
  t <> "" /\ PyStr.len t < 200 /\ PyStr.strip t = t
  /\ ((t = "Untitled"
       /\ Forall (fun selector => title_candidate soup selector = None) title_selectors)
      \/ exists before selector after,
          title_selectors = before ++ selector :: after
          /\ Forall (fun s => title_candidate soup s = None) before
          /\ title_candidate soup selector = Some t).
Proof.
  cbv zeta. unfold extract_title.
  destruct (first_title_candidates soup title_selectors)
    as [[Hu Hall]|(before & selector & after & Heq & Hb & Hs)].
  - rewrite Hu. split_and!; [done|simpl; lia|reflexivity|by left].
  - destruct (title_candidate_usable _ _ _ Hs) as (H1 & H2 & H3).
    split_and!; [done|done|done|]. right. by exists before, selector, after.
Qed.

(** *** Sections *)

(** X2.  Every section [extract_sections] returns has a level from 1
    to 6, so that [int(element.name[1])] reads a digit whenever it is
    evaluated; its title is stripped; it has at least one content block,
    and every block is stripped text longer than 10 characters. *)
Theorem extract_sections_levels (content : Tag) :
  Forall (fun s =>
            1 <= sec_level s <= 6
            /\ PyStr.strip (sec_title s) = sec_title s
            /\ sec_content s <> []
            /\ Forall (fun text => 10 < PyStr.len text /\ PyStr.strip text = text)
                      (sec_content s))
         (extract_sections content).
Proof.
  apply Forall_forall. intros s Hs.
  destruct (extract_sections_well_formed content s Hs) as (Hlevel & Hne & _).
  unfold extract_sections in Hs. rewrite sections_loop_by_heading in Hs.
  unfold sections_by_heading in Hs.
  apply list_elem_of_In, filter_In in Hs as [Hs _].
  apply in_map_iff in Hs as ([h body] & <- & _).
  split; [done|]. split; [apply strip_idempotent|]. split; [done|].
  simpl. unfold block_texts. apply Forall_forall. intros text Ht.
  apply list_elem_of_In, filter_In in Ht as [Hin Hlong].
  apply in_map_iff in Hin as (e & <- & _).
  split; [|apply strip_idempotent].
  unfold long_enough in Hlong. apply andb_true_iff in Hlong as [_ Hlen].
  by apply Nat.ltb_lt.
Qed.

(** *** Endpoints *)

(** The loop on one more endpoint: it is kept when no endpoint before
    it has its key. *)
Lemma remove_duplicates_snoc (endpoints : list Endpoint) (e : Endpoint) :
  remove_duplicates (endpoints ++ [e])
  = remove_duplicates endpoints
    ++ (if bool_decide (endpoint_key e ∈ map endpoint_key endpoints) then [] else [e]).
Proof.
  unfold remove_duplicates. rewrite foldl_app. simpl.
  destruct (unique_fold endpoints [] ∅) as (_ & _ & Hseen & _);
    [done|apply NoDup_nil_2|].
  destruct (foldl unique_step ([], ∅) endpoints) as [uniq seen]. simpl in *.
  assert (endpoint_key e ∈ seen <-> endpoint_key e ∈ map endpoint_key endpoints) as Hiff.
  { rewrite Hseen, elem_of_union, elem_of_list_to_set. set_solver. }
  repeat case_bool_decide; simpl; try tauto. by rewrite app_nil_r.
Qed.

(** A list whose keys are distinct comes back as it is. *)
Lemma remove_duplicates_distinct (endpoints : list Endpoint) :
  NoDup (map endpoint_key endpoints) -> remove_duplicates endpoints = endpoints.
Proof.
  induction endpoints as [|e l IH] using rev_ind; [done|].
  rewrite map_app, NoDup_app. intros (Hl & Hdis & _).
  rewrite remove_duplicates_snoc, IH by done.
  rewrite bool_decide_eq_false_2; [done|].
  intros Hin. apply (Hdis _ Hin). simpl. by left.
Qed.

(** X3.  The "Remove duplicates" loop of [extract_api_endpoints] keeps
    the first endpoint of every key and drops the later ones, in the
    order of the input: an endpoint added at the end is kept exactly when
    no endpoint before it has its key.  The endpoints kept have distinct
    keys, and running the loop on its own result changes nothing. *)
Theorem remove_duplicates_keeps_first (endpoints : list Endpoint) (e : Endpoint) :
  remove_duplicates [] = []
  /\ remove_duplicates (endpoints ++ [e])
     = remove_duplicates endpoints
       ++ (if bool_decide (endpoint_key e ∈ map endpoint_key endpoints) then [] else [e])
  /\ remove_duplicates endpoints `sublist_of` endpoints
  /\ NoDup (map endpoint_key (remove_duplicates endpoints))
  /\ remove_duplicates (remove_duplicates endpoints) = remove_duplicates endpoints.
Proof.
  destruct (remove_duplicates_spec endpoints) as (Hnd & Hsub & _).
  split_and!; [done|apply remove_duplicates_snoc|done|done|].
  by apply remove_duplicates_distinct.
Qed.

(** X4.  Among the endpoints made from the pattern matches of a text,
    the loop returns as many as there are distinct pairs of a method and
    a path: the key ["METHOD:path"] tells the pairs apart, because the
    method is always one of the five, none of which holds a colon. *)
Theorem pattern_endpoints_count (text_content : string) :
  length (remove_duplicates (pattern_endpoints text_content))
  = size (list_to_set (map method_path (pattern_endpoints text_content))
          : gset (string * string)).
Proof.
  apply remove_duplicates_patterns, pattern_endpoints_are_patterns.
Qed.

Lemma table_endpoints_shape (content : Tag) :
  Forall endpoint_shape (table_endpoints content).
Proof.
  apply Forall_forall. intros e He.
  unfold table_endpoints in He.
  apply list_elem_of_In, in_flat_map in He as (table & _ & He).
  unfold table_endpoints_of in He. destruct (existsb _ table_keywords); [|done].
  apply in_flat_map in He as (row & _ & He).
  unfold row_endpoints in He.
  destruct (2 <=? length _) eqn:Hn; [|done].
  destruct He as [<-|[]]. simpl. by apply Nat.leb_le.
Qed.

(** X5.  Every endpoint [extract_api_endpoints] returns is either a
    pattern endpoint whose method is one of GET, POST, PUT, DELETE and
    PATCH in capitals, or a table endpoint with two cells or more; when
    the extraction is switched off in the configuration nothing is
    returned. *)
Theorem extract_api_endpoints_shape (self : Fetcher World) (content : Tag) :
  Forall endpoint_shape (extract_api_endpoints self content)
  /\ (config_extract_api_endpoints (config self) = false ->
      extract_api_endpoints self content = []).
Proof.
  unfold extract_api_endpoints.
  destruct (config_extract_api_endpoints (config self)); simpl; [|by split].
  split; [|done].
  apply Forall_forall. intros e He.
  destruct (remove_duplicates_spec
              (pattern_endpoints (get_text content) ++ table_endpoints content))
    as (_ & Hsub & _).
  assert (e ∈ pattern_endpoints (get_text content) ++ table_endpoints content) as Hin
    by by eapply elem_of_sublist.
  apply elem_of_app in Hin as [Hp|Ht].
  - pose proof (pattern_endpoints_are_patterns (get_text content)) as Hall.
    rewrite Forall_forall in Hall. specialize (Hall e Hp).
    by destruct e.
  - pose proof (table_endpoints_shape content) as Hall.
    rewrite Forall_forall in Hall. by apply Hall.
Qed.

(** *** Code examples *)

(** The class loop stops at the first class with a hint: the classes
    before it have none. *)
Lemma language_of_classes_cases (class_attr : list string) :
  (Forall (fun c => forall lang, lang ∈ language_hints ->
                      PyStr.contains lang (PyStr.lower c) = false) class_attr
   /\ language_of_classes class_attr = "text")
  \/ exists before cls after lang,
      class_attr = before ++ cls :: after
      /\ Forall (fun c => forall lang, lang ∈ language_hints ->
                            PyStr.contains lang (PyStr.lower c) = false) before
      /\ lang ∈ language_hints
      /\ PyStr.contains lang (PyStr.lower cls) = true
      /\ language_of_classes class_attr = PyStr.lower cls.
Proof.
  induction class_attr as [|cls rest IH]; cbn [language_of_classes]; [by left|].
  destruct (existsb _ language_hints) eqn:Hex.
  - right. apply existsb_exists in Hex as (lang & Hin & Hc).
    exists [], cls, rest, lang.
    split_and!; [done|done|by apply list_elem_of_In|done|done].
  - assert (forall lang, lang ∈ language_hints ->
                         PyStr.contains lang (PyStr.lower cls) = false) as Hnone.
    { intros lang Hin. destruct (PyStr.contains lang (PyStr.lower cls)) eqn:Hc; [|done].
      assert (existsb (fun lang => PyStr.contains lang (PyStr.lower cls)) language_hints
              = true) as Hyes
        by (apply existsb_exists; exists lang; split; [by apply list_elem_of_In|done]).
      congruence. }
    destruct IH as [[Hall Htext]|(before & c & after & l & -> & Hall & ? & ? & ?)].
    + left. split; [by constructor|done].
    + right. exists (cls :: before), c, after, l.
      split_and!; [done|by constructor|done..].
Qed.

Lemma language_of_code_detected (code_text : string) :
  language_of_code code_text ∈ detected_languages.
Proof.
  unfold language_of_code, detected_languages.
  repeat destruct (re_search _ _ _); set_solver.
Qed.

Lemma code_example_of_length (code_block : Tag) :
  length (code_example_of code_block) <= 1.
Proof.
  unfold code_example_of. cbv zeta. destruct (_ <? 20); simpl; lia.
Qed.

Lemma flat_map_at_most_one {A B} (f : A -> list B) (l : list A) :
  (forall x, length (f x) <= 1) -> length (flat_map f l) <= length l.
Proof.
  intros Hf. induction l as [|x l IH]; simpl; [done|].
  rewrite length_app. specialize (Hf x). lia.
Qed.

(** X6.  Every code example [extract_code_examples] returns is the
    stripped text of a [pre] or [code] element of the content, 20
    characters long at least, recorded with its true length.  Its
    language is the first class of the element that contains one of the
    hints python, javascript, bash, curl, json and xml, in lower case:
    no class before that one contains a hint.  When no class of the
    element contains a hint the language is the one detected from the
    text, one of bash, python, json, xml and text.  There is at most one
    example for each element, and none when the extraction is switched
    off. *)
Theorem extract_code_examples_well_formed (self : Fetcher World) (content : Tag) :
  Forall (fun example =>
            exists code_block,
              code_block ∈ find_all content ["pre"; "code"]
              /\ ex_code example = PyStr.strip (get_text code_block)
              /\ ex_length example = PyStr.len (ex_code example)
              /\ 20 <= ex_length example
              /\ ((Forall (fun c => forall lang, lang ∈ language_hints ->
                                      PyStr.contains lang (PyStr.lower c) = false)
                          (get_class code_block)
                   /\ ex_language example = language_of_code (ex_code example)
                   /\ ex_language example ∈ detected_languages)
                  \/ exists before cls after lang,
                      get_class code_block = before ++ cls :: after
                      /\ Forall (fun c => forall lang, lang ∈ language_hints ->
                                            PyStr.contains lang (PyStr.lower c) = false)
                                before
                      /\ lang ∈ language_hints
                      /\ PyStr.contains lang (PyStr.lower cls) = true
                      /\ ex_language example = PyStr.lower cls))
         (extract_code_examples self content)
  /\ length (extract_code_examples self content)
     <= length (find_all content ["pre"; "code"])
  /\ (config_extract_code_examples (config self) = false ->
      extract_code_examples self content = []).
Proof.
  unfold extract_code_examples.
  destruct (config_extract_code_examples (config self)); simpl;
    [|split_and!; [done|lia|done]].
  split_and!; [|apply flat_map_at_most_one, code_example_of_length|done].
  apply Forall_forall. intros example Hex.
  apply list_elem_of_In, in_flat_map in Hex as (code_block & Hblock & Hex).
  exists code_block. split; [by apply list_elem_of_In|].
  unfold code_example_of in Hex. cbv zeta in Hex.
  destruct (PyStr.len _ <? 20) eqn:Hlen; [done|].
  apply Nat.ltb_ge in Hlen. destruct Hex as [<-|[]]. simpl.
  split_and!; [done|done|done|].
  destruct (language_of_classes_cases (get_class code_block))
    as [[Hall ->]|(before & cls & after & lang & Hcls & Hall & Hlang & Hc & Heq)].
  - left. simpl. split_and!; [done|done|apply language_of_code_detected].
  - right. exists before, cls, after, lang. split_and!; [done|done|done|done|].
    rewrite Heq. destruct (String.eqb (PyStr.lower cls) "text") eqn:Htext; [|done].
    apply String.eqb_eq in Htext. rewrite Htext in Hc.
    unfold language_hints in Hlang.
    repeat (apply elem_of_cons in Hlang as [->|Hlang]); try discriminate Hc.
    by apply elem_of_nil in Hlang.
Qed.

(** *** Navigation links *)

Lemma link_target_spec (self : Fetcher World) (base_url : string) (link : Tag)
    (full_url : string) :
  full_url ∈ link_target self base_url link
  <-> exists href,
      get_href link = Some href /\ href <> "" /\ full_url = urljoin base_url href
      /\ should_fetch_url self full_url = true.
Proof.
  unfold link_target. split.
  - destruct (get_href link) as [href|]; [|by intros ?%elem_of_nil].
    destruct href as [|c r]; simpl; [by intros ?%elem_of_nil|].
    destruct (should_fetch_url self _) eqn:Hs; [|by intros ?%elem_of_nil].
    intros ->%list_elem_of_singleton. by exists (String c r).
  - intros (href & -> & Hne & -> & Hs).
    destruct href as [|c r]; [done|]. simpl. simpl in Hs. rewrite Hs.
    by apply list_elem_of_singleton.
Qed.

(** X7.  [find_navigation_links] returns, each once, exactly the urls
    that the filter accepts among the targets of the links the
    navigation selectors find: the non-empty [href] of a link, resolved
    against the url of the page.  So it never returns a url that has
    been visited. *)
Theorem find_navigation_links_accepted (self : Fetcher World) (soup : Tag)
    (base_url : string) :
  NoDup (find_navigation_links self soup base_url)
  /\ (forall full_url,
        full_url ∈ find_navigation_links self soup base_url
        <-> should_fetch_url self full_url = true
            /\ exists selector link href,
                selector ∈ nav_selectors /\ link ∈ select soup selector
                /\ get_href link = Some href /\ href <> ""
                /\ full_url = urljoin base_url href)
  /\ Forall (fun full_url => full_url ∉ visited_urls self)
            (find_navigation_links self soup base_url).
Proof.
  assert (forall full_url,
            full_url ∈ find_navigation_links self soup base_url
            <-> should_fetch_url self full_url = true
                /\ exists selector link href,
                    selector ∈ nav_selectors /\ link ∈ select soup selector
                    /\ get_href link = Some href /\ href <> ""
                    /\ full_url = urljoin base_url href) as Hiff.
  { intros full_url. unfold find_navigation_links.
    rewrite list_set_elem, list_elem_of_In, in_flat_map. split.
    - intros (selector & Hsel & Hin).
      apply in_flat_map in Hin as (link & Hlink & Hin).
      apply list_elem_of_In, link_target_spec in Hin as (href & Hh & Hne & Hu & Hs).
      split; [done|]. exists selector, link, href.
      split_and!; [by apply list_elem_of_In|by apply list_elem_of_In|done..].
    - intros (Hs & selector & link & href & Hsel & Hlink & Hh & Hne & Hu).
      exists selector. split; [by apply list_elem_of_In|].
      apply in_flat_map. exists link. split; [by apply list_elem_of_In|].
      apply list_elem_of_In, link_target_spec. by exists href. }
  split_and!; [apply list_set_NoDup|done|].
  apply Forall_forall. intros full_url Hin.
  apply Hiff in Hin as [Hs _]. by apply accepted_not_visited.
Qed.

End Extraction.

(** ** What reaches the file of a page *)

Section Markdown.

Context {Html Tag World : Type}.
Context {lib_url : Urllib} {lib_re : Re} {lib_bs4 : BS4 Html Tag} {lib_env : Env World Html}.

Lemma flat_map_map {A B C} (f : B -> list C) (g : A -> B) (l : list A) :
  flat_map f (map g l) = flat_map (fun x => f (g x)) l.
Proof. induction l as [|x l IH]; simpl; [done|]. by rewrite IH. Qed.

Lemma section_lines_shown (s : DocSection) :
  section_lines (shown_section s) = section_lines s.
Proof. unfold section_lines, shown_section. simpl. by rewrite take_take. Qed.

Lemma take_map {A B} (f : A -> B) (n : nat) (l : list A) :
  take n (map f l) = map f (take n l).
Proof. symmetry. apply fmap_take. Qed.

Lemma imap_map {A B C} (g : nat -> B -> C) (f : A -> B) (l : list A) :
  imap g (map f l) = imap (fun i x => g i (f x)) l.
Proof. apply imap_fmap. Qed.

Lemma list_truthy_take {A} (n : nat) (l : list A) :
  list_truthy (take (S n) l) = list_truthy l.
Proof. by destruct l. Qed.

Lemma list_truthy_map {A B} (f : A -> B) (l : list A) :
  list_truthy (map f l) = list_truthy l.
Proof. by destruct l. Qed.

(** X8.  The file of a page holds no more than the first three content
    blocks of each section, the first ten endpoints and the first five
    code examples, and nothing of the navigation links or of the recorded
    length of an example: [convert_to_markdown] gives the same text for a
    page and for what is left of it when the rest is removed. *)
Theorem convert_to_markdown_shown (page : PageContent) (api_name : option string) :
  convert_to_markdown page api_name = convert_to_markdown (shown page) api_name.
Proof.
  unfold convert_to_markdown.
  cbn [shown url title sections api_endpoints code_examples].
  rewrite flat_map_map.
  rewrite (flat_map_ext (fun x => section_lines (shown_section x)) section_lines)
    by (intros; apply section_lines_shown).
  rewrite take_map, !take_take.
  change (5 `min` 5) with 5. change (10 `min` 10) with 10.
  rewrite list_truthy_map, !list_truthy_take.
  by rewrite imap_map.
Qed.

Lemma len_app (a b : string) : PyStr.len (a +:+ b) = PyStr.len a + PyStr.len b.
Proof. unfold PyStr.len. induction a as [|c a IH]; simpl; [done|]. by rewrite IH. Qed.

Lemma len_take (n : nat) (s : string) :
  PyStr.len (PyStr.take n s) = n `min` PyStr.len s.
Proof.
  unfold PyStr.len. revert s. induction n as [|n IH]; intros [|c s]; simpl; try done.
  by rewrite IH.
Qed.

(** X9.  The code written for an example is never longer than 1016
    characters.  Code of 1000 characters or fewer is written whole; code
    that is longer is cut to its first 1000 characters, followed by a
    line that says so. *)
Theorem example_code_truncated (i : nat) (example : CodeExample) :
  exists heading code,
    example_lines i example
    = [ heading; ""; "```" +:+ ex_language example; code; "```"; "" ]
    /\ PyStr.len code <= 1016
    /\ (PyStr.len (ex_code example) <= 1000 -> code = ex_code example)
    /\ (1000 < PyStr.len (ex_code example) ->
        code = PyStr.take 1000 (ex_code example) +:+ newline +:+ "... (truncated)"
        /\ PyStr.len code = 1016).
Proof.
  unfold example_lines. cbv zeta.
  destruct (1000 <? PyStr.len (ex_code example)) eqn:Hlong.
  - apply Nat.ltb_lt in Hlong. eexists _, _. split; [reflexivity|].
    assert (PyStr.len (PyStr.take 1000 (ex_code example) +:+ newline +:+ "... (truncated)")
            = 1016) as Hlen.
    { rewrite !len_app, len_take. change (PyStr.len newline) with 1.
      change (PyStr.len "... (truncated)") with 15. lia. }
    split_and!; [lia|lia|done].
  - apply Nat.ltb_ge in Hlong. eexists _, _. split; [reflexivity|].
    split_and!; [lia|done|lia].
Qed.

End Markdown.

(** ** What a run does *)

Section Crawl.

Context {Html Tag World : Type}.
Context {lib_url : Urllib} {lib_re : Re} {lib_bs4 : BS4 Html Tag} {lib_env : Env World Html}.

(** *** The filter *)

Lemma existsb_false {A} (f : A -> bool) (l : list A) :
  existsb f l = false <-> forall x, x ∈ l -> f x = false.
Proof.
  induction l as [|y l IH]; simpl.
  - split; [intros _ x Hx; by apply elem_of_nil in Hx|done].
  - rewrite orb_false_iff, IH. split.
    + intros [Hy Hl] x [->|Hx]%elem_of_cons; auto.
    + intros Hall. split; [apply Hall; by left|intros x Hx; apply Hall; by right].
Qed.

Lemma existsb_true {A} (f : A -> bool) (l : list A) :
  existsb f l = true <-> exists x, x ∈ l /\ f x = true.
Proof.
  rewrite existsb_exists. split; intros (x & Hx & Hf); exists x; split; try done;
    by apply list_elem_of_In.
Qed.

(** The filter accepts the urls that have not been visited and that the
    configuration allows. *)
Lemma should_fetch_url_allowed (self : Fetcher World) (u : string) :
  should_fetch_url self u = true
  <-> (u ∉ visited_urls self) /\ allowed (config self) u.
Proof.
  unfold should_fetch_url, allowed.
  set (cfg := config self).
  assert ((negb (follow_external_links cfg)
           && negb (bool_decide (netloc u ∈ map netloc (base_urls cfg)))) = false
          <-> (follow_external_links cfg = false -> netloc u ∈ map netloc (base_urls cfg)))
    as Hhost.
  { destruct (follow_external_links cfg); simpl; [by split|].
    case_bool_decide; simpl; split; try done. intros Hin. by specialize (Hin eq_refl). }
  assert ((opt_truthy (include_patterns cfg)
           && negb (existsb (fun pattern => re_search pattern u [IGNORECASE])
                            (opt_items (include_patterns cfg)))) = false
          <-> (opt_truthy (include_patterns cfg) = true ->
               exists pattern, pattern ∈ opt_items (include_patterns cfg)
                               /\ re_search pattern u [IGNORECASE] = true))
    as Hinc.
  { destruct (opt_truthy (include_patterns cfg)); simpl; [|by split].
    rewrite negb_false_iff, existsb_true. split; [done|]. intros Hex. by apply Hex. }
  assert ((opt_truthy (exclude_patterns cfg)
           && existsb (fun pattern => re_search pattern u [IGNORECASE])
                      (opt_items (exclude_patterns cfg))) = false
          <-> (forall pattern, pattern ∈ opt_items (exclude_patterns cfg) ->
                 re_search pattern u [IGNORECASE] = false))
    as Hexc.
  { destruct (exclude_patterns cfg) as [[|p l]|]; cbn [opt_truthy list_truthy opt_items andb].
    - split; [intros _ x Hx; by apply elem_of_nil in Hx|done].
    - apply existsb_false.
    - split; [intros _ x Hx; by apply elem_of_nil in Hx|done]. }
  rewrite <- Hhost, <- Hinc, <- Hexc.
  destruct (bool_decide (u ∈ visited_urls self)) eqn:Hv.
  { apply bool_decide_eq_true in Hv. split; [done|tauto]. }
  apply bool_decide_eq_false in Hv.
  destruct (negb _ && negb (bool_decide _)); [split; [done|intros (_ & ? & _); done]|].
  destruct (opt_truthy (include_patterns cfg) && _);
    [split; [done|intros (_ & _ & ? & _); done]|].
  destruct (opt_truthy (exclude_patterns cfg) && _);
    [split; [done|intros (_ & _ & _ & ?); done]|].
  done.
Qed.

(** *** One call of fetch_page, one turn of the loop *)

(** The fetches a call of [fetch_page] attempts: none when the filter
    rejects the url; otherwise the static one, or the rendered one, or
    the rendered one and then the static one. *)
Lemma fetch_page_attempts (self : Fetcher World) (u : string) :
  exists attempts,
    trace (fetch_page self u).1
    = trace self ++ attempts
      ++ match (fetch_page self u).2 with
         | Some _ => [Slept (delay_seconds (config self))]
         | None => []
         end
    /\ ((should_fetch_url self u = false /\ attempts = []
         /\ (fetch_page self u).2 = None)
        \/ (should_fetch_url self u = true
            /\ (attempts = [Requested u]
                \/ (use_playwright (config self) = true
                    /\ ((attempts = [Rendered u] /\ is_Some (fetch_page self u).2)
                        \/ attempts = [Rendered u; Requested u]))))).
Proof.
  unfold fetch_page, fetch_with_requests, sleep.
  destruct (should_fetch_url self u) eqn:Hs; simpl negb; cbv iota.
  - destruct (use_playwright (config self)) eqn:Hp; simpl andb.
    + destruct PLAYWRIGHT_AVAILABLE.
      * destruct (playwright_content (world self) u) as [w [html|]].
        -- cbv zeta. cbn [config visited_add world set_world log].
           destruct (sleep_raises (delay_seconds (config self))) eqn:Hraise.
           ++ destruct (session_get w u) as [w' [html'|]]; cbv zeta;
                cbn [config visited_add world set_world log]; rewrite ?Hraise;
                exists [Rendered u; Requested u];
                (split; [simpl; by rewrite <- ?app_assoc, ?app_nil_r|]);
                right; (split; [done|]); right; (split; [done|by right]).
           ++ exists [Rendered u]. split; [simpl; by rewrite <- app_assoc|].
              right. split; [done|]. right. split; [done|left]. by split.
        -- cbn [world set_world log].
           destruct (session_get w u) as [w' [html|]]; cbv zeta;
             cbn [config visited_add world set_world log];
             destruct (sleep_raises (delay_seconds (config self)));
             exists [Rendered u; Requested u];
             (split; [simpl; by rewrite <- ?app_assoc, ?app_nil_r|]);
             right; (split; [done|]); right; (split; [done|by right]).
      * destruct (session_get (world self) u) as [w' [html|]]; cbv zeta;
          cbn [config visited_add world set_world log];
          destruct (sleep_raises (delay_seconds (config self)));
          exists [Requested u];
          (split; [simpl; by rewrite <- ?app_assoc, ?app_nil_r|]);
          right; (split; [done|]); by left.
    + destruct (session_get (world self) u) as [w' [html|]]; cbv zeta;
        cbn [config visited_add world set_world log];
        destruct (sleep_raises (delay_seconds (config self)));
        exists [Requested u];
        (split; [simpl; by rewrite <- ?app_assoc, ?app_nil_r|]);
        right; (split; [done|]); by left.
  - exists []. split; [simpl; by rewrite app_nil_r|]. by left.
Qed.

Lemma crawl_page_effect (api_name u : string) (rest : list string) (c : Crawl World) :
  turn_effect api_name u rest c (crawl_page api_name u rest c).
Proof.
  pose proof (fetch_page_effect (fetcher c) u) as (Hc & Hs & _ & _ & Hr).
  destruct (fetch_page_attempts (fetcher c) u) as (attempts & Htr & Hat).
  destruct (crawl_page_cases api_name u rest c)
    as [(Hv & ->)|[(Hv & Hnone & ->)|(Hv & soup & Hsome & ->)]].
  - apply (effect_skip _ _ _ _ _ []); simpl; try done; [by left|by left|by rewrite app_nil_r..].
  - rewrite Hnone in Hr, Htr. destruct Hr as (Hvis & _ & Hf). rewrite app_nil_r in Htr.
    apply (effect_skip _ _ _ _ _ attempts); simpl; try done.
    + destruct Hat as [(_ & -> & _)|[Ht [->|(Hp & [[_ [soup Hsome]]| ->])]]];
        [by left|right; split; [done|by left]|congruence|].
      right. split; [done|]. right. by split.
    + destruct Hvis as [Hvis|(Hok & Hraise & Hvis)]; [by left|right].
      split_and!; [|done|done].
      destruct Hat as [(Hno & _)|[_ [->|(_ & [[-> _]| ->])]]]; congruence.
    + destruct Hat as [(Hno & -> & _)|[Ht Hat]].
      * rewrite Hno in Hf. rewrite Hf. by rewrite app_nil_r.
      * rewrite Ht in Hf. rewrite Hf.
        by destruct Hat as [->|(_ & [[-> _]| ->])].
  - rewrite Hsome in Hr, Htr. destruct Hr as (Hok & Hvis & Hf & _).
    destruct Hat as [(_ & _ & Hno)|[_ Hat]]; [congruence|].
    assert (attempts = [Requested u]
            \/ (use_playwright (config (fetcher c)) = true
                /\ (attempts = [Rendered u] \/ attempts = [Rendered u; Requested u])))
      as Hat' by (destruct Hat as [->|(Hp & [[-> _]| ->])]; auto).
    clear Hat. rename Hat' into Hat.
    set (self := (fetch_page (fetcher c) u).1) in *.
    set (page := page_of self soup u).
    assert (exists new,
              pages_to_process (processed api_name rest c self page) = rest ++ new
              /\ new `sublist_of` take 5 (navigation_links page)
              /\ (new <> [] ->
                  (Z.of_nat (processed_count c) < max_depth (config (fetcher c)))%Z))
      as (new & Hq & Hsub & Hdepth).
    { unfold processed. cbv zeta. cbn [pages_to_process].
      destruct (Z.of_nat (processed_count c) <? max_depth (config self))%Z eqn:Hd.
      - match goal with
        | |- context [foldl (enqueue ?s) rest ?ls] =>
            destruct (enqueue_fold s ls rest) as (new & -> & Hsub)
        end.
        exists new. split_and!; [done|done|]. intros _. rewrite <- Hc. by apply Z.ltb_lt.
      - exists []. split_and!; [by rewrite app_nil_r|apply sublist_nil_l|done]. }
    apply (effect_page _ _ _ _ _ attempts page new); try done.
    + unfold processed. simpl. by rewrite Hc.
    + unfold processed. simpl. by rewrite Hs.
    + unfold processed. simpl. rewrite Htr, Hc, <- !app_assoc. done.
Qed.

(** *** Invariants of a run *)

(** A property of the loop state that holds at the start of the crawl
    of a base url and that the body of the loop preserves holds at its
    end, and there is an end. *)
Lemma crawl_site_invariant (I : Crawl World -> Prop)
    (acc : gmap string string * Fetcher World) (base_url : string) :
  I {| pages_to_process := [base_url]; processed_count := 0;
       created_files := acc.1; fetcher := acc.2 |} ->
  (forall c u rest,
      pages_to_process c = u :: rest -> processed_count c < max_pages_per_site ->
      I c -> I (crawl_page (api_name_of base_url) u rest c)) ->
  exists c', crawl_site acc base_url = Some (created_files c', fetcher c') /\ I c'.
Proof.
  intros Hstart Hstep. unfold crawl_site.
  match goal with
  | |- context [crawl_loop (crawl_fuel ?c) ?a ?c] =>
      destruct (crawl_loop_run a (crawl_fuel c) c) as (c' & Hrun & _); [done|]
  end.
  rewrite Hrun. exists c'. split; [done|].
  eapply crawl_loop_invariant; [exact Hstep|exact Hstart|exact Hrun].
Qed.

(** The same for a property of the created files and the fetcher, over
    all the base urls. *)
Lemma crawl_sites_invariant (P : gmap string string -> Fetcher World -> Prop)
    (urls : list string) :
  (forall api_name u rest c,
      P (created_files c) (fetcher c) ->
      P (created_files (crawl_page api_name u rest c))
        (fetcher (crawl_page api_name u rest c))) ->
  forall acc, P acc.1 acc.2 ->
    exists acc', crawl_sites acc urls = Some acc' /\ P acc'.1 acc'.2.
Proof.
  intros Hstep. induction urls as [|b urls IH]; intros acc HP; simpl; [by exists acc|].
  destruct (crawl_site_invariant (fun c => P (created_files c) (fetcher c)) acc b)
    as (c' & -> & HP'); [done|by intros; apply Hstep|].
  by apply (IH (created_files c', fetcher c')).
Qed.

Lemma crawl_documentation_invariant (P : gmap string string -> Fetcher World -> Prop)
    (self : Fetcher World) :
  P ∅ self ->
  (forall api_name u rest c,
      P (created_files c) (fetcher c) ->
      P (created_files (crawl_page api_name u rest c))
        (fetcher (crawl_page api_name u rest c))) ->
  (forall files self1, P files self1 -> P files (create_index_file self1 files)) ->
  exists files self', crawl_documentation self = Some (files, self') /\ P files self'.
Proof.
  intros Hstart Hstep Hindex. unfold crawl_documentation.
  destruct (crawl_sites_invariant P (base_urls (config self)) Hstep (∅, self) Hstart)
    as ([files self1] & -> & HP).
  eexists _, _. split; [reflexivity|].
  destruct (create_index (config self1)); [by apply Hindex|done].
Qed.


Lemma skip_attempts (self : Fetcher World) (u : string) (attempts : list Event) :
  attempts = []
  \/ (should_fetch_url self u = true
      /\ (attempts = [Requested u]
          \/ (use_playwright (config self) = true
              /\ attempts = [Rendered u; Requested u]))) ->
  attempts = []
  \/ (should_fetch_url self u = true
      /\ (attempts = [Requested u]
          \/ (use_playwright (config self) = true
              /\ (attempts = [Rendered u] \/ attempts = [Rendered u; Requested u])))).
Proof. intros [->|(Hs & [->|(Hp & ->)])]; auto 6. Qed.

(** The events of the fetches of a turn are fetches of its url, which
    the filter accepted. *)
Lemma attempts_allowed (self : Fetcher World) (u : string) (attempts : list Event) :
  attempts = []
  \/ (should_fetch_url self u = true
      /\ (attempts = [Requested u]
          \/ (use_playwright (config self) = true
              /\ (attempts = [Rendered u] \/ attempts = [Rendered u; Requested u])))) ->
  Forall (fetch_allowed (config self)) attempts
  /\ sleeps_of attempts = [] /\ writes_of attempts = []
  /\ length (requests_of attempts) <= 1 /\ length (renders_of attempts) <= 1
  /\ (use_playwright (config self) = false -> renders_of attempts = []).
Proof.
  intros [->|(Hs & Hat)]; [split_and!; simpl; first [done|lia]|].
  apply should_fetch_url_allowed in Hs as [_ Hs].
  destruct Hat as [->|(Hp & [->| ->])]; simpl;
    (split_and!; [repeat (constructor; [exact Hs|]); constructor|done|done|lia|lia|]);
    first [done|intros Hoff; by rewrite Hoff in Hp].
Qed.

(** *** The fetches of a run *)



(** X11.  In a run of [crawl_documentation] from a new fetcher no page
    is processed twice, whatever the number of base urls that lead to
    it: the urls of the successful pages are distinct, and each is in
    the visited set.  A visited url is the url of a successful page or a
    failed url; when [time.sleep] accepts the configured delay the
    visited set is the set of the urls of the successful pages. *)
Theorem pages_processed_once (cfg : FetcherConfig) (w : World) :
  exists files self',
    crawl_documentation (init cfg w) = Some (files, self')
    /\ NoDup (map url (successful_pages self'))
    /\ (forall page, page ∈ successful_pages self' -> url page ∈ visited_urls self')
    /\ (forall u, u ∈ visited_urls self' ->
          u ∈ map url (successful_pages self') \/ u ∈ failed_urls self')
    /\ (sleep_raises (delay_seconds cfg) = false ->
        visited_urls self' = list_to_set (map url (successful_pages self'))).
Proof.
  destruct (crawl_documentation_invariant
              (fun _ self1 =>
                 config self1 = cfg
                 /\ NoDup (map url (successful_pages self1))
                 /\ (forall page, page ∈ successful_pages self1 ->
                       url page ∈ visited_urls self1)
                 /\ (forall u, u ∈ visited_urls self1 ->
                       u ∈ map url (successful_pages self1) \/ u ∈ failed_urls self1)
                 /\ (sleep_raises (delay_seconds cfg) = false ->
                     visited_urls self1 = list_to_set (map url (successful_pages self1))))
              (init cfg w)) as (files & self' & Hrun & _ & Hnd & Hin & Hout & Heq).
  - split_and!; [done|apply NoDup_nil_2|set_solver|set_solver|done].
  - intros api_name u rest c (Hcfg & Hnd & Hin & Hout & Heq).
    destruct (crawl_page_effect api_name u rest c)
      as [attempts _ _ _ _ Hc Hvis Hpages Hfailed _
         |attempts page new Hs _ Hurl _ _ _ _ _ Hc Hvis Hpages Hfailed _].
    + rewrite Hc, Hpages, Hfailed.
      destruct Hvis as [->|(Hsome & Hraise & ->)].
      * split_and!; [done|done|done| |done].
        intros x Hx. destruct (Hout x Hx); [by left|right; set_solver].
      * split_and!; [done|done| | |].
        -- intros pg Hpg. specialize (Hin pg Hpg). set_solver.
        -- intros x [->%elem_of_singleton|Hx]%elem_of_union.
           ++ right. destruct attempts; [done|set_solver].
           ++ destruct (Hout x Hx); [by left|right; set_solver].
        -- rewrite Hcfg in Hraise. congruence.
    + apply accepted_not_visited in Hs.
      rewrite Hc, Hvis, Hpages, Hfailed, map_app. simpl. rewrite Hurl.
      split_and!; [done| | | |].
      * apply NoDup_app. split_and!; [done| |apply NoDup_singleton].
        intros x (pg & Hx & Hpg)%list_elem_of_fmap Hu%list_elem_of_singleton.
        apply Hs. rewrite <- Hu, Hx. by apply Hin.
      * intros pg [Hpg| ->%list_elem_of_singleton]%elem_of_app.
        -- specialize (Hin pg Hpg). set_solver.
        -- rewrite Hurl. set_solver.
      * intros x [->%elem_of_singleton|Hx]%elem_of_union.
        -- left. set_solver.
        -- destruct (Hout x Hx); [left; set_solver|by right].
      * intros Hok. rewrite list_to_set_app_L, (Heq Hok). simpl. set_solver.
  - by intros files self1 HP.
  - by exists files, self'.
Qed.

Lemma sleeps_of_app (a b : list Event) : sleeps_of (a ++ b) = sleeps_of a ++ sleeps_of b.
Proof. apply omap_app. Qed.

Lemma writes_of_app (a b : list Event) : writes_of (a ++ b) = writes_of a ++ writes_of b.
Proof. apply omap_app. Qed.

Lemma requests_of_app (a b : list Event) :
  requests_of (a ++ b) = requests_of a ++ requests_of b.
Proof. apply omap_app. Qed.

Lemma renders_of_app (a b : list Event) :
  renders_of (a ++ b) = renders_of a ++ renders_of b.
Proof. apply omap_app. Qed.


(** *** The sleeps of a run *)

(** X12.  A run of [crawl_documentation] sleeps once, for
    [delay_seconds], for every page it processes, and at no other time:
    urls that are skipped and fetches that fail cost no delay. *)
Theorem crawl_sleeps_once_per_page (self : Fetcher World) :
  exists files self' k,
    crawl_documentation self = Some (files, self')
    /\ length (successful_pages self') = length (successful_pages self) + k
    /\ sleep_log self' = sleep_log self ++ replicate k (delay_seconds (config self)).
Proof.
  destruct (crawl_documentation_invariant
              (fun _ self1 =>
                 config self1 = config self
                 /\ exists k,
                     length (successful_pages self1) = length (successful_pages self) + k
                     /\ sleep_log self1
                        = sleep_log self ++ replicate k (delay_seconds (config self)))
              self) as (files & self' & Hrun & _ & k & Hk & Hsl).
  - split; [done|]. exists 0. split; [lia|]. simpl. by rewrite app_nil_r.
  - intros api_name u rest c (Hcfg & k & Hk & Hsl).
    change (sleep_log (fetcher c)) with (sleeps_of (trace (fetcher c))) in Hsl.
    destruct (crawl_page_effect api_name u rest c)
      as [attempts Hat _ _ _ Hc _ Hpages _ Ht
         |attempts page new Hs Hat _ _ _ _ _ _ Hc _ Hpages _ Ht].
    + destruct (attempts_allowed _ _ _ (skip_attempts _ _ _ Hat)) as (_ & Hno & _).
      split; [congruence|]. exists k. split; [by rewrite Hpages|].
      change (sleep_log ?s) with (sleeps_of (trace s)).
      by rewrite Ht, sleeps_of_app, Hno, app_nil_r.
    + destruct (attempts_allowed (fetcher c) u attempts) as (_ & Hno & _); [by right|].
      split; [congruence|]. exists (S k). split.
      * rewrite Hpages, length_app. simpl. lia.
      * change (sleep_log ?s) with (sleeps_of (trace s)).
        rewrite Ht, !sleeps_of_app, Hno, Hsl, replicate_S_end, Hcfg. simpl.
        by rewrite <- app_assoc.
  - intros files self1 (Hcfg & k & Hk & Hsl). split; [done|]. exists k. split; [done|].
    unfold create_index_file, write_file. by rewrite sleep_log_log, app_nil_r.
  - by exists files, self', k.
Qed.

(** *** The pages of a run *)



(** *** The fetches a run can make *)




(** *** The files of a run *)

(** X15.  Every file [crawl_documentation] reports as created was
    written: its path is the output directory joined with its name, and
    the text written there is the markdown of a successful page, the
    page whose title gave the file its name. *)
Theorem created_files_written (self : Fetcher World) :
  exists files self',
    crawl_documentation self = Some (files, self')
    /\ forall filename file_path,
        files !! filename = Some file_path ->
        file_path = path_str (output_dir (config self)) filename
        /\ exists api_name n page,
            page ∈ successful_pages self'
            /\ filename = filename_of api_name n (title page)
            /\ (file_path, convert_to_markdown page (Some api_name)) ∈ write_log self'.
Proof.
  destruct (crawl_documentation_invariant
              (fun files self1 =>
                 config self1 = config self
                 /\ forall filename file_path,
                     files !! filename = Some file_path ->
                     file_path = path_str (output_dir (config self)) filename
                     /\ exists api_name n page,
                         page ∈ successful_pages self1
                         /\ filename = filename_of api_name n (title page)
                         /\ (file_path, convert_to_markdown page (Some api_name))
                              ∈ write_log self1)
              self) as (files & self' & Hrun & _ & Hfiles).
  - split; [done|]. intros filename file_path Hin. by rewrite lookup_empty in Hin.
  - intros api_name u rest c (Hcfg & Hfiles).
    destruct (crawl_page_effect api_name u rest c)
      as [attempts Hat _ _ Hcf Hc _ Hpages _ Ht
         |attempts page new Hs Hat _ _ _ _ _ Hcf Hc _ Hpages _ Ht].
    + destruct (attempts_allowed _ _ _ (skip_attempts _ _ _ Hat)) as (_ & _ & Hno & _).
      split; [congruence|]. rewrite Hcf, Hpages.
      change (write_log ?s) with (writes_of (trace s)).
      rewrite Ht, writes_of_app, Hno, app_nil_r. exact Hfiles.
    + destruct (attempts_allowed (fetcher c) u attempts) as (_ & _ & Hno & _); [by right|].
      split; [congruence|]. rewrite Hcf, Hpages.
      change (write_log ?s) with (writes_of (trace s)).
      rewrite Ht, !writes_of_app, Hno. simpl.
      intros filename file_path [[<- <-]|[Hne Hold]]%lookup_insert_Some.
      * split; [by rewrite Hcfg|]. exists api_name, (processed_count c), page.
        split_and!; [set_solver|done|set_solver].
      * destruct (Hfiles _ _ Hold) as (Hpath & a & n & pg & Hpg & Hname & Hw).
        split; [done|]. exists a, n, pg.
        split_and!; [set_solver|done|].
        change (write_log ?s) with (writes_of (trace s)) in Hw. set_solver.
  - intros files self1 (Hcfg & Hfiles). split; [done|].
    intros filename file_path Hin.
    destruct (Hfiles _ _ Hin) as (Hpath & a & n & pg & Hpg & Hname & Hw).
    split; [done|]. exists a, n, pg. split_and!; [done|done|].
    rewrite create_index_file_writes. set_solver.
  - by exists files, self'.
Qed.

(** *** The account of the fetches *)

(** X16.  Every url [crawl_documentation] sets out to fetch ends as a
    successful page or as an entry of [failed_urls]: the static fetches
    attempted are never more than the pages and the failures added, and
    they are exactly as many when the rendered fetch is not in use. *)
Theorem crawl_fetches_accounted (self : Fetcher World) :
  exists files self' pages failures,
    crawl_documentation self = Some (files, self')
    /\ length (successful_pages self') = length (successful_pages self) + pages
    /\ length (failed_urls self') = length (failed_urls self) + failures
    /\ length (requested_urls self') <= length (requested_urls self) + pages + failures
    /\ length (rendered_urls self') <= length (rendered_urls self) + pages + failures
    /\ (use_playwright (config self) = false ->
        length (requested_urls self') = length (requested_urls self) + pages + failures).
Proof.
  destruct (crawl_documentation_invariant
              (fun _ self1 =>
                 config self1 = config self
                 /\ exists pages failures,
                     length (successful_pages self1)
                     = length (successful_pages self) + pages
                     /\ length (failed_urls self1) = length (failed_urls self) + failures
                     /\ length (requested_urls self1)
                        <= length (requested_urls self) + pages + failures
                     /\ length (rendered_urls self1)
                        <= length (rendered_urls self) + pages + failures
                     /\ (use_playwright (config self) = false ->
                         length (requested_urls self1)
                         = length (requested_urls self) + pages + failures))
              self) as (files & self' & Hrun & _ & p & f & Hp & Hf & Hle & Hle' & Heq).
  - split; [done|]. exists 0, 0. split_and!; lia.
  - intros api_name u rest c (Hcfg & p & f & Hp & Hf & Hle & Hle' & Heq).
    unfold requested_urls, rendered_urls in *.
    destruct (crawl_page_effect api_name u rest c)
      as [attempts Hat _ _ _ Hc _ Hpages Hfailed Ht
         |attempts page new Hs Hat _ _ _ _ _ _ Hc _ Hpages Hfailed Ht].
    + split; [congruence|]. rewrite Hpages, Hfailed, Ht, requests_of_app, renders_of_app.
      destruct Hat as [->|(_ & [->|(Hon & ->)])]; simpl;
        rewrite ?app_nil_r, ?length_app; simpl.
      * exists p, f. split_and!; [lia..|done].
      * exists p, (S f). split_and!; [lia..|]. intros Hoff. specialize (Heq Hoff). lia.
      * exists p, (S f). split_and!; [lia..|]. intros Hoff. congruence.
    + split; [congruence|].
      rewrite Hpages, Hfailed, Ht, !requests_of_app, !renders_of_app.
      exists (S p), f.
      destruct Hat as [->|(Hon & [->| ->])]; simpl;
        rewrite ?app_nil_r, ?length_app; simpl;
        (split_and!; [lia..|]); intros Hoff; first [specialize (Heq Hoff); lia|congruence].
  - intros files self1 (Hcfg & p & f & H). split; [done|]. exists p, f.
    unfold create_index_file, write_file, log, requested_urls, rendered_urls in *.
    cbn [trace successful_pages failed_urls].
    rewrite requests_of_app, renders_of_app. simpl. by rewrite !app_nil_r.
  - by exists files, self', p, f.
Qed.

(** *** The slug of a title *)

Lemma word_char_is_plain (c : ascii) :
  PyStr.is_word c = true -> PyStr.is_space c = false /\ is_hyphen c = false.
Proof.
  destruct c as [[] [] [] [] [] [] [] []]; vm_compute; intros Hw; by try discriminate Hw.
Qed.

Lemma hyphen_char (c : ascii) : is_hyphen c = true -> c = "-"%char.
Proof.
  destruct c as [[] [] [] [] [] [] [] []]; vm_compute; intros Hh; by try discriminate Hh.
Qed.

Lemma hyphen_is_plain (c : ascii) : is_hyphen c = true -> PyStr.is_space c = false.
Proof. by intros ->%hyphen_char. Qed.

Lemma slug_no_space (s : string) :
  forall after_hyphen,
    is_slug_from after_hyphen s = true ->
    all_chars (fun c => negb (PyStr.is_space c)) s = true.
Proof.
  induction s as [|c r IH]; intros b; simpl; [done|].
  destruct (is_hyphen c) eqn:Hh.
  - intros [_ Hr]%andb_true_iff. rewrite (hyphen_is_plain c Hh). simpl. by eapply IH.
  - intros [Hw Hr]%andb_true_iff. destruct (word_char_is_plain c Hw) as [-> _].
    simpl. by eapply IH.
Qed.

Lemma slug_drop_unsafe (s : string) :
  forall after_hyphen, is_slug_from after_hyphen s = true -> drop_unsafe s = s.
Proof.
  induction s as [|c r IH]; intros b; simpl; [done|]. unfold keeps.
  destruct (is_hyphen c) eqn:Hh.
  - intros [_ Hr]%andb_true_iff. rewrite !orb_true_r. f_equal. by eapply IH.
  - intros [Hw Hr]%andb_true_iff. rewrite Hw. simpl. f_equal. by eapply IH.
Qed.

Lemma strip_no_space (s : string) :
  all_chars (fun c => negb (PyStr.is_space c)) s = true -> PyStr.strip s = s.
Proof.
  intros Hs. unfold PyStr.strip.
  assert (PyStr.rstrip s = s) as ->.
  { induction s as [|c r IH]; simpl in *; [done|].
    apply andb_true_iff in Hs as [Hc Hr]. apply negb_true_iff in Hc.
    rewrite Hc. simpl. by rewrite IH. }
  destruct s as [|c r]; simpl in *; [done|].
  apply andb_true_iff in Hs as [Hc _]. apply negb_true_iff in Hc. by rewrite Hc.
Qed.

Lemma slug_collapse (s : string) :
  forall after_hyphen,
    is_slug_from after_hyphen s = true -> collapse_from after_hyphen s = s.
Proof.
  induction s as [|c r IH]; intros b; simpl; [done|]. unfold is_separator.
  destruct (is_hyphen c) eqn:Hh.
  - intros [Hb Hr]%andb_true_iff. apply negb_true_iff in Hb. subst b. simpl.
    rewrite (hyphen_char c Hh). f_equal. by apply IH.
  - intros [Hw Hr]%andb_true_iff. destruct (word_char_is_plain c Hw) as [-> _].
    simpl. f_equal. by apply IH.
Qed.

(** A slug is its own slug. *)
Lemma safe_title_slug (s : string) : is_slug s = true -> safe_title s = s.
Proof.
  intros Hs. unfold safe_title, collapse_separators.
  rewrite (slug_drop_unsafe s false Hs), strip_no_space by by eapply slug_no_space.
  by apply slug_collapse.
Qed.

(** X17.  Making the slug of a title is idempotent: the slug of a slug
    is that slug, so a title that already consists of word characters
    and single hyphens names its file as it stands, capitals included. *)
Theorem safe_title_idempotent (title : string) :
  safe_title (safe_title title) = safe_title title
  /\ (is_slug title = true -> safe_title title = title).
Proof.
  split; [|apply safe_title_slug].
  apply safe_title_slug, safe_title_is_slug.
Qed.

(** *** The failures of a run *)

Lemma attempts_about (self : Fetcher World) (u : string) (attempts : list Event) :
  attempts = []
  \/ (should_fetch_url self u = true
      /\ (attempts = [Requested u]
          \/ (use_playwright (config self) = true
              /\ (attempts = [Rendered u] \/ attempts = [Rendered u; Requested u])))) ->
  Forall (is_attempt u) attempts.
Proof.
  intros [->|(_ & [->|(_ & [->| ->])])]; repeat constructor; first [by left|by right].
Qed.

(** X18.  Every url a run of [crawl_documentation] adds to
    [failed_urls] is a url the configuration allows whose static fetch
    was attempted in the run: that the rendered fetch of a url fails
    does not by itself record the url as failed. *)
Theorem failed_urls_were_requested (self : Fetcher World) :
  exists files self',
    crawl_documentation self = Some (files, self')
    /\ exists failures events,
        failed_urls self' = failed_urls self ++ failures
        /\ trace self' = trace self ++ events
        /\ Forall (fun u => Requested u ∈ events /\ allowed (config self) u) failures.
Proof.
  destruct (crawl_documentation_invariant
              (fun _ self1 =>
                 config self1 = config self
                 /\ exists failures events,
                     failed_urls self1 = failed_urls self ++ failures
                     /\ trace self1 = trace self ++ events
                     /\ Forall (fun u => Requested u ∈ events /\ allowed (config self) u)
                               failures)
              self) as (files & self' & Hrun & _ & Hfailed).
  - split; [done|]. exists [], []. by rewrite !app_nil_r.
  - intros api_name u rest c (Hcfg & failures & events & Hf & Htr & Hall).
    assert (forall more,
              Forall (fun u => Requested u ∈ events ++ more /\ allowed (config self) u)
                     failures) as Hmore.
    { intros more. eapply Forall_impl; [exact Hall|]. intros x [Hx Ha].
      split; [|done]. apply elem_of_app. by left. }
    destruct (crawl_page_effect api_name u rest c)
      as [attempts Hat _ _ _ Hc _ _ Hfailed Ht
         |attempts page new Hs Hat _ _ _ _ _ _ Hc _ _ Hfailed Ht].
    + split; [congruence|].
      exists (failures ++ match attempts with [] => [] | _ => [u] end), (events ++ attempts).
      rewrite Hfailed, Hf, Ht, Htr, <- !app_assoc. split_and!; [done|done|].
      apply Forall_app. split; [apply Hmore|].
      destruct Hat as [->|(Hok & Hat)]; [constructor|].
      apply should_fetch_url_allowed in Hok as [_ Hok]. rewrite Hcfg in Hok.
      destruct Hat as [->|(_ & ->)]; (constructor; [|constructor]);
        (split; [|done]); set_solver.
    + split; [congruence|]. eexists failures, (events ++ attempts ++ [_; _]).
      rewrite Hfailed, Hf, Ht, Htr, <- !app_assoc. split_and!; [done|done|].
      apply Hmore.
  - intros files self1 (Hcfg & failures & events & Hf & Htr & Hall). split; [done|].
    eexists failures, (events ++ [_]).
    unfold create_index_file, write_file, log. cbn [trace failed_urls].
    rewrite Htr, <- app_assoc. split_and!; [done|done|].
    eapply Forall_impl; [exact Hall|]. intros x [Hx Ha].
    split; [|done]. apply elem_of_app. by left.
  - by exists files, self'.
Qed.

(** *** Where the urls of a run come from *)

Lemma linked_more (bases : list string) (pages : list PageContent) (page : PageContent)
    (u : string) :
  linked bases pages u -> linked bases (pages ++ [page]) u.
Proof.
  intros [Hb|(pg & Hpg & Hu)]; [by left|]. right. exists pg. split; [|done].
  apply elem_of_app. by left.
Qed.

Lemma fetch_linked_more (bases : list string) (pages : list PageContent)
    (page : PageContent) (e : Event) :
  fetch_linked bases pages e -> fetch_linked bases (pages ++ [page]) e.
Proof. destruct e; simpl; try done; apply linked_more. Qed.

Lemma attempts_linked (bases : list string) (pages : list PageContent) (u : string)
    (attempts : list Event) :
  linked bases pages u -> Forall (is_attempt u) attempts ->
  Forall (fetch_linked bases pages) attempts.
Proof.
  intros Hu Hall. eapply Forall_impl; [exact Hall|]. by intros e [->| ->].
Qed.

Lemma crawl_site_linked (bases : list string) (events0 : list Event)
    (acc : gmap string string * Fetcher World) (base_url : string) :
  base_url ∈ bases ->
  (exists events,
      trace acc.2 = events0 ++ events
      /\ Forall (fetch_linked bases (successful_pages acc.2)) events) ->
  exists acc',
    crawl_site acc base_url = Some acc'
    /\ exists events,
        trace acc'.2 = events0 ++ events
        /\ Forall (fetch_linked bases (successful_pages acc'.2)) events.
Proof.
  intros Hbase Hstart.
  destruct (crawl_site_invariant
              (fun c =>
                 (exists events,
                     trace (fetcher c) = events0 ++ events
                     /\ Forall (fetch_linked bases (successful_pages (fetcher c))) events)
                 /\ Forall (linked bases (successful_pages (fetcher c)))
                           (pages_to_process c))
              acc base_url) as (c' & Hrun & Hev & _).
  - simpl. split; [done|]. constructor; [by left|constructor].
  - intros c u rest Hq _ ((events & Htr & Hall) & Hqueue).
    rewrite Hq in Hqueue. apply Forall_cons in Hqueue as [Hu Hrest].
    destruct (crawl_page_effect (api_name_of base_url) u rest c)
      as [attempts Hat Hq' _ _ _ _ Hpages _ Ht
         |attempts page new Hs Hat _ Hsub _ Hq' _ _ _ _ Hpages _ Ht].
    + rewrite Hq', Hpages. split; [|done].
      exists (events ++ attempts). split; [by rewrite Ht, Htr, <- app_assoc|].
      apply Forall_app. split; [done|].
      by eapply attempts_linked, attempts_about, skip_attempts.
    + rewrite Hq', Hpages. split.
      * eexists (events ++ attempts ++ [_; _]).
        split; [by rewrite Ht, Htr, <- !app_assoc|].
        apply Forall_app. split.
        { eapply Forall_impl; [exact Hall|]. intros e. apply fetch_linked_more. }
        apply Forall_app. split; [|by repeat constructor].
        eapply attempts_linked; [by apply linked_more|].
        eapply (attempts_about (fetcher c)). by right.
      * apply Forall_app. split.
        { eapply Forall_impl; [exact Hrest|]. intros x. apply linked_more. }
        apply Forall_forall. intros l Hl. right. exists page. split.
        -- apply elem_of_app. right. by apply list_elem_of_singleton.
        -- by eapply elem_of_sublist.
  - exists (created_files c', fetcher c'). by split.
Qed.

Lemma crawl_sites_linked (bases : list string) (events0 : list Event)
    (urls : list string) :
  forall acc : gmap string string * Fetcher World,
    (forall b, b ∈ urls -> b ∈ bases) ->
    (exists events,
        trace acc.2 = events0 ++ events
        /\ Forall (fetch_linked bases (successful_pages acc.2)) events) ->
    exists acc',
      crawl_sites acc urls = Some acc'
      /\ exists events,
          trace acc'.2 = events0 ++ events
          /\ Forall (fetch_linked bases (successful_pages acc'.2)) events.
Proof.
  induction urls as [|b urls IH]; intros acc Hin Hstart; simpl; [by exists acc|].
  destruct (crawl_site_linked bases events0 acc b) as (acc1 & -> & H1);
    [apply Hin; by left|done|].
  apply IH; [|done]. intros x Hx. apply Hin. by right.
Qed.

(** X19.  A run of [crawl_documentation] fetches nothing but the base
    urls and urls that stand among the first five navigation links of a
    page it has processed. *)
Theorem crawl_fetches_linked (self : Fetcher World) :
  exists files self',
    crawl_documentation self = Some (files, self')
    /\ exists events,
        trace self' = trace self ++ events
        /\ Forall (fetch_linked (base_urls (config self)) (successful_pages self')) events.
Proof.
  destruct (crawl_sites_linked (base_urls (config self)) (trace self)
                               (base_urls (config self))
                               ((∅ : gmap string string), self))
    as ([files self1] & Hsites & events & Htr & Hall); [done| |].
  { exists []. simpl. by rewrite app_nil_r. }
  unfold crawl_documentation. rewrite Hsites. eexists _, _. split; [reflexivity|].
  simpl in *. destruct (create_index (config self1)); [|by exists events].
  eexists (events ++ [_]). unfold create_index_file, write_file, log.
  cbn [trace successful_pages]. split; [by rewrite Htr, <- app_assoc|].
  apply Forall_app. split; [done|]. by repeat constructor.
Qed.

(** *** The queue *)

Lemma enqueue_fold_new (self : Fetcher World) (links : list string) :
  forall queue,
    exists new,
      foldl (enqueue self) queue links = queue ++ new
      /\ new `sublist_of` links
      /\ NoDup new
      /\ (forall l, l ∈ new <-> l ∈ links /\ (l ∉ queue) /\ (l ∉ visited_urls self)).
Proof.
  induction links as [|x links IH]; intros queue.
  - exists []. split_and!; [by rewrite app_nil_r|done|constructor|set_solver].
  - simpl. unfold enqueue at 2.
    destruct (bool_decide (x ∈ queue)) eqn:Hq; simpl.
    { apply bool_decide_eq_true in Hq.
      destruct (IH queue) as (new & -> & Hsub & Hnd & Hiff).
      exists new. split_and!; [done|by apply sublist_cons|done|].
      intros l. rewrite Hiff. set_solver. }
    apply bool_decide_eq_false in Hq.
    destruct (bool_decide (x ∈ visited_urls self)) eqn:Hv; simpl.
    { apply bool_decide_eq_true in Hv.
      destruct (IH queue) as (new & -> & Hsub & Hnd & Hiff).
      exists new. split_and!; [done|by apply sublist_cons|done|].
      intros l. rewrite Hiff. set_solver. }
    apply bool_decide_eq_false in Hv.
    destruct (IH (queue ++ [x])) as (new & -> & Hsub & Hnd & Hiff).
    exists (x :: new). split_and!; [by rewrite <- app_assoc|by apply sublist_skip| |].
    + apply NoDup_cons. split; [|done]. rewrite Hiff. set_solver.
    + intros l. rewrite elem_of_cons, Hiff.
      destruct (decide (l = x)) as [->|Hne]; set_solver.
Qed.

(** X25.  The loop that adds the links of a page to the queue appends,
    in their order and once each, exactly the links that are neither in
    the queue already nor visited; the tasks that were queued stay where
    they are. *)
Theorem enqueue_adds_new_links (self : Fetcher World) (queue links : list string) :
  exists new,
    foldl (enqueue self) queue links = queue ++ new
    /\ new `sublist_of` links
    /\ NoDup new
    /\ (forall l, l ∈ new <-> l ∈ links /\ (l ∉ queue) /\ (l ∉ visited_urls self)).
Proof. apply enqueue_fold_new. Qed.

(** *** main *)



End Crawl.

(** ** The scripts around the fetcher *)

Section Strings.

Lemma append_cons (x : ascii) (a b : string) : String x a +:+ b = String x (a +:+ b).
Proof. reflexivity. Qed.

Lemma append_assoc (a b c : string) : (a +:+ b) +:+ c = a +:+ (b +:+ c).
Proof. induction a as [|x a IH]; [done|]. by rewrite !append_cons, IH. Qed.

Lemma append_nil_r (a : string) : a +:+ "" = a.
Proof. induction a as [|x a IH]; [done|]. by rewrite append_cons, IH. Qed.

Lemma all_chars_app (p : ascii -> bool) (a b : string) :
  all_chars p (a +:+ b) = all_chars p a && all_chars p b.
Proof.
  induction a as [|x a IH]; [done|]. rewrite append_cons. simpl.
  by rewrite IH, andb_assoc.
Qed.

Lemma all_chars_impl (p q : ascii -> bool) (s : string) :
  (forall c, p c = true -> q c = true) -> all_chars p s = true -> all_chars q s = true.
Proof.
  intros Hpq. induction s as [|x s IH]; simpl; [done|].
  intros [Hx Hs]%andb_true_iff. by rewrite (Hpq x Hx), IH.
Qed.

Lemma all_chars_and (p q : ascii -> bool) (s : string) :
  all_chars p s = true -> all_chars q s = true ->
  all_chars (fun c => p c && q c) s = true.
Proof.
  induction s as [|x s IH]; simpl; [done|].
  intros [Hx Hs]%andb_true_iff [Hx' Hs']%andb_true_iff. by rewrite Hx, Hx', IH.
Qed.

Lemma all_chars_take (p : ascii -> bool) (n : nat) (s : string) :
  all_chars p s = true -> all_chars p (PyStr.take n s) = true.
Proof.
  revert s. induction n as [|n IH]; intros [|x s]; simpl; try done.
  intros [Hx Hs]%andb_true_iff. by rewrite Hx, IH.
Qed.

Lemma all_chars_lstrip_by (p q : ascii -> bool) (s : string) :
  all_chars p s = true -> all_chars p (PyStr.lstrip_by q s) = true.
Proof.
  induction s as [|x s IH]; simpl; [done|].
  intros [Hx Hs]%andb_true_iff. destruct (q x); [by apply IH|]. simpl. by rewrite Hx, Hs.
Qed.

Lemma all_chars_rstrip_by (p q : ascii -> bool) (s : string) :
  all_chars p s = true -> all_chars p (PyStr.rstrip_by q s) = true.
Proof.
  induction s as [|x s IH]; simpl; [done|].
  intros [Hx Hs]%andb_true_iff.
  destruct (q x && PyStr.is_empty (PyStr.rstrip_by q s)); [done|]. simpl. by rewrite Hx, IH.
Qed.

(** Replacing a text by another brings in no character that neither the
    string nor the new text has. *)
Lemma all_chars_replace_from (p : ascii -> bool) (old new s : string) :
  forall skip,
    all_chars p new = true -> all_chars p s = true ->
    all_chars p (PyStr.replace_from old new skip s) = true.
Proof.
  induction s as [|x s IH]; intros skip Hnew; simpl; [done|].
  intros [Hx Hs]%andb_true_iff. destruct skip as [|k]; [|by apply IH].
  destruct (PyStr.startswith old (String x s)).
  - rewrite all_chars_app, Hnew. simpl. by apply IH.
  - simpl. rewrite Hx. simpl. by apply IH.
Qed.

(** Replacing a character leaves none of it, unless the new text has
    it. *)
Lemma replace_char_gone (c : ascii) (new s : string) :
  all_chars (fun x => negb (Ascii.eqb x c)) new = true ->
  all_chars (fun x => negb (Ascii.eqb x c))
            (PyStr.replace (String c EmptyString) new s) = true.
Proof.
  intros Hnew. unfold PyStr.replace.
  induction s as [|x s IH]; simpl; [done|].
  destruct (Ascii.eqb c x) eqn:Hcx.
  - rewrite all_chars_app, Hnew. simpl. exact IH.
  - simpl. rewrite Ascii.eqb_sym, Hcx. simpl. exact IH.
Qed.

Lemma uint_digits (d : Decimal.uint) :
  all_chars PyStr.is_ascii_digit (NilEmpty.string_of_uint d) = true.
Proof. induction d; simpl; try done. Qed.

(** [str(n)] consists of digits. *)
Lemma of_nat_digits (n : nat) : all_chars PyStr.is_ascii_digit (PyStr.of_nat n) = true.
Proof. apply uint_digits. Qed.

End Strings.

(** *** save_links: the batches *)

Section Batches.

Import ExtractAllLinks.

Lemma slice_chunk {A} (i : nat) (l : list A) :
  slice i (i + chunk_size) l = take chunk_size (drop i l).
Proof. unfold slice. f_equal. lia. Qed.

Lemma range_from_chunks (links : list string) :
  forall fuel start,
    length links - start <= fuel ->
    let batches := map (fun i => slice i (i + chunk_size) links)
                       (range_from fuel start (length links) chunk_size) in
    concat batches = drop start links
    /\ Forall (fun chunk => 1 <= length chunk <= chunk_size) batches
    /\ length batches = (length links - start + 9) / 10.
Proof.
  induction fuel as [|fuel IH]; intros start Hfuel; cbv zeta;
    remember ((length links - start + 9) / 10) as count eqn:Hcount.
  - simpl. rewrite drop_ge by lia. split_and!; [done|constructor|].
    subst count. zify. Z.div_mod_to_equations. lia.
  - cbn [range_from]. destruct (start <? length links) eqn:Hlt.
    + apply Nat.ltb_lt in Hlt.
      destruct (IH (start + chunk_size)) as (Hcat & Hall & Hlen);
        [unfold chunk_size; lia|].
      cbn [map concat length]. rewrite Hcat, slice_chunk. split_and!.
      * rewrite <- (take_drop chunk_size (drop start links)) at 2.
        by rewrite drop_drop.
      * constructor; [|done]. rewrite length_take, length_drop.
        unfold chunk_size. lia.
      * rewrite Hlen. subst count. unfold chunk_size.
        zify. Z.div_mod_to_equations. lia.
    + apply Nat.ltb_ge in Hlt. simpl. rewrite drop_ge by lia.
      split_and!; [done|constructor|]. subst count. zify. Z.div_mod_to_equations. lia.
Qed.

(** X21.  [save_links] splits the links into batches without losing,
    repeating or reordering any: the batches put end to end are the
    links; every batch holds between 1 and 10 links, so no command is
    written without a url; and there are as many batches as the number
    of links divided by 10, rounded up. *)
Theorem chunks_partition (links : list string) :
  concat (chunks links) = links
  /\ Forall (fun chunk => 1 <= length chunk <= chunk_size) (chunks links)
  /\ length (chunks links) = (length links + 9) / 10.
Proof.
  unfold chunks, range.
  destruct (range_from_chunks links (length links) 0) as (Hcat & Hall & Hlen); [lia|].
  split_and!; [done|done|]. rewrite Hlen. by rewrite Nat.sub_0_r.
Qed.

End Batches.

(** *** save_links and read_extracted_links *)

Section LinksFile.

Import ExtractAllLinks FetchAllExtractedLinks.

Lemma universal_newlines_same (s : string) :
  all_chars (fun c => negb (PyStr.code c =? 13)) s = true ->
  PyStr.universal_newlines s = s.
Proof.
  induction s as [|c r IH]; simpl; [done|].
  intros [Hc Hr]%andb_true_iff. apply negb_true_iff in Hc. rewrite Hc.
  by rewrite IH.
Qed.

Lemma file_lines_line (a rest : string) :
  all_chars (fun c => negb (PyStr.code c =? 10)) a = true ->
  PyStr.file_lines (a +:+ newline +:+ rest) = (a +:+ newline) :: PyStr.file_lines rest.
Proof.
  induction a as [|c r IH]; [done|]. rewrite !append_cons. simpl.
  intros [Hc Hr]%andb_true_iff. apply negb_true_iff in Hc. rewrite Hc.
  by rewrite IH.
Qed.

Lemma rstrip_newline (s : string) : PyStr.rstrip (s +:+ newline) = PyStr.rstrip s.
Proof.
  induction s as [|c r IH]; [done|]. rewrite append_cons. simpl. by rewrite IH.
Qed.

Lemma strip_hash (r : string) :
  PyStr.startswith "#" (PyStr.strip (String "#" r)) = true.
Proof. reflexivity. Qed.

Lemma one_line_parts (s : string) :
  one_line s = true ->
  all_chars (fun c => negb (PyStr.code c =? 10)) s = true
  /\ all_chars (fun c => negb (PyStr.code c =? 13)) s = true.
Proof.
  unfold one_line. intros Hs.
  split; (eapply all_chars_impl; [|exact Hs]); intros c [H1 H2]%andb_true_iff; done.
Qed.

Lemma digits_one_line (s : string) :
  all_chars PyStr.is_ascii_digit s = true -> one_line s = true.
Proof.
  apply all_chars_impl. intros c.
  destruct c as [[] [] [] [] [] [] [] []]; vm_compute; intros Hd; by try discriminate Hd.
Qed.

Lemma one_line_app (a b : string) :
  one_line a = true -> one_line b = true -> one_line (a +:+ b) = true.
Proof. unfold one_line. intros Ha Hb. by rewrite all_chars_app, Ha, Hb. Qed.

Lemma link_line_parts (s : string) :
  link_line s = true ->
  PyStr.truthy s = true /\ PyStr.strip s = s /\ PyStr.startswith "#" s = false
  /\ one_line s = true.
Proof.
  unfold link_line. intros [[[H1 H2]%andb_true_iff H3]%andb_true_iff H4]%andb_true_iff.
  split_and!; [done|by apply String.eqb_eq|by apply negb_true_iff|done].
Qed.

(** The lines of the links, each followed by a newline. *)
Lemma links_lines (links : list string) :
  forallb link_line links = true ->
  PyStr.file_lines (file_text (map (fun link => link +:+ newline) links))
  = map (fun link => link +:+ newline) links
  /\ all_chars (fun c => negb (PyStr.code c =? 13))
               (file_text (map (fun link => link +:+ newline) links)) = true.
Proof.
  induction links as [|l links IH]; simpl; [done|].
  intros [Hl Hlinks]%andb_true_iff. destruct (IH Hlinks) as [Hlines Hcr].
  apply link_line_parts in Hl as (_ & _ & _ & Hone).
  apply one_line_parts in Hone as [Hnl Hone].
  split.
  - rewrite append_assoc, file_lines_line by done. by rewrite Hlines.
  - by rewrite !all_chars_app, Hone, Hcr.
Qed.

(** What [read_extracted_links] keeps of the lines of the links. *)
Lemma links_kept (links : list string) :
  forallb link_line links = true ->
  flat_map (fun line =>
              let line := PyStr.strip line in
              if PyStr.truthy line && negb (PyStr.startswith "#" line)
              then [line] else [])
           (map (fun link => link +:+ newline) links)
  = links.
Proof.
  induction links as [|l links IH]; [done|].
  cbn [forallb]. intros [Hl Hlinks]%andb_true_iff. cbv zeta in IH |- *.
  match goal with
  | |- flat_map ?f (map ?g (l :: links)) = _ =>
      change (f (g l) ++ flat_map f (map g links) = l :: links)
  end.
  rewrite (IH Hlinks).
  apply link_line_parts in Hl as (Ht & Hs & Hh & _).
  assert (PyStr.strip (l +:+ newline) = l) as ->.
  { unfold PyStr.strip in *. by rewrite rstrip_newline. }
  by rewrite Ht, Hh.
Qed.

(** X22.  The file of links that [save_links] writes is read back by
    [read_extracted_links] as the very list of links saved, in order,
    the two comment lines and the empty line of the header being
    skipped.  This holds when the base url has no line break in it and
    every link is a line that reading keeps as it is: not empty, without
    a line break or surrounding whitespace, and not starting with [#]. *)
Theorem saved_links_read_back (links : list string) (base_url : string) :
  one_line base_url = true ->
  forallb link_line links = true ->
  read_extracted_links (Some (links_file links base_url)) = links.
Proof.
  intros Hbase Hlinks.
  destruct (links_lines links Hlinks) as [Hlines Hcr].
  apply one_line_parts in Hbase as [Hbase_nl Hbase_cr].
  pose proof (of_nat_digits (length links)) as Hdigits.
  apply digits_one_line, one_line_parts in Hdigits as [Hn_nl Hn_cr].
  unfold read_extracted_links, links_file.
  set (body := file_text (map (fun link => link +:+ newline) links)) in *.
  assert (file_text
            ([ "# All documentation links from " +:+ base_url +:+ newline;
               "# Total links found: " +:+ PyStr.of_nat (length links)
                 +:+ newline +:+ newline ]
             ++ map (fun link => link +:+ newline) links)
          = ("# All documentation links from " +:+ base_url) +:+ newline
            +:+ (("# Total links found: " +:+ PyStr.of_nat (length links)) +:+ newline
                 +:+ ("" +:+ newline +:+ body))) as ->.
  { unfold file_text. rewrite fold_right_app. simpl.
    fold (file_text (map (fun link => link +:+ newline) links)). fold body.
    by rewrite !append_assoc. }
  rewrite universal_newlines_same.
  - rewrite !file_lines_line, Hlines;
      [|done|by rewrite all_chars_app, Hn_nl|by rewrite all_chars_app, Hbase_nl].
    pose proof (links_kept links Hlinks) as Hkept. cbv zeta in Hkept.
    match goal with
    | |- flat_map ?f (?a :: ?b :: ?c :: ?m) = _ =>
        change (f a ++ f b ++ f c ++ flat_map f m = links)
    end.
    rewrite Hkept. cbv beta.
    rewrite (append_assoc "# All documentation links from "), append_cons.
    rewrite (append_assoc "# Total links found: "), append_cons.
    rewrite !strip_hash, !andb_false_r. reflexivity.
  - by rewrite !all_chars_app, Hbase_cr, Hn_cr, Hcr.
Qed.

End LinksFile.

(** *** run_doc_fetcher: the name of the output directory *)

Section OutputDirectory.

Import FetchAllExtractedLinks.

Context {lib_parts : UrlParts}.

Variable hash : string -> Z.

Lemma lacks_all (cs : list ascii) (s : string) :
  (forall c, c ∈ cs -> all_chars (fun x => negb (Ascii.eqb x c)) s = true) ->
  all_chars (fun x => negb (existsb (Ascii.eqb x) cs)) s = true.
Proof.
  induction s as [|x s IH]; simpl; [done|]. intros Hall.
  apply andb_true_iff. split.
  - apply negb_true_iff, existsb_false. intros c Hc.
    specialize (Hall c Hc). apply andb_true_iff in Hall as [Hx _].
    by apply negb_true_iff.
  - apply IH. intros c Hc. specialize (Hall c Hc).
    by apply andb_true_iff in Hall as [_ ?].
Qed.

Lemma replace_keeps_lack (c : ascii) (old new s : string) :
  all_chars (fun x => negb (Ascii.eqb x c)) new = true ->
  all_chars (fun x => negb (Ascii.eqb x c)) s = true ->
  all_chars (fun x => negb (Ascii.eqb x c)) (PyStr.replace old new s) = true.
Proof. intros Hnew Hs. by apply all_chars_replace_from. Qed.

Lemma digit_is_safe (s : string) :
  all_chars PyStr.is_ascii_digit s = true ->
  all_chars (fun c => negb (unsafe c)) s = true.
Proof.
  apply all_chars_impl. intros c.
  destruct c as [[] [] [] [] [] [] [] []]; vm_compute; intros Hd; by try discriminate Hd.
Qed.

(** X23.  The name [run_doc_fetcher] derives from a url for its output
    directory is never empty and never a lone underscore, and it holds
    none of the characters [/], [?], [&], [=], [-] and [.], so that it
    names one directory directly below the output base.  It is either at
    most 50 characters long, or the word [page_] followed by a number
    below 100000. *)
Theorem url_part_safe (url : string) :
  let name := url_part hash url in
  name <> "" /\ name <> "_"
  /\ all_chars (fun c => negb (unsafe c)) name = true
  /\ (PyStr.len name <= 50
      \/ (name = "page_" +:+ PyStr.of_nat (Z.to_nat (hash url mod 100000))
          /\ (0 <= hash url mod 100000 < 100000)%Z)).
Proof.
  cbv zeta. unfold url_part. cbv zeta.
  set (s0 := PyStr.strip_by is_slash _).
  set (s1 := PyStr.replace "/" "_" s0).
  set (s2 := PyStr.replace ".html" "" s1).
  set (s3 := PyStr.replace ".htm" "" s2).
  set (s4 := PyStr.replace "?" "_" s3).
  set (s5 := PyStr.replace "&" "_" s4).
  set (s6 := PyStr.replace "=" "_" s5).
  set (s7 := PyStr.replace "-" "_" s6).
  set (s8 := PyStr.replace "." "_" s7).
  set (s9 := if 50 <? PyStr.len s8 then PyStr.take 50 s8 else s8).
  assert (all_chars (fun c => negb (unsafe c)) s8 = true) as Hs8.
  { unfold unsafe. apply lacks_all. intros c Hc.
    repeat (apply elem_of_cons in Hc as [->|Hc]); [..|by apply elem_of_nil in Hc].
    - do 7 (apply replace_keeps_lack; [reflexivity|]). by apply replace_char_gone.
    - do 4 (apply replace_keeps_lack; [reflexivity|]). by apply replace_char_gone.
    - do 3 (apply replace_keeps_lack; [reflexivity|]). by apply replace_char_gone.
    - do 2 (apply replace_keeps_lack; [reflexivity|]). by apply replace_char_gone.
    - do 1 (apply replace_keeps_lack; [reflexivity|]). by apply replace_char_gone.
    - by apply replace_char_gone. }
  assert (all_chars (fun c => negb (unsafe c)) s9 = true /\ PyStr.len s9 <= 50)
    as [Hs9 Hlen].
  { unfold s9. destruct (50 <? PyStr.len s8) eqn:Hlong.
    - split; [by apply all_chars_take|]. rewrite len_take. lia.
    - apply Nat.ltb_ge in Hlong. by split. }
  destruct (negb (PyStr.truthy s9) || String.eqb s9 "_") eqn:Hfall.
  - split_and!; [done|done| |].
    + rewrite all_chars_app. apply andb_true_iff. split; [reflexivity|].
      apply digit_is_safe, of_nat_digits.
    + right. split; [done|]. by apply Z.mod_pos_bound.
  - apply orb_false_iff in Hfall as [Hne Hnu].
    apply negb_false_iff in Hne. apply String.eqb_neq in Hnu.
    split_and!; [|done|done|by left].
    intros Hempty. by rewrite Hempty in Hne.
Qed.

End OutputDirectory.

(** *** doc-fetcher.py: the command it runs *)

Section FrontEnd.

Import DocFetcher.

Variable script_path : string -> string.

Lemma translate_not_playwright (arg : string) : translate arg <> "--playwright".
Proof.
  unfold translate. destruct (String.eqb arg "--playwright") eqn:Harg; simpl; [done|].
  by apply String.eqb_neq.
Qed.

(** X24.  For the commands [extract] with a url and [fetch],
    [doc-fetcher.py] runs the script of that command, unbuffered, with
    the arguments that follow the command in their order, each as it was
    given except [--playwright], which is always passed as
    [--use-playwright]; in every other case, an unknown command and a
    missing command or url included, it runs nothing. *)
Theorem command_translates (argv : list string) :
  match command script_path argv with
  | Some cmd =>
      exists script,
        (argv !! 1 = Some "extract" /\ script = "extract_all_links.py" /\ 3 <= length argv
         \/ argv !! 1 = Some "fetch" /\ script = "fetch_all_extracted_links.py")
        /\ cmd = "python" :: "-u" :: script_path script :: map translate (drop 2 argv)
        /\ ("--playwright" ∉ map translate (drop 2 argv))
        /\ Forall2 (fun given passed =>
                      passed = if String.eqb given "--playwright"
                               then "--use-playwright" else given)
                   (drop 2 argv) (drop 3 cmd)
  | None =>
      length argv < 2
      \/ (argv !! 1 = Some "extract" /\ length argv < 3)
      \/ exists cmd, argv !! 1 = Some cmd /\ cmd <> "extract" /\ cmd <> "fetch"
  end.
Proof.
  assert ("--playwright" ∉ map translate (drop 2 argv)) as Hnone.
  { intros Hin. apply list_elem_of_In, in_map_iff in Hin as (arg & Harg & _).
    by apply translate_not_playwright in Harg. }
  assert (Forall2 (fun given passed =>
                     passed = if String.eqb given "--playwright"
                              then "--use-playwright" else given)
                  (drop 2 argv) (map translate (drop 2 argv))) as Hpass.
  { clear Hnone. induction (drop 2 argv) as [|a l IH]; simpl; [constructor|].
    constructor; [|done].
    unfold translate. by destruct (String.eqb a "--playwright"). }
  unfold command.
  destruct (length argv <? 2) eqn:Hshort; [left; by apply Nat.ltb_lt|].
  destruct (argv !! 1) as [cmd|] eqn:Hcmd; [|apply Nat.ltb_ge in Hshort].
  - destruct (String.eqb cmd "extract") eqn:Hex.
    + apply String.eqb_eq in Hex. subst cmd.
      destruct (length argv <? 3) eqn:Hurl.
      * right. left. split; [done|]. by apply Nat.ltb_lt.
      * apply Nat.ltb_ge in Hurl. exists "extract_all_links.py".
        split_and!; [left; by split_and!|done|done|done].
    + destruct (String.eqb cmd "fetch") eqn:Hfe.
      * apply String.eqb_eq in Hfe. subst cmd. exists "fetch_all_extracted_links.py".
        split_and!; [right; by split|done|done|done].
      * right. right. exists cmd. apply String.eqb_neq in Hex, Hfe. by split_and!.
  - apply lookup_ge_None in Hcmd. lia.
Qed.

End FrontEnd.

(** ** The fetcher on the example sites *)

Module Examples.

Import Model Sites.

(** *** Sections *)

(** Two headings with nothing between them: the first gives no section. *)
Example adjacent_headings :
  extract_sections
    (el "main" [txt "h1" "Intro"; txt "h2" "Usage"; txt "p" "Call the service."])
  = [ {| sec_level := 2; sec_title := "Usage"; sec_content := ["Call the service."] |} ].
Proof. reflexivity. Qed.

(** Two headings and no content at all: no section. *)
Example headings_alone :
  extract_sections (el "main" [txt "h1" "Intro"; txt "h2" "Usage"]) = [].
Proof. reflexivity. Qed.

(** A paragraph before the first heading and a paragraph of ten
    characters are dropped; surrounding blanks do not count. *)
Example early_and_short_blocks :
  extract_sections
    (el "main" [ txt "p" "Before any heading."; txt "h3" " Notes ";
                 txt "p" "  0123456789  "; txt "p" "01234567890" ])
  = [ {| sec_level := 3; sec_title := "Notes"; sec_content := ["01234567890"] |} ].
Proof. reflexivity. Qed.

(** *** The filter *)

(** C1 fails as stated.  Once the guide has been fetched, its url with
    a fragment added has a normal form that is in the visited set, and
    [should_fetch_url] accepts it all the same. *)
Lemma normalized_url_accepted :
  normalize_url "https://docs.io/guide#install" ∈ visited_urls after_guide
  /\ should_fetch_url after_guide "https://docs.io/guide#install" = true.
Proof.
  split.
  - refine (bool_decide_unpack _ _). vm_compute. exact I.
  - vm_compute. reflexivity.
Qed.

(** The guide, once fetched, is rejected. *)
Lemma should_fetch_url_visited_witness :
  guide_url ∈ visited_urls after_guide
  /\ should_fetch_url after_guide guide_url = false.
Proof.
  assert (guide_url ∈ visited_urls after_guide) as Hin
    by (refine (bool_decide_unpack _ _); vm_compute; exact I).
  split; [exact Hin|]. exact (should_fetch_url_visited after_guide guide_url Hin).
Defined.

(** *** The rate limit *)

(** C3 fails as stated.  Two calls of [fetch_page] in a row whose
    fetches both fail, with a delay of half a second: both failures are
    recorded, and there is no sleep. *)
Lemma failed_fetches_do_not_sleep :
  let r := fetch_pages (init guide_config guide_site)
                       ["https://docs.io/missing"; "https://docs.io/gone"] in
  r.2 = [None; None]
  /\ failed_urls r.1 = ["https://docs.io/missing"; "https://docs.io/gone"]
  /\ delay_seconds (config r.1) = (1 # 2)%Q
  /\ trace r.1 = [Requested "https://docs.io/missing"; Requested "https://docs.io/gone"]
  /\ sleep_log r.1 = [].
Proof. vm_compute. repeat split. Qed.

(** *** Endpoints *)

(** C4, on the code.  A table with two rows gives two table endpoints
    whose cells, joined, differ; [extract_api_endpoints] returns the
    first alone, because both have the key of a [GET] of the empty
    path. *)
Theorem table_rows_collapse :
  table_endpoints endpoints_table
  = [ TableEndpoint ["users"; "List the users"];
      TableEndpoint ["orders"; "List the orders"] ]
  /\ pattern_endpoints (get_text endpoints_table) = []
  /\ map endpoint_key (table_endpoints endpoints_table) = ["GET:"; "GET:"]
  /\ extract_api_endpoints (init guide_config guide_site) endpoints_table
     = [ TableEndpoint ["users"; "List the users"] ].
Proof. vm_compute. repeat split. Qed.

(** *** A page that parses to nothing *)

(** C5 fails as stated.  The only page of the site is an empty
    document: it is processed like any page, under the title "Untitled";
    a file is written for it and no url is recorded as failed. *)
Lemma empty_page_is_processed :
  let r := crawl_documentation (init (config_of ["https://docs.io/"]) empty_site) in
  created r = [("docs_io_00_Untitled.md", "out/docs_io_00_Untitled.md")]
  /\ failed r = []
  /\ map fst (written r) = ["out/docs_io_00_Untitled.md"; "out/README.md"].
Proof. vm_compute. repeat split. Qed.

(** A url that cannot be fetched, at the head of the queue of the guide
    crawl: it is recorded as failed, nothing is written, the guide is
    next. *)
Lemma failed_fetch_recorded_witness :
  fetch_fails (fetcher before_missing) missing_url
  /\ failed_urls (fetcher (crawl_page "docs_io" missing_url [guide_url] before_missing))
     = [missing_url]
  /\ write_log (fetcher (crawl_page "docs_io" missing_url [guide_url] before_missing))
     = []
  /\ pages_to_process (crawl_page "docs_io" missing_url [guide_url] before_missing)
     = [guide_url].
Proof.
  assert (fetch_fails (fetcher before_missing) missing_url) as Hfails
    by (split; vm_compute; reflexivity).
  destruct (failed_fetch_recorded "docs_io" missing_url [guide_url] before_missing Hfails)
    as (Hf & Hw & _ & _ & _ & Hq & _).
  split; [exact Hfails|]. split; [exact Hf|]. split; [exact Hw|exact Hq].
Defined.

(** *** The index *)

(** C7 fails as stated.  Two fetchers with the same configuration, the
    same pages and the same failures, and the same created files, build
    different indexes when the clock has moved between the two calls. *)
Lemma index_depends_on_clock :
  let self1 := init guide_config guide_site in
  let self2 := init guide_config guide_site_later in
  config self1 = config self2
  /\ successful_pages self1 = successful_pages self2
  /\ failed_urls self1 = failed_urls self2
  /\ String.eqb (index_text self1 guide_files) (index_text self2 guide_files) = false.
Proof. vm_compute. repeat split. Qed.

(** The index does not see the visited set or the sleeps. *)
Lemma index_text_deterministic_witness :
  index_text (init guide_config guide_site) guide_files
  = index_text (sleep (1 # 2)%Q (visited_add guide_url (init guide_config guide_site)))
               guide_files.
Proof.
  apply (index_text_deterministic
           (init guide_config guide_site)
           (sleep (1 # 2)%Q (visited_add guide_url (init guide_config guide_site)))
           guide_files); reflexivity.
Defined.

(** *** File names *)

(** C8 fails as stated.  The page of the guide site has the title
    "API Guide"; the file written for it keeps the capitals. *)
Lemma slug_keeps_case :
  created (crawl_documentation (init guide_config guide_site))
  = [("docs_io_00_API-Guide.md", "out/docs_io_00_API-Guide.md")]
  /\ safe_title "API Guide" = "API-Guide"
  /\ is_lowercase (safe_title "API Guide") = false.
Proof. vm_compute. repeat split. Qed.

(** The crawl of the guide site: one base url, one page, one file. *)
Lemma created_files_named_witness :
  crawl_documentation (init guide_config guide_site) = Some (guide_files, guide_final)
  /\ exists (groups : list (list PageContent)) (self1 : Fetcher Site),
      pages_by_site (∅, init guide_config guide_site) [guide_url] groups
                    (guide_files, self1)
      /\ length groups = 1
      /\ successful_pages guide_final = concat groups
      /\ forall filename,
          filename ∈ dom guide_files
          <-> exists i base pages n page,
              base_urls guide_config !! i = Some base /\ groups !! i = Some pages
              /\ pages !! n = Some page
              /\ filename = api_name_of base +:+ "_" +:+ PyStr.of_nat_02d n +:+ "_"
                            +:+ safe_title (title page) +:+ ".md".
Proof.
  assert (crawl_documentation (init guide_config guide_site)
          = Some (guide_files, guide_final)) as Hrun by (vm_compute; reflexivity).
  split; [exact Hrun|].
  destruct (created_files_named (init guide_config guide_site) guide_final
                                guide_files Hrun)
    as (groups & self1 & Hby & _ & Hlen & Hpages & _ & Hfiles & _).
  exists groups, self1.
  split; [exact Hby|]. split; [exact Hlen|]. split; [exact Hpages|exact Hfiles].
Defined.

(** *** A url that keeps failing *)


(** With a negative delay [time.sleep] raises after the url has been
    added to the visited set: the fetch of the guide succeeds, the call
    returns no document, and the url is both visited and failed, so
    that the filter rejects it from then on.  With rendering on, the
    static fetch follows the rendered one. *)
Example negative_delay :
  let r := fetch_page (init hasty_config guide_site) guide_url in
  fetch_succeeds (init hasty_config guide_site) guide_url = true
  /\ r.2 = None
  /\ elements (visited_urls r.1) = [guide_url]
  /\ failed_urls r.1 = [guide_url]
  /\ trace r.1 = [Requested guide_url]
  /\ should_fetch_url r.1 guide_url = false.
Proof. vm_compute. repeat split. Qed.

(** The run with that delay: the guide is fetched, visited and failed,
    no page is recorded and the index alone is written. *)
Example negative_delay_run :
  let r := crawl_documentation (init hasty_config guide_site) in
  created r = []
  /\ failed r = [guide_url]
  /\ map fst (written r) = ["out/README.md"]
  /\ match r with
     | Some (_, self) =>
         elements (visited_urls self) = [guide_url] /\ successful_pages self = []
         /\ sleep_log self = []
     | None => False
     end.
Proof. vm_compute. repeat split. Qed.

(** The delays the clock of the model takes. *)
Example delays :
  sleep_raises (1 # 2)%Q = false /\ sleep_raises 0%Q = false
  /\ sleep_raises (-1 # 1)%Q = true /\ sleep_raises (-1 # 1000)%Q = true.
Proof. vm_compute. repeat split. Qed.

Example negative_delay_rendered :
  let r := fetch_page (init hasty_rendering_config rendered_guide_site) guide_url in
  r.2 = None
  /\ elements (visited_urls r.1) = [guide_url]
  /\ failed_urls r.1 = [guide_url]
  /\ trace r.1 = [Rendered guide_url; Requested guide_url].
Proof. vm_compute. repeat split. Qed.

(** *** Two base urls on one host *)

(** C10.  The name of a file depends on the base url through its
    network location only, on the page through the slug of its title
    only, and on the count of pages processed for the base url, which
    starts at zero for each.  With two base urls on one host whose first
    pages have the same title, both pages are written to the same path,
    the second over the first, and one created file is reported for two
    successful pages. *)
Theorem same_host_overwrites :
  (forall (lib_url : Urllib) (base1 base2 : string) (n : nat) (t1 t2 : string),
      netloc base1 = netloc base2 -> safe_title t1 = safe_title t2 ->
      filename_of (api_name_of base1) n t1 = filename_of (api_name_of base2) n t2)
  /\ (let r := crawl_documentation (init twin_config twin_site) in
      created r = [("docs_io_00_Overview.md", "out/docs_io_00_Overview.md")]
      /\ failed r = []
      /\ written r !! 0
         = Some ("out/docs_io_00_Overview.md",
                 PyStr.join newline
                   [ "# docs_io - Overview"; ""; "**Source:** https://docs.io/v1"; "";
                     "## Overview"; ""; "The first version of the service."; "" ])
      /\ written r !! 1
         = Some ("out/docs_io_00_Overview.md",
                 PyStr.join newline
                   [ "# docs_io - Overview"; ""; "**Source:** https://docs.io/v2"; "";
                     "## Overview"; ""; "The second version of the service."; "" ])
      /\ map fst (written r)
         = ["out/docs_io_00_Overview.md"; "out/docs_io_00_Overview.md"; "out/README.md"]).
Proof.
  split.
  - intros. by apply filename_of_host.
  - vm_compute. repeat split.
Qed.

End Examples.

(** ** The scripts and the command line on examples *)

Module Cases.

Import Model Sites ExtractAllLinks FetchAllExtractedLinks.

(** With the default depth of 2 a base url causes 11 fetches at most;
    with a depth of 0, one. *)
Example default_site_budget :
  site_budget (cli_config start_args) = 11
  /\ site_budget (cli_config shallow_args) = 1.
Proof. split; reflexivity. Qed.

(** The three links are written under a header of two comments and an
    empty line, and read back. *)
Lemma saved_links_read_back_witness :
  one_line "https://docs.io/" = true
  /\ forallb link_line some_links = true
  /\ links_file some_links "https://docs.io/"
     = PyStr.join newline
         [ "# All documentation links from https://docs.io/";
           "# Total links found: 3"; "";
           "https://docs.io/api"; "https://docs.io/guide";
           "https://docs.io/guide/start"; "" ]
  /\ read_extracted_links (Some (links_file some_links "https://docs.io/")) = some_links.
Proof.
  split; [reflexivity|]. split; [reflexivity|]. split; [reflexivity|].
  apply (saved_links_read_back some_links "https://docs.io/"); reflexivity.
Defined.

(** A line of the file that is a comment or is empty gives no link, and
    the whitespace around a link is dropped; no file, no links. *)
Example read_extracted_links_skips :
  read_extracted_links
    (Some (PyStr.join newline [ "# a comment"; ""; "  https://docs.io/a  "; "   # b" ]))
  = ["https://docs.io/a"]
  /\ read_extracted_links None = [].
Proof. split; reflexivity. Qed.

(** Twenty-five links make three batches, of 10, 10 and 5. *)
Example chunks_of_25 :
  map length (chunks (replicate 25 "https://docs.io/a")) = [10; 10; 5]
  /\ chunks [] = [].
Proof. split; reflexivity. Qed.

(** The name of the output directory of a page with a query. *)
Example url_part_of_a_page :
  url_part (fun _ => 0%Z) "https://docs.io/api/v1/users.html?page=2"
  = "api_v1_users_page_2"
  /\ url_part (fun _ => (-7)%Z) "https://docs.io/" = "page_99993".
Proof. split; reflexivity. Qed.

(** The front end passes the flag on under its other name. *)
Example front_end_command :
  DocFetcher.command (fun name => "scripts/" +:+ name)
    [ "doc-fetcher.py"; "extract"; "https://docs.io/"; "--playwright"; "--max-pages"; "5" ]
  = Some [ "python"; "-u"; "scripts/extract_all_links.py"; "https://docs.io/";
           "--use-playwright"; "--max-pages"; "5" ]
  /\ DocFetcher.command (fun name => "scripts/" +:+ name) ["doc-fetcher.py"; "extract"]
     = None.
Proof. split; reflexivity. Qed.


Example outbound_link_not_fetched :
  match main (fun _ _ => guide_config) start_args outbound_site with
  | Some (_, self) => requested_urls self
  | None => []
  end
  = [ "https://docs.io/"; "https://docs.io/guide" ].
Proof. vm_compute. reflexivity. Qed.

End Cases.
